(** * Decoder: token commit, draft verification and stop criteria

    A shallow embedding of [tensorrt_llm/_torch/pyexecutor/decoder.py]:
    the sampling policies, the stop-criteria evaluator, the early-stop
    decoder, the simple batched decoder ([TorchDecoder]) with its mixed
    per-request producer, and the star-attention decoder.

    Conventions.
    - Python integers are [Z]; list positions and lengths are [nat].
    - A Python exception is a value of [exn]; a function that may raise
      returns [result A].
    - A request is mutated in place by the source.  Here every function
      that mutates a request returns the request it leaves behind, also
      when it raises ([LlmRequest * result A]).
    - Scores are real numbers extended with the [-inf] that the source
      writes into masked positions; probabilities are reals.
    - The draw of [torch.multinomial], the order that [torch.sort] picks
      among equal scores and the floating-point running sums of
      [torch.cumsum] are parameters of the sampling functions; what a
      theorem assumes of them is a hypothesis of that theorem. *)

From Stdlib Require Import ZArith List Lia Reals Lra Bool Sorted.
From stdpp Require Import base list.

Set Default Proof Using "Type".
Open Scope Z_scope.

(* ================================================================== *)
(** * Part I: the embedding                                            *)
(* ================================================================== *)

(** ** Exceptions and fallible results *)

Inductive exn : Type :=
| IndexError
| AssertionError
| RuntimeError
| ValueError
| TypeError
| AttributeError.

Definition result (A : Type) : Type := (exn + A)%type.

Definition Ok {A : Type} (a : A) : result A := inr a.
Definition Raise {A : Type} (e : exn) : result A := inl e.

Definition bind {A B : Type} (m : result A) (k : A -> result B) : result B :=
  match m with
  | inl e => inl e
  | inr a => k a
  end.

Notation "'do' x <- m ; k" := (bind m (fun x => k))
  (at level 10, x pattern, m at level 100, k at level 200).

Definition is_ok {A : Type} (m : result A) : bool :=
  match m with inr _ => true | inl _ => false end.

(** ** Requests *)

Inductive LlmRequestState : Type :=
| CONTEXT_INIT
| GENERATION_IN_PROGRESS
| GENERATION_COMPLETE.

Inductive FinishReason : Type :=
| NOT_FINISHED
| END_ID
| STOP_WORDS
| LENGTH.

Definition LlmRequestState_eqb (a b : LlmRequestState) : bool :=
  match a, b with
  | CONTEXT_INIT, CONTEXT_INIT
  | GENERATION_IN_PROGRESS, GENERATION_IN_PROGRESS
  | GENERATION_COMPLETE, GENERATION_COMPLETE => true
  | _, _ => false
  end.

(** Scores: a real, or the [float('-inf')] written by the masking steps. *)
Inductive score : Type :=
| NegInf
| Fin (x : R).

(** A dense tensor: its shape and its elements in row-major order. *)
Record tensor (A : Type) : Type := Tensor {
  shape : list nat;
  data : list A
}.
Arguments Tensor {A} _ _.
Arguments shape {A} _.
Arguments data {A} _.

(** [request.sampling_config]: [top_p] and [top_k] are [None] or lists. *)
Record SamplingConfig : Type := mkSamplingConfig {
  top_p : option (list R);
  top_k : option (list Z)
}.

(** [request.py_result]: the captured outputs of a request. *)
Record PyResult : Type := mkPyResult {
  context_logits : list (tensor score);
  generation_logits : list (tensor score);
  log_probs : list (list (tensor R))
}.

Record LlmRequest : Type := mkLlmRequest {
  state : LlmRequestState;
(** one token sequence per beam *)
tokens : list (list Z);
(** one finish reason per beam *)
finished_reasons : list FinishReason;
py_end_id : Z;
py_orig_prompt_len : Z;
py_max_new_tokens : Z;
(** [None] or [[stop_words_list, prefix_sum]] *)
py_stop_words_list : option (list Z * list nat);
py_draft_tokens : option (list Z);
py_draft_pages_allocated : Z;
py_decoding_iter : Z;
py_num_accepted_draft_tokens : Z;
py_rewind_len : Z;
py_return_context_logits : bool;
py_return_generation_logits : bool;
py_return_log_probs : bool;
context_remaining_length : Z;
sampling_config : SamplingConfig;
py_result : PyResult
}.

(** Field assignments. *)

Definition set_state (r : LlmRequest) (s : LlmRequestState) : LlmRequest :=
  mkLlmRequest s (tokens r) (finished_reasons r) (py_end_id r)
    (py_orig_prompt_len r) (py_max_new_tokens r) (py_stop_words_list r)
    (py_draft_tokens r) (py_draft_pages_allocated r) (py_decoding_iter r)
    (py_num_accepted_draft_tokens r) (py_rewind_len r)
    (py_return_context_logits r) (py_return_generation_logits r)
    (py_return_log_probs r) (context_remaining_length r)
    (sampling_config r) (py_result r).

Definition set_tokens (r : LlmRequest) (t : list (list Z)) : LlmRequest :=
  mkLlmRequest (state r) t (finished_reasons r) (py_end_id r)
    (py_orig_prompt_len r) (py_max_new_tokens r) (py_stop_words_list r)
    (py_draft_tokens r) (py_draft_pages_allocated r) (py_decoding_iter r)
    (py_num_accepted_draft_tokens r) (py_rewind_len r)
    (py_return_context_logits r) (py_return_generation_logits r)
    (py_return_log_probs r) (context_remaining_length r)
    (sampling_config r) (py_result r).

Definition set_finished_reasons (r : LlmRequest) (f : list FinishReason)
  : LlmRequest :=
  mkLlmRequest (state r) (tokens r) f (py_end_id r)
    (py_orig_prompt_len r) (py_max_new_tokens r) (py_stop_words_list r)
    (py_draft_tokens r) (py_draft_pages_allocated r) (py_decoding_iter r)
    (py_num_accepted_draft_tokens r) (py_rewind_len r)
    (py_return_context_logits r) (py_return_generation_logits r)
    (py_return_log_probs r) (context_remaining_length r)
    (sampling_config r) (py_result r).

Definition set_py_decoding_iter (r : LlmRequest) (n : Z) : LlmRequest :=
  mkLlmRequest (state r) (tokens r) (finished_reasons r) (py_end_id r)
    (py_orig_prompt_len r) (py_max_new_tokens r) (py_stop_words_list r)
    (py_draft_tokens r) (py_draft_pages_allocated r) n
    (py_num_accepted_draft_tokens r) (py_rewind_len r)
    (py_return_context_logits r) (py_return_generation_logits r)
    (py_return_log_probs r) (context_remaining_length r)
    (sampling_config r) (py_result r).

Definition set_py_num_accepted_draft_tokens (r : LlmRequest) (n : Z)
  : LlmRequest :=
  mkLlmRequest (state r) (tokens r) (finished_reasons r) (py_end_id r)
    (py_orig_prompt_len r) (py_max_new_tokens r) (py_stop_words_list r)
    (py_draft_tokens r) (py_draft_pages_allocated r) (py_decoding_iter r)
    n (py_rewind_len r)
    (py_return_context_logits r) (py_return_generation_logits r)
    (py_return_log_probs r) (context_remaining_length r)
    (sampling_config r) (py_result r).

Definition set_py_rewind_len (r : LlmRequest) (n : Z) : LlmRequest :=
  mkLlmRequest (state r) (tokens r) (finished_reasons r) (py_end_id r)
    (py_orig_prompt_len r) (py_max_new_tokens r) (py_stop_words_list r)
    (py_draft_tokens r) (py_draft_pages_allocated r) (py_decoding_iter r)
    (py_num_accepted_draft_tokens r) n
    (py_return_context_logits r) (py_return_generation_logits r)
    (py_return_log_probs r) (context_remaining_length r)
    (sampling_config r) (py_result r).

Definition set_py_result (r : LlmRequest) (p : PyResult) : LlmRequest :=
  mkLlmRequest (state r) (tokens r) (finished_reasons r) (py_end_id r)
    (py_orig_prompt_len r) (py_max_new_tokens r) (py_stop_words_list r)
    (py_draft_tokens r) (py_draft_pages_allocated r) (py_decoding_iter r)
    (py_num_accepted_draft_tokens r) (py_rewind_len r)
    (py_return_context_logits r) (py_return_generation_logits r)
    (py_return_log_probs r) (context_remaining_length r)
    (sampling_config r) p.

(** [request.get_tokens(beam)] *)
Definition get_tokens (r : LlmRequest) (beam : nat) : list Z :=
  default [] (tokens r !! beam).

(** Modelled from the spec: [LlmRequest.add_new_token] belongs to the
    request binding, which is not part of this file.  A commit appends the
    token to the sequence of the given beam and returns the new number of
    tokens of that beam. *)
Definition add_new_token (r : LlmRequest) (token : Z) (beam : nat)
  : LlmRequest * Z :=
  let r' := set_tokens r (alter (fun t => t ++ [token]) beam (tokens r)) in
  (r', Z.of_nat (length (get_tokens r' beam))).

(** Modelled from the spec: [LlmRequest.set_finished_reason] belongs to the
    request binding.  It records the finish reason of the given beam. *)
Definition set_finished_reason (r : LlmRequest) (reason : FinishReason)
  (beam : nat) : LlmRequest :=
  set_finished_reasons r (<[beam := reason]> (finished_reasons r)).

(** Modelled from the spec: [request.get_context_remaining_length()], the
    remaining prefill length of a context request. *)
Definition get_context_remaining_length (r : LlmRequest) : Z :=
  context_remaining_length r.

(** Modelled from the spec: the appends of [request.py_result], which
    record a captured tensor or log-probability list on the request. *)
Definition append_context_logits (r : LlmRequest) (t : tensor score)
  : LlmRequest :=
  let p := py_result r in
  set_py_result r
    (mkPyResult (context_logits p ++ [t]) (generation_logits p) (log_probs p)).

Definition append_generation_logits (r : LlmRequest) (t : tensor score)
  : LlmRequest :=
  let p := py_result r in
  set_py_result r
    (mkPyResult (context_logits p) (generation_logits p ++ [t]) (log_probs p)).

Definition append_log_probs (r : LlmRequest) (l : list (tensor R))
  : LlmRequest :=
  let p := py_result r in
  set_py_result r
    (mkPyResult (context_logits p) (generation_logits p) (log_probs p ++ [l])).

(** ** Python sequence helpers *)

(** [l[a:b]] for non-negative bounds: clamped, empty when [b <= a]. *)
Definition py_slice {A : Type} (a b : nat) (l : list A) : list A :=
  take (b - a)%nat (drop a l).

(** [l[-n:]]: the last [n] elements, but the whole list when [n = 0]
    (because [-0 = 0]), and the whole list when [n] exceeds the length. *)
Definition py_suffix {A : Type} (n : nat) (l : list A) : list A :=
  match n with
  | O => l
  | S _ => drop (length l - n)%nat l
  end.

Fixpoint try_map {A B : Type} (f : A -> result B) (l : list A)
  : result (list B) :=
  match l with
  | [] => Ok []
  | a :: l' => do b <- f a ; do bs <- try_map f l' ; Ok (b :: bs)
  end.

(** ** Tensors *)

Definition numel (s : list nat) : nat := fold_right Nat.mul 1%nat s.

Definition dim {A : Type} (t : tensor A) : nat := length (shape t).

(** A tensor is well formed when it has as many elements as its shape says. *)
Definition tensor_wf {A : Type} (t : tensor A) : Prop :=
  length (data t) = numel (shape t).

(** [n] consecutive pieces of [m] elements each. *)
Fixpoint chunks {A : Type} (n m : nat) (l : list A) : list (list A) :=
  match n with
  | O => []
  | S n' => take m l :: chunks n' m (drop m l)
  end.

(** The size of the last dimension (a 0-d tensor is read as one element),
    and the number of vectors along it. *)
Definition last_dim (s : list nat) : nat := List.last s 1%nat.
Definition outer (s : list nat) : nat := numel (removelast s).

Definition rows_of {A : Type} (t : tensor A) : list (list A) :=
  chunks (outer (shape t)) (last_dim (shape t)) (data t).

(** [t.unsqueeze(d)]: valid for [-(dim+1) <= d <= dim]. *)
Definition unsqueeze {A : Type} (d : Z) (t : tensor A) : result (tensor A) :=
  let n := Z.of_nat (dim t) in
  if (d <? - (n + 1)) || (n <? d) then Raise IndexError
  else
    let p := Z.to_nat (if d <? 0 then d + n + 1 else d) in
    Ok (Tensor (take p (shape t) ++ 1%nat :: drop p (shape t)) (data t)).

(** [t.squeeze(-1)] *)
Definition squeeze_last {A : Type} (t : tensor A) : tensor A :=
  match shape t with
  | [] => t
  | _ :: _ =>
      if (last_dim (shape t) =? 1)%nat
      then Tensor (removelast (shape t)) (data t)
      else t
  end.

(** [t[i]] for an integer [i >= 0] *)
Definition index0 {A : Type} (t : tensor A) (i : nat) : result (tensor A) :=
  match shape t with
  | [] => Raise IndexError
  | n :: s =>
      if (i <? n)%nat
      then Ok (Tensor s (py_slice (i * numel s) ((i + 1) * numel s) (data t)))
      else Raise IndexError
  end.

(** [t[a:b]] for integers [0 <= a], [0 <= b] *)
Definition slice0 {A : Type} (t : tensor A) (a b : nat) : result (tensor A) :=
  match shape t with
  | [] => Raise IndexError
  | n :: s =>
      let a' := Nat.min a n in
      let b' := Nat.min b n in
      Ok (Tensor ((b' - a')%nat :: s)
            (py_slice (a' * numel s) (b' * numel s) (data t)))
  end.

(** [t[a:b, :]] needs a second dimension. *)
Definition slice0_all1 {A : Type} (t : tensor A) (a b : nat)
  : result (tensor A) :=
  if (dim t <? 2)%nat then Raise IndexError else slice0 t a b.

(** [batch_size, vocab_size = t.size()] *)
Definition size2 {A : Type} (t : tensor A) : result (nat * nat) :=
  match shape t with
  | [b; v] => Ok (b, v)
  | _ => Raise ValueError
  end.

(** Positions of a row-major tensor. *)
Fixpoint unravel (s : list nat) (p : nat) : list nat :=
  match s with
  | [] => []
  | _ :: s' => (p / numel s')%nat :: unravel s' (p mod numel s')
  end.

Fixpoint ravel (s : list nat) (c : list nat) : nat :=
  match s, c with
  | _ :: s', i :: c' => (i * numel s' + ravel s' c')%nat
  | _, _ => 0%nat
  end.

(** [index.size(d) <= input.size(d)] for every [d] but the gathered one. *)
Fixpoint sizes_fit (d : nat) (sidx sin : list nat) : bool :=
  match sidx, sin with
  | a :: sidx', b :: sin' =>
      (match d with 1%nat => true | _ => (a <=? b)%nat end)
      && sizes_fit (S d) sidx' sin'
  | _, _ => true
  end.

(** [torch.gather(input, dim=1, index)] *)
Definition gather1 {A : Type} (input : tensor A) (index : tensor nat)
  : result (tensor A) :=
  if (dim input <? 2)%nat then Raise IndexError
  else if negb (dim index =? dim input)%nat then Raise RuntimeError
  else if negb (sizes_fit 0 (shape index) (shape input)) then
    Raise RuntimeError
  else
    do out <- try_map (fun pv : nat * nat =>
        let (p, v) := pv in
        if (v <? nth 1 (shape input) 0)%nat then
          match data input !!
                  ravel (shape input) (<[1%nat := v]> (unravel (shape index) p))
          with
          | Some x => Ok x
          | None => Raise RuntimeError
          end
        else Raise RuntimeError) (imap pair (data index)) ;
    Ok (Tensor (shape index) out).

(** ** Scores and the row-wise primitives *)

(** [a < b] on scores *)
Definition score_ltb (a b : score) : bool :=
  match a, b with
  | NegInf, NegInf => false
  | NegInf, Fin _ => true
  | Fin _, NegInf => false
  | Fin x, Fin y => if Rlt_dec x y then true else false
  end.

(** [exp] of a score; [exp(-inf) = 0]. *)
Definition weight (s : score) : R :=
  match s with
  | NegInf => 0%R
  | Fin x => exp x
  end.

Definition Rsum (l : list R) : R := fold_right Rplus 0%R l.

(** The softmax of one row over the reals.  On a row without a finite
    score the library gives [NaN] for every entry; here every entry is
    [0 / 0], which the reals read as [0].  Sampling from such a row is
    refused (see [drawable]). *)
Definition softmax_row (row : list score) : list R :=
  let z := Rsum (map weight row) in
  map (fun s => (weight s / z)%R) row.

(** [torch.softmax(t, dim=-1)] *)
Definition softmax (t : tensor score) : tensor R :=
  Tensor (shape t) (concat (map softmax_row (rows_of t))).

(** The first position of the maximum, scanning left to right. *)
Fixpoint argmax_from (best : score) (best_i i : nat) (l : list score) : nat :=
  match l with
  | [] => best_i
  | x :: l' =>
      if score_ltb best x then argmax_from x i (S i) l'
      else argmax_from best best_i (S i) l'
  end.

Definition argmax_row (row : list score) : result nat :=
  match row with
  | [] => Raise IndexError
  | x :: l => Ok (argmax_from x 0%nat 1%nat l)
  end.

(** [torch.argmax(t, dim=-1)]: refuses an empty last dimension with
    [IndexError]. *)
Definition argmax (t : tensor score) : result (tensor nat) :=
  if (last_dim (shape t) =? 0)%nat then Raise IndexError
  else
    do idx <- try_map argmax_row (rows_of t) ;
    Ok (Tensor (removelast (shape t)) idx).

(** [torch.log] *)
Definition log (t : tensor R) : tensor R :=
  Tensor (shape t) (map ln (data t)).

(** Descending order by score, stable: insertion of [x], which precedes
    the elements already placed, in front of the first one not above it. *)
Fixpoint insert_desc (x : score * nat) (l : list (score * nat))
  : list (score * nat) :=
  match l with
  | [] => [x]
  | y :: l' =>
      if score_ltb (fst x) (fst y) then y :: insert_desc x l' else x :: l
  end.

(** The scores of a row in descending order, each with the position it
    came from.  Only the scores are read, for the values of [torch.topk],
    and they do not depend on the order among equal scores; the order of
    [torch.sort], which is not stable, is not taken from here (see
    [sort_indices] below). *)
Definition sort_desc (row : list score) : list (score * nat) :=
  fold_right insert_desc [] (imap (fun i x => (x, i)) row).

(** The [k] largest values of a row, in descending order. *)
Definition topk_row (k : nat) (row : list score) : list score :=
  take k (map fst (sort_desc row)).

(** [torch.topk(t, k, dim=-1)[0]]: refuses a [k] outside [0, vocab]. *)
Definition topk (t : tensor score) (k : Z) : result (tensor score) :=
  if (k <? 0) || (Z.of_nat (last_dim (shape t)) <? k) then Raise RuntimeError
  else
    Ok (Tensor (removelast (shape t) ++ [Z.to_nat k])
          (concat (map (topk_row (Z.to_nat k)) (rows_of t)))).

(** [values[:, -1]] on a 2-D tensor: its last column. *)
Definition last_column (values : tensor score) : result (list score) :=
  match shape values with
  | [_; k] =>
      if (k =? 0)%nat then Raise IndexError
      else Ok (map (fun v => List.last v NegInf) (rows_of values))
  | _ => Raise IndexError
  end.

Fixpoint cumsum_from (acc : R) (l : list R) : list R :=
  match l with
  | [] => []
  | x :: l' => (acc + x)%R :: cumsum_from (acc + x)%R l'
  end.

(** The running sums of a list in exact arithmetic: what [torch.cumsum]
    approximates. *)
Definition cumsum (l : list R) : list R := cumsum_from 0%R l.

Definition Rgtb (a b : R) : bool := if Rlt_dec b a then true else false.

(** [row[order]]: the scores of a row read in the order of the positions
    [order]. *)
Definition in_order (row : list score) (order : list nat) : list score :=
  map (fun i => default NegInf (row !! i)) order.

(** ** Sampling policies *)

Section Sampling.

(** [torch.multinomial(probs, num_samples=1)]: the index drawn for a row
    is an arbitrary function of the row's position and distribution. *)
Variable multinomial : nat -> list R -> nat.

(** [torch.sort(row, descending=True)[1]]: the positions of a row in the
    order the library sorts them.  The sort is not stable, so the order
    among equal scores is the library's choice. *)
Variable sort_indices : list score -> list nat.

(** [torch.cumsum(torch.softmax(sorted_logits, dim=-1), dim=-1)] on one
    row, as the library computes it in floating point: the running sums
    are close to the exact ones of [cumsum] and [softmax_row] but need not
    be equal to them, so they are not computed here. *)
Variable cumulative_probs : list score -> list R.

(** [torch.multinomial] refuses, with [RuntimeError], a distribution that
    does not sum to a positive number.  The softmax of a row without a
    finite score is refused: it is all [NaN] in floating point, and sums
    to zero in [softmax_row]. *)
Definition drawable (dist : list R) : bool := Rgtb (Rsum dist) 0.

(** [if logits_dim == 1: logits = logits.unsqueeze(0)] *)
Definition promote (logits : tensor score) : result (tensor score) :=
  if (dim logits =? 1)%nat then unsqueeze 0 logits else Ok logits.

(** [next_tokens] and [log_probs] from the raw probabilities and the
    distributions to draw from: the common tail of the two sampling
    functions. *)
Definition sample_and_report (batch_size : nat) (raw_probs : tensor R)
  (probs : list (list R)) : result (tensor nat * tensor R) :=
  if negb (forallb drawable probs) then Raise RuntimeError
  else
    let next_tokens := Tensor [batch_size] (imap multinomial probs) in
    do index <- unsqueeze 1 next_tokens ;
    do gathered <- gather1 raw_probs index ;
    let token_probs := squeeze_last gathered in
    Ok (next_tokens, log token_probs).

(** [torch.where(row < min_value, -inf, row)] on one row *)
Definition top_k_mask_row (min_value : score) (row : list score)
  : list score :=
  map (fun x => if score_ltb x min_value then NegInf else x) row.

(** The distributions the tokens are drawn from, one per row. *)
Definition top_k_probs (logits : tensor score) (top_k : Z)
  : result (list (list R)) :=
  do values <- topk logits top_k ;
  do min_values <- last_column values ;
  let masked := zip_with (fun row m => top_k_mask_row m row)
                  (rows_of logits) min_values in
  Ok (map softmax_row masked).

Definition top_k_sampling_batch (logits : tensor score) (top_k : Z)
  : result (tensor nat * tensor R) :=
  do logits <- promote logits ;
  do (batch_size, vocab_size) <- size2 logits ;
  let raw_probs := softmax logits in
  do probs <- top_k_probs logits top_k ;
  sample_and_report batch_size raw_probs probs.

(** [remove[:, 1:] = remove[:, :-1].clone()] then [remove[:, 0] = 0],
    on one non-empty row *)
Definition shift_right (remove : list bool) : list bool :=
  match remove with
  | [] => []
  | _ :: _ => false :: removelast remove
  end.

(** [self.scatter(1, sorted_indices, src)] on one row *)
Definition scatter_row (self : list bool) (sorted_indices : list nat)
  (src : list bool) : list bool :=
  fold_left (fun acc ib => <[fst ib := snd ib]> acc)
    (zip sorted_indices src) self.

Definition top_p_mask_row (top_p : R) (row : list score) : list score :=
  let sorted_indices := sort_indices row in
  let sorted_logits := in_order row sorted_indices in
  let cumulative := cumulative_probs sorted_logits in
  let sorted_indices_to_remove :=
    shift_right (map (fun c => Rgtb c top_p) cumulative) in
  let indices_to_remove :=
    scatter_row sorted_indices_to_remove sorted_indices
      sorted_indices_to_remove in
  zip_with (fun x (b : bool) => if b then NegInf else x)
    row indices_to_remove.

(** The assignment to column [0] refuses an empty vocabulary. *)
Definition top_p_probs (logits : tensor score) (vocab_size : nat)
  (top_p : R) : result (list (list R)) :=
  if (vocab_size =? 0)%nat then Raise IndexError
  else Ok (map (fun row => softmax_row (top_p_mask_row top_p row))
             (rows_of logits)).

Definition top_p_sampling_batch (logits : tensor score) (top_p : R)
  : result (tensor nat * tensor R) :=
  do logits <- promote logits ;
  do (batch_size, vocab_size) <- size2 logits ;
  let raw_probs := softmax logits in
  do probs <- top_p_probs logits vocab_size top_p ;
  sample_and_report batch_size raw_probs probs.

Definition greedy_search_sampling_batch (logits : tensor score)
  : result (tensor nat * tensor R) :=
  let raw_probs := softmax logits in
  do next_tokens <- argmax logits ;
  do index <- unsqueeze 1 next_tokens ;
  do gathered <- gather1 raw_probs index ;
  let token_probs := squeeze_last gathered in
  Ok (next_tokens, log token_probs).

Definition decode_single_request (request : LlmRequest)
  (logits : tensor score) : result (tensor nat * tensor R) :=
  if negb ((dim logits =? 2)%nat && (nth 0 (shape logits) 0 =? 1)%nat)
  then Raise AssertionError
  else
    match top_p (sampling_config request) with
    | Some (p :: _) => top_p_sampling_batch logits p
    | _ =>
        match top_k (sampling_config request) with
        | Some (k :: _) => top_k_sampling_batch logits k
        | _ => greedy_search_sampling_batch logits
        end
    end.

End Sampling.

(** ** The scheduled batch and the decode state *)

Record ScheduledRequests : Type := mkScheduledRequests {
  context_requests : list LlmRequest;
  generation_requests : list LlmRequest;
(** present only on some batches ([hasattr]) *)
chunked_requests : option (list LlmRequest)
}.

(** An entry of [DecoderState.log_probs], as a Python value. *)
Inductive pyval : Type :=
| PyNone
| PyList (l : list (tensor R))
| PyTensor (t : tensor R).

(** [v.tolist()]: only a tensor has the method. *)
Definition tolist (v : pyval) : result (tensor R) :=
  match v with
  | PyTensor t => Ok t
  | PyNone | PyList _ => Raise AttributeError
  end.

Record DecoderState : Type := mkDecoderState {
  scheduled_requests : ScheduledRequests;
  logits : option (tensor score);
  state_log_probs : option (list pyval);
(** [new_tensors_host["new_tokens_host"].tolist()], a flat list of ints;
    the completion event is waited for before it is read *)
new_tokens_host : list Z
}.

(** ** The early-stop decoder *)

Module EarlyStopDecoder.

Definition decode_async (scheduled : ScheduledRequests)
  (model_outputs_logits : tensor score) : DecoderState :=
  mkDecoderState scheduled (Some model_outputs_logits) None [].

(** The body of the loop over [enumerate(context_requests)]. *)
Definition update_one (decoder_logits : option (tensor score)) (idx : nat)
  (request : LlmRequest) : LlmRequest * result unit :=
  let request := set_state request GENERATION_COMPLETE in
  let request := set_finished_reason request LENGTH 0 in
  match decoder_logits with
  | None => (request, Raise TypeError)
  | Some all_logits =>
      match index0 all_logits idx with
      | inl e => (request, Raise e)
      | inr logits =>
          match (if (dim logits =? 1)%nat then unsqueeze (-1) logits
                 else Ok logits) with
          | inl e => (request, Raise e)
          | inr logits => (append_context_logits request logits, Ok tt)
          end
      end
  end.

Fixpoint update_loop (decoder_logits : option (tensor score)) (idx : nat)
  (requests : list LlmRequest) : list LlmRequest * result unit :=
  match requests with
  | [] => ([], Ok tt)
  | request :: rest =>
      match update_one decoder_logits idx request with
      | (request', inl e) => (request' :: rest, Raise e)
      | (request', inr _) =>
          let (rest', res) := update_loop decoder_logits (S idx) rest in
          (request' :: rest', res)
      end
  end.

(** Returns the context requests as the call leaves them. *)
Definition update_requests (decoder_state : DecoderState)
  : list LlmRequest * result unit :=
  let scheduled := scheduled_requests decoder_state in
  match generation_requests scheduled with
  | _ :: _ => (context_requests scheduled, Raise AssertionError)
  | [] => update_loop (logits decoder_state) 0 (context_requests scheduled)
  end.

End EarlyStopDecoder.

(** ** The simple batched decoder *)

Module TorchDecoder.
Section Self.

(** [self.max_seq_len] *)
Variable max_seq_len : Z.

Definition _meet_max_token_stop_criteria (request : LlmRequest)
  (num_tokens : Z) : bool :=
  (num_tokens - py_orig_prompt_len request >=? py_max_new_tokens request)
  || (num_tokens >=? max_seq_len).

(** The loop over [enumerate(prefix_sum)]; [offset] is [0] in the first
    iteration and the previous [offset_end] afterwards. *)
Fixpoint stop_words_loop (stop_words_list toks : list Z) (offset : nat)
  (prefix_sum : list nat) : bool :=
  match prefix_sum with
  | [] => false
  | offset_end :: rest =>
      let stop_word := py_slice offset offset_end stop_words_list in
      if (length toks <? length stop_word)%nat then
        stop_words_loop stop_words_list toks offset_end rest
      else if bool_decide (py_suffix (length stop_word) toks = stop_word)
      then true
      else stop_words_loop stop_words_list toks offset_end rest
  end.

Definition _meet_stop_token_criteria (request : LlmRequest) : bool :=
  match py_stop_words_list request with
  | Some (stop_words_list, prefix_sum) =>
      stop_words_loop stop_words_list (get_tokens request 0) 0 prefix_sum
  | None => false
  end.

(** Returns the request as the call leaves it and whether generation
    should stop. *)
Definition _handle_stop_criteria (request : LlmRequest) (new_token : Z)
  (num_tokens : Z) (beam_idx : nat) : LlmRequest * bool :=
  if new_token =? py_end_id request then
    (set_finished_reason (set_state request GENERATION_COMPLETE)
       END_ID beam_idx, true)
  else if _meet_max_token_stop_criteria request num_tokens then
    (set_finished_reason (set_state request GENERATION_COMPLETE)
       LENGTH beam_idx, true)
  else if _meet_stop_token_criteria request then
    (set_finished_reason (set_state request GENERATION_COMPLETE)
       STOP_WORDS beam_idx, true)
  else (request, false).

(** *** [update_requests] *)

Definition beam_idx : nat := 0.

Section Update.

Variable decoder_state : DecoderState.

Definition new_tokens_list : list Z := new_tokens_host decoder_state.

(** The closure [handle_logits]; [token_idx] and [request_idx] are the
    enclosing counters at the time of the call. *)
Definition handle_logits (token_idx request_idx : nat)
  (request : LlmRequest) (count : nat) : LlmRequest * result unit :=
  match logits decoder_state with
  | None => (request, Ok tt)
  | Some all_logits =>
      if negb (py_return_generation_logits request)
         && negb (py_return_log_probs request)
      then (request, Ok tt)
      else
        match slice0 all_logits token_idx (token_idx + count) with
        | inl e => (request, Raise e)
        | inr current_logits =>
            let request :=
              append_generation_logits request current_logits in
            if negb (py_return_log_probs request) then (request, Ok tt)
            else
              let log_probs :=
                match state_log_probs decoder_state with
                | Some ((_ :: _) as l) =>
                    match l !! request_idx with
                    | Some v => tolist v
                    | None => Raise IndexError
                    end
                | _ =>
                    do tl <- greedy_search_sampling_batch current_logits ;
                    Ok (snd tl)
                end in
              match log_probs with
              | inl e => (request, Raise e)
              | inr lp => (append_log_probs request [lp], Ok tt)
              end
        end
  end.

(** The commit of one token row, shared by the context and the plain
    generation rows. *)
Definition commit_row (token_idx request_idx : nat)
  (request : LlmRequest) : LlmRequest * result unit :=
  match new_tokens_list !! token_idx with
  | None => (request, Raise IndexError)
  | Some new_token =>
      let (request, num_tokens) :=
        add_new_token request new_token beam_idx in
      let (request, _) :=
        _handle_stop_criteria request new_token num_tokens beam_idx in
      match handle_logits token_idx request_idx request 1 with
      | (request, inl e) => (request, Raise e)
      | (request, inr _) =>
          (set_py_decoding_iter request (py_decoding_iter request + 1),
           Ok tt)
      end
  end.

(** One iteration of the loop over [context_requests]: the request as
    left, and the counters after [advance_idx]. *)
Definition context_step (idx : nat * nat) (request : LlmRequest)
  : LlmRequest * result (nat * nat) :=
  let (request_idx, token_idx) := idx in
  if negb (get_context_remaining_length request =? 0) then
    (request, Ok (S request_idx, S token_idx))
  else if negb (LlmRequestState_eqb (state request) GENERATION_COMPLETE)
  then
    match commit_row token_idx request_idx request with
    | (request, inl e) => (request, Raise e)
    | (request, inr _) => (request, Ok (S request_idx, S token_idx))
    end
  else (request, Ok (S request_idx, S token_idx)).

(** The loop over [request.py_draft_tokens]: [new_token] is the token
    committed last, [num_accepted] the drafts accepted so far. *)
Fixpoint accept_drafts (token_idx : nat) (draft_tokens : list Z)
  (request : LlmRequest) (new_token : Z) (num_accepted : nat)
  : LlmRequest * result nat :=
  match draft_tokens with
  | [] => (request, Ok num_accepted)
  | draft_token :: rest =>
      if negb (draft_token =? new_token) then (request, Ok num_accepted)
      else
        let num_accepted := S num_accepted in
        match new_tokens_list !! (token_idx + num_accepted)%nat with
        | None => (request, Raise IndexError)
        | Some new_token =>
            let (request, num_tokens) :=
              add_new_token request new_token beam_idx in
            let (request, stop) :=
              _handle_stop_criteria request new_token num_tokens
                beam_idx in
            if stop then (request, Ok num_accepted)
            else accept_drafts token_idx rest request new_token
                   num_accepted
        end
  end.

(** The guarded body of the loop over [extend_requests]. *)
Definition extend_commit (token_idx request_idx : nat)
  (request : LlmRequest) : LlmRequest * result unit :=
  match new_tokens_list !! token_idx with
  | None => (request, Raise IndexError)
  | Some new_token =>
      let (request, num_tokens) :=
        add_new_token request new_token beam_idx in
      let (request, _) :=
        _handle_stop_criteria request new_token num_tokens beam_idx in
      match py_draft_tokens request with
      | None => (request, Raise TypeError)
      | Some draft_tokens =>
          match accept_drafts token_idx draft_tokens request new_token 0
          with
          | (request, inl e) => (request, Raise e)
          | (request, inr num_accepted) =>
              match handle_logits token_idx request_idx request
                      num_accepted with
              | (request, inl e) => (request, Raise e)
              | (request, inr _) =>
                  let request :=
                    set_py_decoding_iter request
                      (py_decoding_iter request + 1) in
                  let request :=
                    set_py_num_accepted_draft_tokens request
                      (Z.of_nat num_accepted) in
                  let request :=
                    set_py_rewind_len request
                      (py_draft_pages_allocated request
                       - Z.of_nat num_accepted) in
                  (request, Ok tt)
              end
          end
      end
  end.

(** One iteration of the loop over [extend_requests]. *)
Definition extend_step (idx : nat * nat) (request : LlmRequest)
  : LlmRequest * result (nat * nat) :=
  let (request_idx, token_idx) := idx in
  let (request', res) :=
    if negb (LlmRequestState_eqb (state request) GENERATION_COMPLETE)
    then extend_commit token_idx request_idx request
    else (request, Ok tt) in
  match res with
  | inl e => (request', Raise e)
  | inr _ =>
      match py_draft_tokens request' with
      | None => (request', Raise TypeError)
      | Some draft_tokens =>
          (request',
           Ok (S request_idx, (token_idx + (length draft_tokens + 1))%nat))
      end
  end.

(** One iteration of the loop over the plain [generation_requests]. *)
Definition generation_step (idx : nat * nat) (request : LlmRequest)
  : LlmRequest * result (nat * nat) :=
  let (request_idx, token_idx) := idx in
  if negb (LlmRequestState_eqb (state request) GENERATION_COMPLETE) then
    match commit_row token_idx request_idx request with
    | (request, inl e) => (request, Raise e)
    | (request, inr _) => (request, Ok (S request_idx, S token_idx))
    end
  else (request, Ok (S request_idx, S token_idx)).

(** A [for] loop over requests threading the two counters; a raise
    leaves the remaining requests untouched. *)
Fixpoint for_each
  (step : nat * nat -> LlmRequest -> LlmRequest * result (nat * nat))
  (idx : nat * nat) (requests : list LlmRequest)
  : list LlmRequest * result (nat * nat) :=
  match requests with
  | [] => ([], Ok idx)
  | request :: rest =>
      match step idx request with
      | (request', inl e) => (request' :: rest, Raise e)
      | (request', inr idx') =>
          let (rest', res) := for_each step idx' rest in
          (request' :: rest', res)
      end
  end.

Definition is_extend (request : LlmRequest) : bool :=
  match py_draft_tokens request with Some _ => true | None => false end.

(** What a call leaves behind: the three groups of requests in the
    order they were walked, and the counters [(request_idx, token_idx)]
    at the end, or the exception raised. *)
Record Updated : Type := mkUpdated {
  upd_context : list LlmRequest;
  upd_extend : list LlmRequest;
  upd_generation : list LlmRequest;
  upd_result : result (nat * nat)
}.

Definition update_requests : Updated :=
  let scheduled := scheduled_requests decoder_state in
  let extend_requests :=
    List.filter is_extend (generation_requests scheduled) in
  let plain_requests :=
    List.filter (fun r => negb (is_extend r))
      (generation_requests scheduled) in
  match for_each context_step (0, 0)%nat (context_requests scheduled) with
  | (ctx, inl e) =>
      mkUpdated ctx extend_requests plain_requests (Raise e)
  | (ctx, inr (request_idx, token_idx)) =>
      let request_idx :=
        match chunked_requests scheduled with
        | Some chunked => (request_idx + length chunked)%nat
        | None => request_idx
        end in
      match for_each extend_step (request_idx, token_idx)
              extend_requests with
      | (ext, inl e) => mkUpdated ctx ext plain_requests (Raise e)
      | (ext, inr idx) =>
          let (gen, res) := for_each generation_step idx plain_requests in
          mkUpdated ctx ext gen res
      end
  end.

End Update.

(** *** [decode_async] *)

(** [torch.cat(tensors)] along dimension 0: [ValueError] on an empty
    list, [RuntimeError] on tensors that do not fit together. *)
Definition cat {A : Type} (ts : list (tensor A)) : result (tensor A) :=
  match ts with
  | [] => Raise ValueError
  | t :: _ =>
      match shape t with
      | [] => Raise RuntimeError
      | _ :: tl =>
          if forallb (fun u => bool_decide (tail (shape u) = tl)
                               && negb (dim u =? 0)%nat) ts
          then Ok (Tensor (sum_list (map (fun u => hd 0%nat (shape u)) ts)
                             :: tl)
                     (concat (map data ts)))
          else Raise RuntimeError
      end
  end.

(** The accumulators of [_mixed_decode]: [new_tokens_device_array],
    [state.log_probs] and [idx]. *)
Definition mixed_acc : Type := (list (tensor nat) * list pyval * nat)%type.

Section Mixed.

(** The draws of [torch.multinomial]: one sampler per decoded request,
    named by the value of [idx] at the call. *)
Variable multinomial : nat -> nat -> list R -> nat.

(** The order of [torch.sort] and the running sums of [torch.cumsum], as
    in the sampling policies. *)
Variable sort_indices : list score -> list nat.
Variable cumulative_probs : list score -> list R.

Variable model_logits : tensor score.

(** The statements shared by the two loops, from [token_logits = ...]
    to [idx += 1]. *)
Definition mixed_decode_one (acc : mixed_acc) (request : LlmRequest)
  : result mixed_acc :=
  let '(new_tokens_device_array, state_lp, idx) := acc in
  do token_logits <- slice0_all1 model_logits idx (idx + 1) ;
  do tl <- decode_single_request (multinomial idx) sort_indices
             cumulative_probs request token_logits ;
  let (new_token, log_probs) := tl in
  let entry :=
    if py_return_log_probs request then PyList [log_probs] else PyNone in
  Ok (new_tokens_device_array ++ [new_token], state_lp ++ [entry], S idx).

Fixpoint mixed_context_loop (acc : mixed_acc) (requests : list LlmRequest)
  : result mixed_acc :=
  match requests with
  | [] => Ok acc
  | request :: rest =>
      if py_return_context_logits request then Raise AssertionError
      else
        do acc' <- mixed_decode_one acc request ;
        mixed_context_loop acc' rest
  end.

Fixpoint mixed_generation_loop (acc : mixed_acc)
  (requests : list LlmRequest) : result mixed_acc :=
  match requests with
  | [] => Ok acc
  | request :: rest =>
      if LlmRequestState_eqb (state request) GENERATION_COMPLETE then
        mixed_generation_loop acc rest
      else if is_extend request then Raise AssertionError
      else
        do acc' <- mixed_decode_one acc request ;
        mixed_generation_loop acc' rest
  end.

Definition _mixed_decode (scheduled : ScheduledRequests)
  : result DecoderState :=
  do acc <- mixed_context_loop ([], [], 0%nat)
              (context_requests scheduled) ;
  do acc <- mixed_generation_loop acc (generation_requests scheduled) ;
  let '(new_tokens_device_array, state_lp, _) := acc in
  do new_tokens_device <- cat new_tokens_device_array ;
  Ok (mkDecoderState scheduled (Some model_logits) (Some state_lp)
        (map Z.of_nat (data new_tokens_device))).

Definition _batch_decode (scheduled : ScheduledRequests)
  : result DecoderState :=
  do new_tokens_device <- argmax model_logits ;
  Ok (mkDecoderState scheduled (Some model_logits) None
        (map Z.of_nat (data new_tokens_device))).

(** [self.mixed_decoder] *)
Variable mixed_decoder : bool.

Definition decode_async (scheduled : ScheduledRequests)
  : result DecoderState :=
  if mixed_decoder then _mixed_decode scheduled
  else _batch_decode scheduled.

End Mixed.
End Self.
End TorchDecoder.

(** ** The star-attention decoder *)

(** [l[i]] for a Python integer [i]: a negative index counts from the end. *)
Definition py_getitem {A : Type} (l : list A) (i : Z) : result A :=
  let n := Z.of_nat (length l) in
  if (i <? - n) || (n <=? i) then Raise IndexError
  else
    match l !! Z.to_nat (if i <? 0 then i + n else i) with
    | Some x => Ok x
    | None => Raise IndexError
    end.

(** [t[i]] for a Python integer [i] *)
Definition index0_py {A : Type} (t : tensor A) (i : Z) : result (tensor A) :=
  match shape t with
  | [] => Raise IndexError
  | n :: _ =>
      if (i <? - Z.of_nat n) || (Z.of_nat n <=? i) then Raise IndexError
      else index0 t (Z.to_nat (if i <? 0 then i + Z.of_nat n else i))
  end.

(** A request as this decoder reads it: it carries the position of its
    output token in the step's buffers, [request.output_token_idx]. *)
Record StarRequest : Type := mkStarRequest {
  base_request : LlmRequest;
  output_token_idx : Z
}.

(** What [TorchStarAttentionDecoder.update_requests] reads of the decode
    state: the two request collections, [logits], and
    [new_tensors_host["new_tokens_host"].tolist()]. *)
Record StarDecoderState : Type := mkStarDecoderState {
  star_context_requests : list StarRequest;
  star_generation_requests : list StarRequest;
  star_logits : option (tensor score);
  star_new_tokens_host : list Z
}.

Module TorchStarAttentionDecoder.
Section Self.

(** [self.max_seq_len], inherited from [TorchDecoder] *)
Variable max_seq_len : Z.

(** [logits[output_token_idx].unsqueeze(0)] *)
Definition current_logits_of (logits : option (tensor score)) (idx : Z)
  : result (tensor score) :=
  match logits with
  | None => Raise TypeError
  | Some all_logits => do row <- index0_py all_logits idx ; unsqueeze 0 row
  end.

Definition update_one_request (sr : StarRequest) (new_tokens_list : list Z)
  (logits : option (tensor score)) : StarRequest * result unit :=
  let idx := output_token_idx sr in
  let request := base_request sr in
  match py_getitem new_tokens_list idx with
  | inl e => (sr, Raise e)
  | inr new_token =>
      let (request, num_tokens) := add_new_token request new_token 0 in
      match current_logits_of logits idx with
      | inl e => (mkStarRequest request idx, Raise e)
      | inr current_logits =>
          let request := append_generation_logits request current_logits in
          let logged :=
            if py_return_log_probs request then
              match greedy_search_sampling_batch current_logits with
              | inl e => (request, Raise e)
              | inr tl => (append_log_probs request [snd tl], Ok tt)
              end
            else (request, Ok tt) in
          match logged with
          | (request, inl e) => (mkStarRequest request idx, Raise e)
          | (request, inr _) =>
              let (request, _) :=
                TorchDecoder._handle_stop_criteria max_seq_len request
                  new_token num_tokens 0 in
              let request :=
                if negb (LlmRequestState_eqb (state request)
                           GENERATION_COMPLETE)
                then set_py_decoding_iter request
                       (py_decoding_iter request + 1)
                else request in
              (mkStarRequest request idx, Ok tt)
          end
      end
  end.

(** A [for] loop calling [update_one_request] on the requests that pass
    [guard]; a raise leaves the remaining requests untouched. *)
Fixpoint update_each (guard : StarRequest -> bool)
  (new_tokens_list : list Z) (logits : option (tensor score))
  (requests : list StarRequest) : list StarRequest * result unit :=
  match requests with
  | [] => ([], Ok tt)
  | sr :: rest =>
      if guard sr then
        match update_one_request sr new_tokens_list logits with
        | (sr', inl e) => (sr' :: rest, Raise e)
        | (sr', inr _) =>
            let (rest', res) :=
              update_each guard new_tokens_list logits rest in
            (sr' :: rest', res)
        end
      else
        let (rest', res) := update_each guard new_tokens_list logits rest in
        (sr :: rest', res)
  end.

(** Returns the context and the generation requests as the call leaves
    them. *)
Definition update_requests (decoder_state : StarDecoderState)
  : list StarRequest * list StarRequest * result unit :=
  let new_tokens_list := star_new_tokens_host decoder_state in
  let logits := star_logits decoder_state in
  match update_each
          (fun sr => LlmRequestState_eqb (state (base_request sr))
                       GENERATION_IN_PROGRESS)
          new_tokens_list logits (star_context_requests decoder_state) with
  | (ctx, inl e) => (ctx, star_generation_requests decoder_state, Raise e)
  | (ctx, inr _) =>
      let (gen, res) :=
        update_each (fun _ => true) new_tokens_list logits
          (star_generation_requests decoder_state) in
      (ctx, gen, res)
  end.

End Self.
End TorchStarAttentionDecoder.

(** ** Vocabulary of the properties *)

(** The request a matching stop rule leaves behind. *)
Definition terminated (request : LlmRequest) (reason : FinishReason)
  (beam_idx : nat) : LlmRequest :=
  set_finished_reason (set_state request GENERATION_COMPLETE) reason
    beam_idx.

(** A per-request score tensor as the early-stop decoder records it: a
    1-D tensor gets a trailing axis of size one. *)
Definition with_vocab_axis (row : tensor score) : tensor score :=
  if (dim row =? 1)%nat then Tensor (shape row ++ [1%nat]) (data row)
  else row.

(** A request used to exercise the statements: one beam holding [toks],
    end-of-sequence id 2, prompt length 1, at most 3 new tokens, no stop
    words, 3 draft pages. *)
Definition sample_request (st : LlmRequestState) (toks : list Z)
  (drafts : option (list Z)) (want_logits : bool) : LlmRequest :=
  mkLlmRequest st [toks] [NOT_FINISHED] 2 1 3 None drafts 3 0 0 0
    false want_logits false 0 (mkSamplingConfig None None)
    (mkPyResult [] [] []).

(** The fields of a request that a commit never writes. *)
Definition config_of (r : LlmRequest) :=
  (py_end_id r, py_orig_prompt_len r, py_max_new_tokens r,
   py_stop_words_list r, py_draft_tokens r, py_draft_pages_allocated r,
   (py_return_context_logits r, py_return_generation_logits r,
    py_return_log_probs r),
   context_remaining_length r, sampling_config r).

(** The number of leading draft tokens that equal the buffer token of the
    same position, [rows] being the buffer from the request's first row. *)
Fixpoint matching_drafts (draft_tokens rows : list Z) : nat :=
  match draft_tokens, rows with
  | d :: ds, t :: ts => if d =? t then S (matching_drafts ds ts) else 0%nat
  | _, _ => 0%nat
  end.

(** Whether a stop criterion fires for a request whose beam 0 holds
    [committed], the last of them being [new_token]. *)
Definition stop_fires (max_seq_len : Z) (request : LlmRequest)
  (committed : list Z) (new_token : Z) : bool :=
  (new_token =? py_end_id request)
  || TorchDecoder._meet_max_token_stop_criteria max_seq_len request
       (Z.of_nat (length committed))
  || match py_stop_words_list request with
     | Some (stop_words_list, prefix_sum) =>
         TorchDecoder.stop_words_loop stop_words_list committed 0 prefix_sum
     | None => false
     end.

(** Per beam, the tokens of [r'] extend those of [r]. *)
Definition tokens_grow (r r' : LlmRequest) : Prop :=
  forall beam, get_tokens r beam `prefix_of` get_tokens r' beam.

(** What a commit call may do to a request: its token sequences only grow,
    and a request that was complete is left exactly as it was. *)
Definition commit_rel (r r' : LlmRequest) : Prop :=
  tokens_grow r r' /\ (state r = GENERATION_COMPLETE -> r' = r).

(** The rows an extend request owns: one per draft token and one more. *)
Definition extend_width (r : LlmRequest) : nat :=
  (length (default [] (py_draft_tokens r)) + 1)%nat.

(** A request after some commits: grown token sequences, same
    configuration. *)
Definition evolves (r r' : LlmRequest) : Prop :=
  tokens_grow r r' /\ config_of r' = config_of r.

(** A context request with [n] prompt tokens still to prefill. *)
Definition mid_prefill (r : LlmRequest) (n : Z) : LlmRequest :=
  mkLlmRequest (state r) (tokens r) (finished_reasons r) (py_end_id r)
    (py_orig_prompt_len r) (py_max_new_tokens r) (py_stop_words_list r)
    (py_draft_tokens r) (py_draft_pages_allocated r) (py_decoding_iter r)
    (py_num_accepted_draft_tokens r) (py_rewind_len r)
    (py_return_context_logits r) (py_return_generation_logits r)
    (py_return_log_probs r) n (sampling_config r) (py_result r).

(** A score tensor of three rows over a vocabulary of one token. *)
Definition sample_logits : tensor score :=
  Tensor [3%nat; 1%nat] [Fin 1; Fin 2; Fin 3].

(** A tensor holding the token of one row. *)
Definition one_token (t : tensor nat) : Prop :=
  shape t = [1%nat] /\ length (data t) = 1%nat.

(** [n] tokens gathered so far by [_mixed_decode], of one row each. *)
Definition gathered (acc : TorchDecoder.mixed_acc) (n : nat) : Prop :=
  length (fst (fst acc)) = n /\ Forall one_token (fst (fst acc)).

(** The generation requests that [_mixed_decode] decodes. *)
Definition active (requests : list LlmRequest) : list LlmRequest :=
  List.filter
    (fun r => negb (LlmRequestState_eqb (state r) GENERATION_COMPLETE))
    requests.

(** [a <= b] on scores: [b] is not below [a]. *)
Definition score_leb (a b : score) : bool := negb (score_ltb b a).

(** The [k]-th largest score of a row: the last of its [k] largest. *)
Definition kth_largest (k : Z) (row : list score) : score :=
  List.last (topk_row (Z.to_nat k) row) NegInf.

(** A list of scores in descending order. *)
Definition descending (l : list score) : Prop :=
  forall i j a b, (i <= j)%nat -> l !! i = Some a -> l !! j = Some b ->
                  score_leb b a = true.

(** The order of two consecutive entries of a descending sort. *)
Definition desc_pair (a b : score * nat) : Prop :=
  score_leb (fst b) (fst a) = true.

(** A request that asks for no generation logits and no log-probabilities. *)
Definition asks_no_logits (r : LlmRequest) : Prop :=
  py_return_generation_logits r = false /\ py_return_log_probs r = false.

(** The rows of the token buffer that [TorchDecoder.update_requests] walks
    over: one per context request, [1 + len(draft_tokens)] per extend
    request, one per plain generation request. *)
Definition rows_walked (scheduled : ScheduledRequests) : nat :=
  (length (context_requests scheduled)
   + sum_list (map extend_width
                 (List.filter TorchDecoder.is_extend
                    (generation_requests scheduled)))
   + length (List.filter (fun r => negb (TorchDecoder.is_extend r))
               (generation_requests scheduled)))%nat.

(** Nothing is captured for [r]: there are no scores, or [r] asks for
    none. *)
Definition silent (decoder_state : DecoderState) (r : LlmRequest) : Prop :=
  logits decoder_state = None \/ asks_no_logits r.

(** A batch used to exercise the statements: one context request, one
    extend request with a single draft token and one plain generation
    request, with a buffer of four token rows and no scores. *)
Definition sample_decoder_state : DecoderState :=
  mkDecoderState
    (mkScheduledRequests
       [sample_request GENERATION_IN_PROGRESS [7] None false]
       [sample_request GENERATION_IN_PROGRESS [8] (Some [10]) false;
        sample_request GENERATION_IN_PROGRESS [9] None false]
       None)
    None None [50; 10; 51; 52].

(** A row with at least one score that is not [-inf]. *)
Definition has_finite_score (row : list score) : Prop :=
  exists x, Fin x ∈ row.

(** What [torch.sort(row, descending=True)] promises of the positions it
    returns: they are the positions of the row, each once, and the scores
    read in that order descend.  The order among equal scores is free. *)
Definition sorts_descending (sort_indices : list score -> list nat)
  (row : list score) : Prop :=
  Permutation (sort_indices row) (seq 0 (length row))
  /\ descending (in_order row (sort_indices row)).

(** The library keeps its promises on [row]: the sort returns a
    descending order of its positions, and the running sums are as many as
    the scores. *)
Definition top_p_contract (sort_indices : list score -> list nat)
  (cumulative_probs : list score -> list R) (row : list score) : Prop :=
  sorts_descending sort_indices row
  /\ length (cumulative_probs (in_order row (sort_indices row)))
     = length row.

(** The running sums [sums] are within [eps] of the exact running sums of
    the softmax of [sorted_logits]. *)
Definition sums_within (eps : R) (sorted_logits : list score)
  (sums : list R) : Prop :=
  forall j c e, sums !! j = Some c ->
                cumsum (softmax_row sorted_logits) !! j = Some e ->
                (Rabs (c - e) <= eps)%R.

(** Running sums that never decrease. *)
Definition non_decreasing (sums : list R) : Prop :=
  forall i j a b, (i <= j)%nat -> sums !! i = Some a -> sums !! j = Some b ->
                  (a <= b)%R.

(** Whether top-p removes the position of rank [j], given the running
    sums of the ranks: rank 0 is never removed, rank [j >= 1] is removed
    when the running sum up to rank [j - 1] exceeds [top_p]. *)
Definition removed_rank (top_p : R) (sums : list R) (j : nat) : bool :=
  match j with
  | O => false
  | S j' =>
      match sums !! j' with
      | Some c => Rgtb c top_p
      | None => false
      end
  end.

(** The library's stable counterpart of [torch.sort]: one order that
    [sorts_descending] allows. *)
Definition stable_order (row : list score) : list nat :=
  map snd (sort_desc row).

(** The running sums in exact arithmetic. *)
Definition exact_sums (sorted_logits : list score) : list R :=
  cumsum (softmax_row sorted_logits).

(** [j] is the first position of the largest score of [row]. *)
Definition first_max (row : list score) (j : nat) : Prop :=
  exists m, row !! j = Some m
    /\ (forall i x, row !! i = Some x -> score_leb x m = true)
    /\ (forall i x, (i < j)%nat -> row !! i = Some x ->
        score_ltb x m = true).

(** A request that names no sampling policy: greedy search is used. *)
Definition greedy_request (r : LlmRequest) : Prop :=
  (top_p (sampling_config r) = None \/ top_p (sampling_config r) = Some [])
  /\ (top_k (sampling_config r) = None
      \/ top_k (sampling_config r) = Some []).

(** The entry of [state.log_probs] that [_mixed_decode] writes for a
    request: a one-element Python list when the request asks for
    log-probabilities, [None] otherwise. *)
Definition mixed_entry (r : LlmRequest) (e : pyval) : Prop :=
  if py_return_log_probs r then exists t, e = PyList [t] else e = PyNone.

(** What the accumulators of [_mixed_decode] hold after the requests
    [decoded] have been decoded. *)
Definition decoded_inv (model_logits : tensor score)
  (decoded : list LlmRequest) (acc : TorchDecoder.mixed_acc) : Prop :=
  snd acc = length decoded
  /\ length (fst (fst acc)) = length decoded
  /\ Forall one_token (fst (fst acc))
  /\ Forall2 mixed_entry decoded (snd (fst acc))
  /\ ((0 < length decoded)%nat ->
      exists n v, shape model_logits = [n; v]
                  /\ (length decoded <= n)%nat).

(* ================================================================== *)
(** * Part II: properties                                              *)
(* ================================================================== *)

(** ** Basic facts about requests *)

Lemma LlmRequestState_eqb_eq (a b : LlmRequestState) :
  LlmRequestState_eqb a b = true <-> a = b.
Proof. destruct a, b; simpl; split; congruence. Qed.

Lemma LlmRequestState_eqb_neq (a b : LlmRequestState) :
  LlmRequestState_eqb a b = false <-> a <> b.
Proof. destruct a, b; simpl; split; congruence. Qed.

Lemma set_finished_reason_state r reason beam :
  state (set_finished_reason r reason beam) = state r.
Proof. reflexivity. Qed.

Lemma set_finished_reason_lookup r reason beam :
  (beam < length (finished_reasons r))%nat ->
  finished_reasons (set_finished_reason r reason beam) !! beam = Some reason.
Proof. intros H. simpl. by apply list_lookup_insert_eq. Qed.

(** ** Stop criteria *)

Module StopCriteriaFacts.
Import TorchDecoder.

Section Facts.
Variable max_seq_len : Z.

Lemma terminated_state request reason beam_idx :
  state (terminated request reason beam_idx) = GENERATION_COMPLETE.
Proof. reflexivity. Qed.

Lemma terminated_reason request reason beam_idx :
  (beam_idx < length (finished_reasons request))%nat ->
  finished_reasons (terminated request reason beam_idx) !! beam_idx
  = Some reason.
Proof. intros H. unfold terminated. by apply set_finished_reason_lookup. Qed.

Lemma terminated_inj request reason1 reason2 beam_idx :
  (beam_idx < length (finished_reasons request))%nat ->
  terminated request reason1 beam_idx = terminated request reason2 beam_idx ->
  reason1 = reason2.
Proof.
  intros Hlt Heq.
  pose proof (terminated_reason request reason1 beam_idx Hlt) as H1.
  pose proof (terminated_reason request reason2 beam_idx Hlt) as H2.
  rewrite Heq in H1. congruence.
Qed.

Lemma meet_max_token_iff request num_tokens :
  _meet_max_token_stop_criteria max_seq_len request num_tokens = true
  <-> (num_tokens - py_orig_prompt_len request >= py_max_new_tokens request
       \/ num_tokens >= max_seq_len).
Proof.
  unfold _meet_max_token_stop_criteria.
  rewrite orb_true_iff, !Z.geb_le. lia.
Qed.

(** Which rules match is a matter of the stop parameters and of the
    tokens of beam 0 only. *)
Lemma handle_stop_criteria_flag request new_token num_tokens beam_idx :
  snd (_handle_stop_criteria max_seq_len request new_token num_tokens
         beam_idx)
  = (new_token =? py_end_id request)
    || _meet_max_token_stop_criteria max_seq_len request num_tokens
    || _meet_stop_token_criteria request.
Proof.
  unfold _handle_stop_criteria.
  destruct (new_token =? py_end_id request); [reflexivity|].
  destruct (_meet_max_token_stop_criteria _ _ _); [reflexivity|].
  destruct (_meet_stop_token_criteria request); reflexivity.
Qed.

(** The stop-word rule: some phrase of the table, cut out of the flat list
    by two consecutive prefix sums, is no longer than the tokens and equals
    their tail of its length. *)
Lemma stop_words_loop_iff (stop_words_list toks : list Z) :
  forall (prefix_sum : list nat) (offset : nat),
    stop_words_loop stop_words_list toks offset prefix_sum = true
    <-> exists i offset_end,
          prefix_sum !! i = Some offset_end
          /\ let start :=
               match i with
               | O => offset
               | S j => default 0%nat (prefix_sum !! j)
               end in
             let stop_word := py_slice start offset_end stop_words_list in
             (length stop_word <= length toks)%nat
             /\ py_suffix (length stop_word) toks = stop_word.
Proof.
  induction prefix_sum as [|offset_end rest IH]; intros offset;
    cbn [stop_words_loop].
  - split; [discriminate|]. intros (i & e & Hi & _). discriminate.
  - cbv zeta.
    destruct (Nat.ltb_spec (length toks)
                (length (py_slice offset offset_end stop_words_list)))
      as [Hlt|Hge].
    + rewrite IH. split.
      * intros (i & e & Hi & Hm). exists (S i), e. split; [exact Hi|].
        destruct i as [|j]; exact Hm.
      * intros ([|i] & e & Hi & Hm); simpl in Hi.
        -- injection Hi as <-. cbv zeta in Hm. lia.
        -- exists i, e. split; [exact Hi|]. destruct i as [|j]; exact Hm.
    + destruct (bool_decide_reflect
                  (py_suffix
                     (length (py_slice offset offset_end stop_words_list))
                     toks
                   = py_slice offset offset_end stop_words_list))
        as [Heq|Hne].
      * split; [|reflexivity]. intros _. exists 0%nat, offset_end.
        split; [reflexivity|]. cbv zeta. split; [lia|exact Heq].
      * rewrite IH. split.
        -- intros (i & e & Hi & Hm). exists (S i), e. split; [exact Hi|].
           destruct i as [|j]; exact Hm.
        -- intros ([|i] & e & Hi & Hm); simpl in Hi.
           ++ injection Hi as <-. cbv zeta in Hm. tauto.
           ++ exists i, e. split; [exact Hi|]. destruct i as [|j]; exact Hm.
Qed.

End Facts.
End StopCriteriaFacts.

(** C2. The stop criteria are tried in the order end-of-sequence, length,
    stop words.  The first rule that matches completes the request with
    its own finish reason on the given beam and reports a stop; an
    end-of-sequence token gives [END_ID] whatever the other two rules say;
    when no rule matches the request is returned as it was, so a request
    in progress stays in progress. *)
Theorem handle_stop_criteria_first_match
  (max_seq_len : Z) (request : LlmRequest) (new_token num_tokens : Z)
  (beam_idx : nat) :
  let out := TorchDecoder._handle_stop_criteria max_seq_len request new_token
               num_tokens beam_idx in
  let eos := new_token = py_end_id request in
  let len := TorchDecoder._meet_max_token_stop_criteria max_seq_len request
               num_tokens = true in
  let words := TorchDecoder._meet_stop_token_criteria request = true in
  let done_with reason :=
    out = (terminated request reason beam_idx, true)
    /\ state (fst out) = GENERATION_COMPLETE
    /\ ((beam_idx < length (finished_reasons request))%nat ->
        finished_reasons (fst out) !! beam_idx = Some reason) in
  (eos -> done_with END_ID)
  /\ (~ eos -> len -> done_with LENGTH)
  /\ (~ eos -> ~ len -> words -> done_with STOP_WORDS)
  /\ (~ eos -> ~ len -> ~ words ->
      out = (request, false)
      /\ (state request = GENERATION_IN_PROGRESS ->
          state (fst out) = GENERATION_IN_PROGRESS)).
Proof.
  cbv zeta. unfold TorchDecoder._handle_stop_criteria.
  destruct (Z.eqb_spec new_token (py_end_id request)) as [He|He].
  - split; [|repeat split; intros; contradiction].
    intros _. split; [reflexivity|]. split; [reflexivity|].
    intros Hb. by apply StopCriteriaFacts.terminated_reason.
  - split; [intros; contradiction|].
    destruct (TorchDecoder._meet_max_token_stop_criteria max_seq_len request
                num_tokens) eqn:Hlen.
    + split; [|split; intros; congruence].
      intros _ _. split; [reflexivity|]. split; [reflexivity|].
      intros Hb. by apply StopCriteriaFacts.terminated_reason.
    + split; [intros; congruence|].
      destruct (TorchDecoder._meet_stop_token_criteria request) eqn:Hw.
      * split; [|intros; congruence].
        intros _ _ _. split; [reflexivity|]. split; [reflexivity|].
        intros Hb. by apply StopCriteriaFacts.terminated_reason.
      * split; [intros; congruence|].
        intros _ _ _. split; [reflexivity|]. simpl. tauto.
Qed.

(** C4. For a request with [py_max_new_tokens = N] and a committed token
    that is not the end-of-sequence id, the evaluation ends the request
    with reason [LENGTH] exactly when the new token count minus the prompt
    length has reached [N] or the new token count has reached the maximum
    sequence length; when neither holds the reason is not [LENGTH], and
    with no stop word matching the request is left as it was. *)
Theorem length_stop_exactly_at_limit
  (max_seq_len : Z) (request : LlmRequest) (N new_token num_tokens : Z)
  (beam_idx : nat)
  (HN : py_max_new_tokens request = N)
  (Hbeam : (beam_idx < length (finished_reasons request))%nat)
  (Heos : new_token <> py_end_id request) :
  let out := TorchDecoder._handle_stop_criteria max_seq_len request new_token
               num_tokens beam_idx in
  let reached :=
    num_tokens - py_orig_prompt_len request >= N
    \/ num_tokens >= max_seq_len in
  (out = (terminated request LENGTH beam_idx, true) <-> reached)
  /\ (finished_reasons (fst out) !! beam_idx = Some LENGTH
      /\ state (fst out) = GENERATION_COMPLETE /\ snd out = true
      <-> reached)
  /\ (~ reached -> TorchDecoder._meet_stop_token_criteria request = false ->
      out = (request, false)).
Proof.
  cbv zeta. subst N.
  pose proof (StopCriteriaFacts.meet_max_token_iff max_seq_len request
                num_tokens) as Hiff.
  unfold TorchDecoder._handle_stop_criteria.
  destruct (Z.eqb_spec new_token (py_end_id request)) as [He|_];
    [contradiction|].
  destruct (TorchDecoder._meet_max_token_stop_criteria max_seq_len request
              num_tokens) eqn:Hlen.
  - assert (Hr : num_tokens - py_orig_prompt_len request
                 >= py_max_new_tokens request \/ num_tokens >= max_seq_len)
      by (by apply Hiff).
    split; [tauto|]. split; [|tauto].
    split; [tauto|]. intros _.
    split; [by apply StopCriteriaFacts.terminated_reason|]. split; reflexivity.
  - assert (Hr : ~ (num_tokens - py_orig_prompt_len request
                    >= py_max_new_tokens request \/ num_tokens >= max_seq_len))
      by (rewrite <- Hiff; congruence).
    destruct (TorchDecoder._meet_stop_token_criteria request) eqn:Hw.
    + split; [|split].
      * split; [|tauto]. intros Heq.
        apply (f_equal fst) in Heq. simpl in Heq.
        apply StopCriteriaFacts.terminated_inj in Heq; [discriminate|done].
      * split; [|tauto]. intros [Hl _].
        simpl in Hl. rewrite list_lookup_insert_eq in Hl by done.
        discriminate.
      * intros _ ?. discriminate.
    + split; [|split].
      * split; [|tauto]. intros Heq. apply (f_equal snd) in Heq.
        discriminate.
      * split; [|tauto]. intros (_ & _ & ?). discriminate.
      * reflexivity.
Qed.

Lemma length_stop_exactly_at_limit_witness :
  let request :=
    sample_request GENERATION_IN_PROGRESS [5; 6; 7; 8] None false in
  py_max_new_tokens request = 3
  /\ (0 < length (finished_reasons request))%nat
  /\ 8 <> py_end_id request
  /\ (TorchDecoder._handle_stop_criteria 100 request 8 4 0
      = (terminated request LENGTH 0, true)
      <-> 4 - py_orig_prompt_len request >= 3 \/ 4 >= 100).
Proof.
  cbv zeta.
  split; [reflexivity|]. split; [simpl; lia|]. split; [simpl; lia|].
  apply (length_stop_exactly_at_limit 100
           (sample_request GENERATION_IN_PROGRESS [5; 6; 7; 8] None false)
           3 8 4 0); [reflexivity | simpl; lia | simpl; lia].
Defined.

(** ** The early-stop decoder *)

Module EarlyStopFacts.
Import EarlyStopDecoder.

Lemma unsqueeze_last_1d (row : tensor score) :
  (if (dim row =? 1)%nat then unsqueeze (-1) row else Ok row)
  = Ok (with_vocab_axis row).
Proof.
  unfold with_vocab_axis, unsqueeze, dim.
  destruct row as [[|a [|b sh]] d]; reflexivity.
Qed.

Lemma update_one_ok (t : tensor score) (idx : nat) (request : LlmRequest)
  (row : tensor score) :
  index0 t idx = Ok row ->
  update_one (Some t) idx request
  = (append_context_logits (terminated request LENGTH 0)
       (with_vocab_axis row), Ok tt).
Proof.
  intros Hrow. unfold update_one. rewrite Hrow. unfold Ok at 1.
  rewrite unsqueeze_last_1d. reflexivity.
Qed.

Lemma index0_in_range {A : Type} (t : tensor A) (n : nat) (s : list nat)
  (i : nat) :
  shape t = n :: s -> (i < n)%nat -> exists row, index0 t i = Ok row.
Proof.
  intros Hs Hi. unfold index0. rewrite Hs.
  apply Nat.ltb_lt in Hi. rewrite Hi. eauto.
Qed.

Lemma update_loop_ok (t : tensor score) (n : nat) (s : list nat) :
  shape t = n :: s ->
  forall (requests : list LlmRequest) (idx : nat),
    (idx + length requests <= n)%nat ->
    exists out,
      update_loop (Some t) idx requests = (out, Ok tt)
      /\ length out = length requests
      /\ forall i request, requests !! i = Some request ->
           exists row,
             index0 t (idx + i) = Ok row
             /\ out !! i
                = Some (append_context_logits (terminated request LENGTH 0)
                          (with_vocab_axis row)).
Proof.
  intros Hs. induction requests as [|request rest IH]; intros idx Hlen.
  - exists []. split; [reflexivity|]. split; [reflexivity|].
    intros i r Hi. discriminate.
  - simpl in Hlen.
    destruct (index0_in_range t n s idx Hs) as [row Hrow]; [lia|].
    destruct (IH (S idx)) as (out & Hout & Hl & Hall); [lia|].
    exists (append_context_logits (terminated request LENGTH 0)
              (with_vocab_axis row) :: out).
    split; [|split].
    + cbn [update_loop]. rewrite (update_one_ok _ _ _ _ Hrow).
      unfold Ok at 1. rewrite Hout. reflexivity.
    + simpl. by rewrite Hl.
    + intros [|i] r Hi; simpl in Hi.
      * injection Hi as <-. exists row. rewrite Nat.add_0_r. done.
      * destruct (Hall i r Hi) as (row' & Hr' & Ho').
        exists row'. rewrite <- Nat.add_succ_comm. done.
Qed.

End EarlyStopFacts.

(** C5. The early-stop commit raises before touching any request whenever
    the batch has a generation request.  With none, and a score tensor
    holding a row for every context request, it completes: every context
    request ends in [GENERATION_COMPLETE] with reason [LENGTH] on beam 0,
    and its row of the score tensor, with a trailing axis added when the
    row is 1-D, is appended to its recorded context logits. *)
Theorem early_stop_update_requests (decoder_state : DecoderState) :
  let scheduled := scheduled_requests decoder_state in
  let out := EarlyStopDecoder.update_requests decoder_state in
  (generation_requests scheduled <> [] ->
   out = (context_requests scheduled, Raise AssertionError))
  /\ (generation_requests scheduled = [] ->
      forall (t : tensor score) (n : nat) (s : list nat),
        logits decoder_state = Some t ->
        shape t = n :: s ->
        (length (context_requests scheduled) <= n)%nat ->
        snd out = Ok tt
        /\ length (fst out) = length (context_requests scheduled)
        /\ forall i request,
             context_requests scheduled !! i = Some request ->
             exists request' row,
               fst out !! i = Some request'
               /\ index0 t i = Ok row
               /\ state request' = GENERATION_COMPLETE
               /\ finished_reasons request'
                  = <[0%nat := LENGTH]> (finished_reasons request)
               /\ context_logits (py_result request')
                  = context_logits (py_result request)
                    ++ [with_vocab_axis row]
               /\ tokens request' = tokens request).
Proof.
  cbv zeta. unfold EarlyStopDecoder.update_requests. split.
  - intros Hne. destruct (generation_requests _); [contradiction|reflexivity].
  - intros Hnil t n s Ht Hs Hlen. rewrite Hnil, Ht.
    destruct (EarlyStopFacts.update_loop_ok t n s Hs
                (context_requests (scheduled_requests decoder_state)) 0%nat)
      as (out & Hout & Hl & Hall); [lia|].
    rewrite Hout. simpl. split; [reflexivity|]. split; [exact Hl|].
    intros i request Hi. destruct (Hall i request Hi) as (row & Hrow & Ho).
    exists (append_context_logits (terminated request LENGTH 0)
              (with_vocab_axis row)), row.
    repeat split; done.
Qed.

(** ** The commit step of the simple batched decoder *)

Ltac break_match :=
  match goal with
  | |- context [match ?x with _ => _ end] => destruct x eqn:?
  end.

Module UpdateFacts.
Import TorchDecoder.

Section Facts.
Variable max_seq_len : Z.
Variable decoder_state : DecoderState.

(** *** What each helper leaves untouched *)

Lemma add_new_token_config r tok b :
  config_of (fst (add_new_token r tok b)) = config_of r.
Proof. reflexivity. Qed.

Lemma add_new_token_beam0 r tok cur :
  tokens r !! 0%nat = Some cur ->
  tokens (fst (add_new_token r tok 0)) !! 0%nat = Some (cur ++ [tok])
  /\ snd (add_new_token r tok 0) = Z.of_nat (length (cur ++ [tok])).
Proof.
  intros H. unfold add_new_token, get_tokens. simpl.
  rewrite list_lookup_alter_eq, H. simpl. done.
Qed.

Lemma add_new_token_grow r tok b : tokens_grow r (fst (add_new_token r tok b)).
Proof.
  intros beam. unfold add_new_token, get_tokens. simpl.
  destruct (decide (b = beam)) as [->|Hne].
  - rewrite list_lookup_alter_eq. destruct (tokens r !! beam); simpl.
    + by apply prefix_app_r.
    + done.
  - by rewrite list_lookup_alter_ne.
Qed.

Lemma handle_stop_criteria_frame r tok n b :
  let r' := fst (_handle_stop_criteria max_seq_len r tok n b) in
  config_of r' = config_of r /\ tokens r' = tokens r
  /\ py_result r' = py_result r /\ py_decoding_iter r' = py_decoding_iter r.
Proof.
  cbv zeta. unfold _handle_stop_criteria.
  repeat break_match; simpl; done.
Qed.

Lemma handle_stop_criteria_state r tok n b :
  let out := _handle_stop_criteria max_seq_len r tok n b in
  (snd out = true -> state (fst out) = GENERATION_COMPLETE)
  /\ (snd out = false -> fst out = r).
Proof.
  cbv zeta. unfold _handle_stop_criteria.
  repeat break_match; simpl; split; congruence.
Qed.

Lemma handle_logits_frame token_idx request_idx r count :
  let r' := fst (handle_logits decoder_state token_idx request_idx r count) in
  config_of r' = config_of r /\ tokens r' = tokens r /\ state r' = state r
  /\ finished_reasons r' = finished_reasons r
  /\ py_decoding_iter r' = py_decoding_iter r
  /\ py_num_accepted_draft_tokens r' = py_num_accepted_draft_tokens r
  /\ py_rewind_len r' = py_rewind_len r.
Proof.
  cbv zeta. unfold handle_logits.
  repeat break_match; simpl; done.
Qed.

Lemma handle_logits_silent token_idx request_idx r count :
  logits decoder_state = None
  \/ (py_return_generation_logits r = false
      /\ py_return_log_probs r = false) ->
  handle_logits decoder_state token_idx request_idx r count = (r, Ok tt).
Proof.
  unfold handle_logits. intros [->|[-> ->]]; [reflexivity|].
  destruct (logits decoder_state); reflexivity.
Qed.

(** The flag of the stop criteria, in terms of the request before the
    commits and of the tokens now on beam 0. *)
Lemma handle_stop_criteria_fires r0 r tok committed b :
  config_of r = config_of r0 ->
  tokens r !! 0%nat = Some committed ->
  snd (_handle_stop_criteria max_seq_len r tok
         (Z.of_nat (length committed)) b)
  = stop_fires max_seq_len r0 committed tok.
Proof.
  intros Hc Ht. rewrite StopCriteriaFacts.handle_stop_criteria_flag.
  unfold stop_fires, _meet_stop_token_criteria,
    _meet_max_token_stop_criteria, get_tokens.
  unfold config_of in Hc. rewrite Ht. simpl.
  injection Hc as -> -> -> -> _ _ _ _ _ _ _. reflexivity.
Qed.

(** *** The draft loop *)

(** [accept_drafts] when the buffer holds [new_token] at the current
    position followed by at least as many tokens as there are drafts. *)
Lemma accept_drafts_spec (token_idx : nat) (r0 : LlmRequest) :
  forall (drafts : list Z) (r : LlmRequest) (new_token : Z) (a : nat)
         (cur later : list Z),
    config_of r = config_of r0 ->
    tokens r !! 0%nat = Some cur ->
    drop (token_idx + a) (new_tokens_host decoder_state)
    = new_token :: later ->
    (length drafts <= length later)%nat ->
    exists (m : nat) (r' : LlmRequest),
      accept_drafts max_seq_len decoder_state token_idx drafts r new_token a
      = (r', Ok (a + m)%nat)
      /\ (m <= matching_drafts drafts (new_token :: later))%nat
      /\ (m <= length later)%nat
      /\ tokens r' !! 0%nat = Some (cur ++ take m later)
      /\ config_of r' = config_of r0
      /\ py_result r' = py_result r
      /\ py_decoding_iter r' = py_decoding_iter r
      /\ (forall i tok, (S i < m)%nat -> later !! i = Some tok ->
          stop_fires max_seq_len r0 (cur ++ take (S i) later) tok = false)
      /\ (m = matching_drafts drafts (new_token :: later)
          \/ exists i tok,
               m = S i /\ later !! i = Some tok
               /\ stop_fires max_seq_len r0 (cur ++ take (S i) later) tok
                  = true).
Proof.
  induction drafts as [|d rest IH];
    intros r new_token a cur later Hc Ht Hdrop Hlen.
  - exists 0%nat, r. simpl. rewrite Nat.add_0_r, app_nil_r.
    repeat split; first [done | lia | intros; lia | by left].
  - cbn [accept_drafts matching_drafts].
    destruct (Z.eqb_spec d new_token) as [->|Hne]; cbn [negb].
    2:{ exists 0%nat, r. rewrite Nat.add_0_r. simpl. rewrite app_nil_r.
        repeat split; first [done | lia | intros; lia | by left]. }
    destruct later as [|nt later']; [simpl in Hlen; lia|].
    assert (Hread : new_tokens_list decoder_state !! (token_idx + S a)%nat
                    = Some nt).
    { unfold new_tokens_list.
      replace (token_idx + S a)%nat with (token_idx + a + 1)%nat by lia.
      rewrite <- lookup_drop, Hdrop. reflexivity. }
    rewrite Hread.
    destruct (add_new_token_beam0 r nt cur Ht) as [Ht1 Hn1].
    pose proof (add_new_token_config r nt 0) as Hc1.
    destruct (add_new_token r nt beam_idx) as [r1 n1] eqn:Hadd.
    unfold beam_idx in Hadd. rewrite Hadd in Ht1, Hn1, Hc1.
    simpl in Ht1, Hn1, Hc1. subst n1.
    pose proof (handle_stop_criteria_fires r0 r1 nt (cur ++ [nt]) beam_idx
                  (eq_trans Hc1 Hc) Ht1) as Hflag.
    pose proof (handle_stop_criteria_frame r1 nt
                  (Z.of_nat (length (cur ++ [nt]))) beam_idx) as Hfr.
    pose proof (handle_stop_criteria_state r1 nt
                  (Z.of_nat (length (cur ++ [nt]))) beam_idx) as Hst.
    cbv zeta in Hfr, Hst.
    destruct (_handle_stop_criteria max_seq_len r1 nt
                (Z.of_nat (length (cur ++ [nt]))) beam_idx)
      as [r2 stop] eqn:Hh.
    simpl in Hflag, Hfr, Hst.
    destruct Hfr as (Hc2 & Ht2 & Hres2 & Hit2).
    assert (Hres1 : py_result r1 = py_result r)
      by (apply (f_equal fst) in Hadd; simpl in Hadd; by subst r1).
    assert (Hit1 : py_decoding_iter r1 = py_decoding_iter r)
      by (apply (f_equal fst) in Hadd; simpl in Hadd; by subst r1).
    destruct stop.
    + exists 1%nat, r2. replace (a + 1)%nat with (S a) by lia.
      split; [reflexivity|]. simpl.
      split; [lia|]. split; [lia|].
      split; [by rewrite Ht2, Ht1|].
      split; [congruence|]. split; [congruence|]. split; [congruence|].
      split; [intros; lia|].
      right. exists 0%nat, nt. simpl. by rewrite take_0, <- Hflag.
    + assert (Hdrop' : drop (token_idx + S a) (new_tokens_host decoder_state)
                       = nt :: later').
      { replace (token_idx + S a)%nat with (token_idx + a + 1)%nat by lia.
        rewrite <- drop_drop, Hdrop. reflexivity. }
      destruct Hst as [_ Hsame]. specialize (Hsame eq_refl). subst r2.
      destruct (IH r1 nt (S a) (cur ++ [nt]) later'
                  (eq_trans Hc1 Hc) Ht1 Hdrop')
        as (m & r' & Hrun & Hm & Hml & Htok & Hcfg & Hres & Hit & Hno & Hend).
      { simpl in Hlen. lia. }
      exists (S m), r'. replace (a + S m)%nat with (S a + m)%nat by lia.
      split; [exact Hrun|]. simpl.
      split; [lia|]. split; [lia|].
      split; [by rewrite Htok, <- app_assoc|].
      split; [exact Hcfg|]. split; [congruence|]. split; [congruence|].
      split.
      * intros [|i] tok Hi Hl; simpl in Hl.
        -- injection Hl as <-. simpl. by rewrite take_0, <- Hflag.
        -- simpl. rewrite cons_middle, app_assoc. apply Hno; [lia|done].
      * destruct Hend as [->|(i & tok & -> & Hl & Hf)]; [by left|].
        right. exists (S i), tok. simpl. rewrite cons_middle, app_assoc. done.
Qed.

(** The guarded body of the extend loop, for a request whose rows are
    all in the buffer. *)
Lemma extend_commit_spec (token_idx request_idx : nat)
  (request : LlmRequest) (drafts toks : list Z) (first : Z)
  (later : list Z) :
  py_draft_tokens request = Some drafts ->
  tokens request !! 0%nat = Some toks ->
  drop token_idx (new_tokens_host decoder_state) = first :: later ->
  (length drafts <= length later)%nat ->
  exists (m : nat) (r3 : LlmRequest),
    (m <= matching_drafts drafts (first :: later))%nat
    /\ (m <= length later)%nat
    /\ tokens r3 !! 0%nat = Some ((toks ++ [first]) ++ take m later)
    /\ config_of r3 = config_of request
    /\ py_result r3 = py_result request
    /\ (forall i tok, (S i < m)%nat -> later !! i = Some tok ->
        stop_fires max_seq_len request
          ((toks ++ [first]) ++ take (S i) later) tok = false)
    /\ (m = matching_drafts drafts (first :: later)
        \/ exists i tok,
             m = S i /\ later !! i = Some tok
             /\ stop_fires max_seq_len request
                  ((toks ++ [first]) ++ take (S i) later) tok = true)
    /\ extend_commit max_seq_len decoder_state token_idx request_idx request
       = match handle_logits decoder_state token_idx request_idx r3 m with
         | (r4, inl e) => (r4, Raise e)
         | (r4, inr _) =>
             (set_py_rewind_len
                (set_py_num_accepted_draft_tokens
                   (set_py_decoding_iter r4 (py_decoding_iter r4 + 1))
                   (Z.of_nat m))
                (py_draft_pages_allocated r4 - Z.of_nat m), Ok tt)
         end.
Proof.
  intros Hd Ht Hdrop Hlen. unfold extend_commit.
  assert (Hread : new_tokens_list decoder_state !! token_idx = Some first).
  { unfold new_tokens_list.
    rewrite <- (Nat.add_0_r token_idx), <- lookup_drop, Hdrop. reflexivity. }
  rewrite Hread.
  destruct (add_new_token_beam0 request first toks Ht) as [Ht1 Hn1].
  pose proof (add_new_token_config request first 0) as Hc1.
  destruct (add_new_token request first beam_idx) as [r1 n1] eqn:Hadd.
  unfold beam_idx in Hadd. rewrite Hadd in Ht1, Hn1, Hc1.
  simpl in Ht1, Hn1, Hc1. subst n1.
  pose proof (handle_stop_criteria_frame r1 first
                (Z.of_nat (length (toks ++ [first]))) beam_idx) as Hfr.
  cbv zeta in Hfr.
  destruct (_handle_stop_criteria max_seq_len r1 first
              (Z.of_nat (length (toks ++ [first]))) beam_idx)
    as [r2 stop] eqn:Hh.
  simpl in Hfr. destruct Hfr as (Hc2 & Ht2 & Hres2 & _).
  assert (Hres1 : py_result r1 = py_result request)
    by (apply (f_equal fst) in Hadd; simpl in Hadd; by subst r1).
  assert (Hcfg2 : config_of r2 = config_of request) by congruence.
  assert (Hd2 : py_draft_tokens r2 = Some drafts).
  { unfold config_of in Hcfg2. injection Hcfg2 as _ _ _ _ -> _ _ _ _ _ _.
    exact Hd. }
  rewrite Hd2.
  destruct (accept_drafts_spec token_idx request drafts r2 first 0
              (toks ++ [first]) later Hcfg2)
    as (m & r3 & Hrun & Hm & Hml & Htok & Hcfg & Hres3 & _ & Hno & Hend);
    [by rewrite Ht2 | by rewrite Nat.add_0_r | exact Hlen |].
  exists m, r3. rewrite Hrun. simpl.
  split; [done|]. split; [done|]. split; [done|]. split; [done|].
  split; [congruence|].
  repeat (split; [done|]).
  destruct (handle_logits decoder_state token_idx request_idx r3 m)
    as [r4 [e|[]]]; reflexivity.
Qed.

Lemma lookup_drop_cons {A : Type} (l : list A) (n : nat) (x : A)
  (later : list A) (i : nat) :
  drop n l = x :: later -> drop n l !! S i = later !! i.
Proof. intros ->. reflexivity. Qed.

Lemma drop_nonempty {A : Type} (l : list A) (n : nat) :
  (n < length l)%nat -> exists x later, drop n l = x :: later.
Proof.
  intros H. destruct (drop n l) as [|x later] eqn:E; [|eauto].
  apply (f_equal length) in E. rewrite length_drop in E. simpl in E. lia.
Qed.

(** *** Token sequences only grow *)

Lemma tokens_grow_refl r : tokens_grow r r.
Proof. intros beam. done. Qed.

Lemma tokens_grow_trans r1 r2 r3 :
  tokens_grow r1 r2 -> tokens_grow r2 r3 -> tokens_grow r1 r3.
Proof.
  intros H1 H2 beam. specialize (H1 beam). specialize (H2 beam).
  by etrans.
Qed.

Lemma tokens_grow_eq r r' : tokens r' = tokens r -> tokens_grow r r'.
Proof. intros H beam. unfold get_tokens. by rewrite H. Qed.

Lemma evolves_refl r : evolves r r.
Proof. split; [apply tokens_grow_refl|done]. Qed.

Lemma evolves_trans r1 r2 r3 : evolves r1 r2 -> evolves r2 r3 -> evolves r1 r3.
Proof.
  intros [H1 C1] [H2 C2].
  split; [by eapply tokens_grow_trans|congruence].
Qed.

Lemma add_new_token_evolves r tok b : evolves r (fst (add_new_token r tok b)).
Proof. split; [apply add_new_token_grow|reflexivity]. Qed.

Lemma handle_stop_criteria_evolves r tok n b :
  evolves r (fst (_handle_stop_criteria max_seq_len r tok n b)).
Proof.
  destruct (handle_stop_criteria_frame r tok n b) as (Hc & Ht & _).
  split; [by apply tokens_grow_eq|done].
Qed.

Lemma handle_logits_evolves token_idx request_idx r count :
  evolves r
    (fst (handle_logits decoder_state token_idx request_idx r count)).
Proof.
  destruct (handle_logits_frame token_idx request_idx r count)
    as (Hc & Ht & _).
  split; [by apply tokens_grow_eq|done].
Qed.

Lemma set_py_decoding_iter_evolves r n : evolves r (set_py_decoding_iter r n).
Proof. split; [by apply tokens_grow_eq|done]. Qed.

Lemma set_py_num_accepted_evolves r n :
  evolves r (set_py_num_accepted_draft_tokens r n).
Proof. split; [by apply tokens_grow_eq|done]. Qed.

Lemma set_py_rewind_len_evolves r n : evolves r (set_py_rewind_len r n).
Proof. split; [by apply tokens_grow_eq|done]. Qed.

Create HintDb evolves.

Hint Resolve evolves_refl add_new_token_evolves handle_stop_criteria_evolves
  handle_logits_evolves set_py_decoding_iter_evolves
  set_py_num_accepted_evolves set_py_rewind_len_evolves : evolves.

Lemma commit_row_evolves token_idx request_idx r :
  evolves r (fst (commit_row max_seq_len decoder_state token_idx
                    request_idx r)).
Proof.
  unfold commit_row.
  destruct (new_tokens_list decoder_state !! token_idx) as [tok|];
    [|apply evolves_refl].
  pose proof (add_new_token_evolves r tok beam_idx) as H1.
  destruct (add_new_token r tok beam_idx) as [r1 n1]. simpl in H1.
  pose proof (handle_stop_criteria_evolves r1 tok n1 beam_idx) as H2.
  destruct (_handle_stop_criteria max_seq_len r1 tok n1 beam_idx)
    as [r2 stop]. simpl in H2.
  pose proof (handle_logits_evolves token_idx request_idx r2 1) as H3.
  destruct (handle_logits decoder_state token_idx request_idx r2 1)
    as [r3 [e|u]]; simpl in *;
    eauto 6 using evolves_trans with evolves.
Qed.

Lemma accept_drafts_evolves token_idx :
  forall drafts r new_token a,
    evolves r (fst (accept_drafts max_seq_len decoder_state token_idx
                      drafts r new_token a)).
Proof.
  induction drafts as [|d rest IH]; intros r new_token a;
    cbn [accept_drafts]; [apply evolves_refl|].
  destruct (negb (d =? new_token)); [apply evolves_refl|].
  destruct (new_tokens_list decoder_state !! (token_idx + S a)%nat)
    as [tok|]; [|apply evolves_refl].
  pose proof (add_new_token_evolves r tok beam_idx) as H1.
  destruct (add_new_token r tok beam_idx) as [r1 n1]. simpl in H1.
  pose proof (handle_stop_criteria_evolves r1 tok n1 beam_idx) as H2.
  destruct (_handle_stop_criteria max_seq_len r1 tok n1 beam_idx)
    as [r2 [|]]; simpl in H2.
  - simpl. eauto using evolves_trans.
  - eauto using evolves_trans.
Qed.

Lemma extend_commit_evolves token_idx request_idx r :
  evolves r (fst (extend_commit max_seq_len decoder_state token_idx
                    request_idx r)).
Proof.
  unfold extend_commit.
  destruct (new_tokens_list decoder_state !! token_idx) as [tok|];
    [|apply evolves_refl].
  pose proof (add_new_token_evolves r tok beam_idx) as H1.
  destruct (add_new_token r tok beam_idx) as [r1 n1]. simpl in H1.
  pose proof (handle_stop_criteria_evolves r1 tok n1 beam_idx) as H2.
  destruct (_handle_stop_criteria max_seq_len r1 tok n1 beam_idx)
    as [r2 stop]. simpl in H2.
  destruct (py_draft_tokens r2) as [drafts|];
    [|simpl; eauto using evolves_trans].
  pose proof (accept_drafts_evolves token_idx drafts r2 tok 0) as H3.
  destruct (accept_drafts max_seq_len decoder_state token_idx drafts r2
              tok 0) as [r3 [e|m]]; simpl in H3;
    [simpl; eauto using evolves_trans|].
  pose proof (handle_logits_evolves token_idx request_idx r3 m) as H4.
  destruct (handle_logits decoder_state token_idx request_idx r3 m)
    as [r4 [e|u]]; simpl in *;
    eauto 8 using evolves_trans with evolves.
Qed.

Lemma commit_row_grow token_idx request_idx r :
  tokens_grow r (fst (commit_row max_seq_len decoder_state token_idx
                        request_idx r)).
Proof. apply commit_row_evolves. Qed.

Lemma extend_commit_grow token_idx request_idx r :
  tokens_grow r (fst (extend_commit max_seq_len decoder_state token_idx
                        request_idx r)).
Proof. apply extend_commit_evolves. Qed.

Lemma evolves_draft_tokens r r' :
  evolves r r' -> py_draft_tokens r' = py_draft_tokens r.
Proof.
  intros [_ H]. unfold config_of in H.
  by injection H as _ _ _ _ -> _ _ _ _ _ _.
Qed.

(** *** Each loop body respects completed requests *)

Lemma context_step_rel idx r :
  commit_rel r (fst (context_step max_seq_len decoder_state idx r)).
Proof.
  unfold context_step. destruct idx as [request_idx token_idx].
  destruct (negb (get_context_remaining_length r =? 0));
    [split; [apply tokens_grow_refl|done]|].
  destruct (LlmRequestState_eqb (state r) GENERATION_COMPLETE) eqn:E;
    cbn [negb].
  - split; [apply tokens_grow_refl|done].
  - apply LlmRequestState_eqb_neq in E.
    pose proof (commit_row_grow token_idx request_idx r) as H.
    destruct (commit_row max_seq_len decoder_state token_idx request_idx r)
      as [r' [e|u]]; simpl in *; split; done.
Qed.

Lemma generation_step_rel idx r :
  commit_rel r (fst (generation_step max_seq_len decoder_state idx r)).
Proof.
  unfold generation_step. destruct idx as [request_idx token_idx].
  destruct (LlmRequestState_eqb (state r) GENERATION_COMPLETE) eqn:E;
    cbn [negb].
  - split; [apply tokens_grow_refl|done].
  - apply LlmRequestState_eqb_neq in E.
    pose proof (commit_row_grow token_idx request_idx r) as H.
    destruct (commit_row max_seq_len decoder_state token_idx request_idx r)
      as [r' [e|u]]; simpl in *; split; done.
Qed.

Lemma extend_step_rel idx r :
  commit_rel r (fst (extend_step max_seq_len decoder_state idx r)).
Proof.
  unfold extend_step. destruct idx as [request_idx token_idx].
  destruct (LlmRequestState_eqb (state r) GENERATION_COMPLETE) eqn:E;
    cbn [negb].
  - destruct (py_draft_tokens r); split; simpl;
      first [apply tokens_grow_refl | done].
  - apply LlmRequestState_eqb_neq in E.
    pose proof (extend_commit_grow token_idx request_idx r) as H.
    destruct (extend_commit max_seq_len decoder_state token_idx
                request_idx r) as [r' [e|u]]; simpl in *;
      [split; done|].
    destruct (py_draft_tokens r'); split; done.
Qed.

Lemma for_each_rel
  (step : nat * nat -> LlmRequest -> LlmRequest * result (nat * nat)) :
  (forall idx r, commit_rel r (fst (step idx r))) ->
  forall requests idx,
    Forall2 commit_rel requests (fst (for_each step idx requests)).
Proof.
  intros Hstep. induction requests as [|r rest IH]; intros idx;
    cbn [for_each]; [constructor|].
  pose proof (Hstep idx r) as Hr.
  destruct (step idx r) as [r' [e|idx']]; simpl in Hr.
  - simpl. constructor; [exact Hr|].
    apply Forall2_same_length_lookup_2; [done|].
    intros i x y Hx Hy. assert (x = y) as -> by congruence.
    split; [apply tokens_grow_refl|done].
  - specialize (IH idx').
    destruct (for_each step idx' rest) as [rest' res]. simpl in *.
    by constructor.
Qed.

Lemma commit_rel_refl r : commit_rel r r.
Proof. split; [apply tokens_grow_refl|done]. Qed.

Lemma Forall2_commit_rel_refl l : Forall2 commit_rel l l.
Proof. induction l; constructor; auto using commit_rel_refl. Qed.

(** *** The counters *)

Lemma context_step_counters idx r r' idx' :
  context_step max_seq_len decoder_state idx r = (r', Ok idx') ->
  idx' = (S (fst idx), (snd idx + 1)%nat).
Proof.
  unfold context_step. destruct idx as [ri ti]. cbn [fst snd].
  rewrite Nat.add_1_r.
  destruct (negb (get_context_remaining_length r =? 0));
    [intros H; by injection H as _ <-|].
  destruct (negb (LlmRequestState_eqb (state r) GENERATION_COMPLETE));
    [|intros H; by injection H as _ <-].
  destruct (commit_row max_seq_len decoder_state ti ri r) as [r1 [e|u]];
    intros H; [discriminate|by injection H as _ <-].
Qed.

Lemma generation_step_counters idx r r' idx' :
  generation_step max_seq_len decoder_state idx r = (r', Ok idx') ->
  idx' = (S (fst idx), (snd idx + 1)%nat).
Proof.
  unfold generation_step. destruct idx as [ri ti]. cbn [fst snd].
  rewrite Nat.add_1_r.
  destruct (negb (LlmRequestState_eqb (state r) GENERATION_COMPLETE));
    [|intros H; by injection H as _ <-].
  destruct (commit_row max_seq_len decoder_state ti ri r) as [r1 [e|u]];
    intros H; [discriminate|by injection H as _ <-].
Qed.

Lemma extend_step_counters idx r r' idx' :
  extend_step max_seq_len decoder_state idx r = (r', Ok idx') ->
  idx' = (S (fst idx), (snd idx + extend_width r)%nat).
Proof.
  unfold extend_step, extend_width. destruct idx as [ri ti]. simpl.
  destruct (negb (LlmRequestState_eqb (state r) GENERATION_COMPLETE)).
  - pose proof (extend_commit_evolves ti ri r) as Hev.
    apply evolves_draft_tokens in Hev.
    destruct (extend_commit max_seq_len decoder_state ti ri r)
      as [r1 [e|u]]; simpl in Hev; [intros H; discriminate|].
    rewrite Hev. destruct (py_draft_tokens r); intros H;
      [by injection H as _ <-|discriminate].
  - destruct (py_draft_tokens r); intros H;
      [by injection H as _ <-|discriminate].
Qed.

Lemma for_each_counters
  (step : nat * nat -> LlmRequest -> LlmRequest * result (nat * nat))
  (width : LlmRequest -> nat) :
  (forall idx r r' idx', step idx r = (r', Ok idx') ->
                         idx' = (S (fst idx), (snd idx + width r)%nat)) ->
  forall requests idx out idx',
    for_each step idx requests = (out, Ok idx') ->
    idx' = ((fst idx + length requests)%nat,
            (snd idx + sum_list (map width requests))%nat).
Proof.
  intros Hstep. induction requests as [|r rest IH]; intros idx out idx';
    cbn [for_each].
  - intros H. injection H as _ <-. simpl. rewrite !Nat.add_0_r.
    by destruct idx.
  - destruct (step idx r) as [r' [e|idx1]] eqn:E; [intros H; discriminate|].
    apply Hstep in E. subst idx1.
    destruct (for_each step _ rest) as [rest' res] eqn:E2.
    intros H. injection H as _ ->. apply IH in E2. subst idx'. simpl.
    f_equal; lia.
Qed.

(** *** Captured logits *)

(** What [handle_logits] appends for a request that asks for logits or
    log-probabilities: the rows [token_idx, token_idx + count) of the
    score tensor, also when the log-probability part raises. *)
Lemma handle_logits_captures token_idx request_idx r count all_logits sl :
  logits decoder_state = Some all_logits ->
  py_return_generation_logits r || py_return_log_probs r = true ->
  slice0 all_logits token_idx (token_idx + count) = Ok sl ->
  generation_logits
    (py_result (fst (handle_logits decoder_state token_idx request_idx r
                       count)))
  = generation_logits (py_result r) ++ [sl].
Proof.
  intros Hl Hf Hs. unfold handle_logits. rewrite Hl.
  destruct (py_return_generation_logits r) eqn:Eg,
           (py_return_log_probs r) eqn:El; try discriminate;
    cbn [negb andb]; rewrite Hs; unfold Ok; cbn [py_return_log_probs
      append_generation_logits set_py_result negb];
    try rewrite El; cbn [negb]; try reflexivity;
    repeat break_match; reflexivity.
Qed.

Lemma slice0_shape {A : Type} (t : tensor A) (n : nat) (s : list nat)
  (a b : nat) :
  shape t = n :: s ->
  exists sl, slice0 t a b = Ok sl
             /\ shape sl = (Nat.min b n - Nat.min a n)%nat :: s.
Proof. intros H. unfold slice0. rewrite H. eauto. Qed.

End Facts.
End UpdateFacts.


(** The example of the specification: drafts [[a; b; c]] against the rows
    [[a; b; x; y]] accept two drafts and commit [a], [b] and [x]. *)
Example extend_request_acceptance_example :
  let request :=
    sample_request GENERATION_IN_PROGRESS [] (Some [10; 11; 12]) false in
  let decoder_state :=
    mkDecoderState (mkScheduledRequests [] [request] None) None None
      [10; 11; 50; 51] in
  let out := TorchDecoder.extend_step 100 decoder_state (0, 0)%nat request in
  snd out = Ok (1, 4)%nat
  /\ tokens (fst out) = [[10; 11; 50]]
  /\ py_num_accepted_draft_tokens (fst out) = 2
  /\ py_rewind_len (fst out) = 1.
Proof. vm_compute. repeat split. Qed.



(** C6. A request stops growing once it is complete: not in the extend
    path.  The stop criteria complete the request below on its first
    committed token, the end-of-sequence id, and their answer is dropped;
    the draft loop then goes on in the same call, commits two more tokens
    to the complete request and overwrites its finish reason, until the
    stop criteria of the loop, whose answer is read, end it. *)
Lemma extend_commit_appends_after_completion :
  let request :=
    sample_request GENERATION_IN_PROGRESS [7] (Some [2; 5]) false in
  let decoder_state :=
    mkDecoderState (mkScheduledRequests [] [request] None) None None
      [2; 5; 9] in
  let after_first :=
    fst (TorchDecoder._handle_stop_criteria 100
           (fst (add_new_token request 2 0)) 2 2 0) in
  let u := TorchDecoder.update_requests 100 decoder_state in
  tokens after_first = [[7; 2]]
  /\ state after_first = GENERATION_COMPLETE
  /\ finished_reasons after_first = [END_ID]
  /\ TorchDecoder.upd_result u = Ok (1, 3)%nat
  /\ map tokens (TorchDecoder.upd_extend u) = [[[7; 2; 5; 9]]]
  /\ map state (TorchDecoder.upd_extend u) = [GENERATION_COMPLETE]
  /\ map finished_reasons (TorchDecoder.upd_extend u) = [[LENGTH]]
  /\ map py_num_accepted_draft_tokens (TorchDecoder.upd_extend u) = [2].
Proof. vm_compute. repeat split. Qed.

(** X17. In a commit call of the simple batched decoder, whether it returns
    or raises, every request is left with token sequences that extend, beam
    by beam, the ones it had, and a request that was already
    [GENERATION_COMPLETE] when the call started is left exactly as it was:
    no token is appended to any beam and its decoding-iteration counter is
    not incremented.  This holds for the context rows, the extend rows and
    the plain generation rows. *)
Theorem completed_requests_untouched
  (max_seq_len : Z) (decoder_state : DecoderState) :
  let scheduled := scheduled_requests decoder_state in
  let u := TorchDecoder.update_requests max_seq_len decoder_state in
  let unchanged (r r' : LlmRequest) :=
    (forall beam, get_tokens r beam `prefix_of` get_tokens r' beam)
    /\ (state r = GENERATION_COMPLETE ->
        r' = r /\ tokens r' = tokens r
        /\ py_decoding_iter r' = py_decoding_iter r) in
  Forall2 unchanged (context_requests scheduled) (TorchDecoder.upd_context u)
  /\ Forall2 unchanged
       (List.filter TorchDecoder.is_extend (generation_requests scheduled))
       (TorchDecoder.upd_extend u)
  /\ Forall2 unchanged
       (List.filter (fun r => negb (TorchDecoder.is_extend r))
          (generation_requests scheduled))
       (TorchDecoder.upd_generation u).
Proof.
  cbv zeta.
  assert (Hweak : forall l l', Forall2 commit_rel l l' ->
            Forall2 (fun r r' =>
              (forall beam, get_tokens r beam `prefix_of` get_tokens r' beam)
              /\ (state r = GENERATION_COMPLETE ->
                  r' = r /\ tokens r' = tokens r
                  /\ py_decoding_iter r' = py_decoding_iter r)) l l').
  { intros l l' H. eapply Forall2_impl; [exact H|].
    intros r r' [Hg Hc]. split; [exact Hg|].
    intros Hs. specialize (Hc Hs). subst r'. done. }
  unfold TorchDecoder.update_requests.
  pose proof (UpdateFacts.for_each_rel
                (TorchDecoder.context_step max_seq_len decoder_state)
                (UpdateFacts.context_step_rel max_seq_len decoder_state)
                (context_requests (scheduled_requests decoder_state))
                (0, 0)%nat) as Hctx.
  destruct (TorchDecoder.for_each _ (0, 0)%nat _) as [ctx [e|[ri ti]]];
    simpl in Hctx.
  { simpl. auto using UpdateFacts.Forall2_commit_rel_refl. }
  match goal with
  | |- context [TorchDecoder.for_each
                  (TorchDecoder.extend_step _ _) ?i ?l] =>
      pose proof (UpdateFacts.for_each_rel
                    (TorchDecoder.extend_step max_seq_len decoder_state)
                    (UpdateFacts.extend_step_rel max_seq_len decoder_state)
                    l i) as Hext;
      destruct (TorchDecoder.for_each
                  (TorchDecoder.extend_step max_seq_len decoder_state) i l)
        as [ext [e|idx]]; simpl in Hext
  end.
  { simpl. auto using UpdateFacts.Forall2_commit_rel_refl. }
  match goal with
  | |- context [TorchDecoder.for_each
                  (TorchDecoder.generation_step _ _) ?i ?l] =>
      pose proof (UpdateFacts.for_each_rel
                    (TorchDecoder.generation_step max_seq_len decoder_state)
                    (UpdateFacts.generation_step_rel max_seq_len decoder_state)
                    l i) as Hgen;
      destruct (TorchDecoder.for_each
                  (TorchDecoder.generation_step max_seq_len decoder_state)
                  i l) as [gen res]; simpl in Hgen
  end.
  simpl. auto.
Qed.

(** The counters a returning commit call ends with: one request per
    request of every group, chunked ones included; one row per context
    request, [1 + len(draft_tokens)] rows per extend request, one row per
    plain generation request, and no row for a chunked request. *)
Lemma update_requests_counters
  (max_seq_len : Z) (decoder_state : DecoderState)
  (request_idx token_idx : nat) :
  let scheduled := scheduled_requests decoder_state in
  let extend :=
    List.filter TorchDecoder.is_extend (generation_requests scheduled) in
  let plain :=
    List.filter (fun r => negb (TorchDecoder.is_extend r))
      (generation_requests scheduled) in
  TorchDecoder.upd_result
    (TorchDecoder.update_requests max_seq_len decoder_state)
  = Ok (request_idx, token_idx) ->
  request_idx
  = (length (context_requests scheduled)
     + length (default [] (chunked_requests scheduled))
     + length extend + length plain)%nat
  /\ token_idx
     = (length (context_requests scheduled)
        + sum_list (map extend_width extend) + length plain)%nat.
Proof.
  cbv zeta. unfold TorchDecoder.update_requests.
  destruct (TorchDecoder.for_each _ (0, 0)%nat _) as [ctx [e|[ri ti]]] eqn:E1;
    [simpl; intros H; discriminate|].
  apply (UpdateFacts.for_each_counters _
           (fun _ => 1%nat)
           (UpdateFacts.context_step_counters max_seq_len decoder_state))
    in E1.
  match goal with
  | |- context [TorchDecoder.for_each
                  (TorchDecoder.extend_step _ _) ?i ?l] =>
      destruct (TorchDecoder.for_each
                  (TorchDecoder.extend_step max_seq_len decoder_state) i l)
        as [ext [e|idx]] eqn:E2
  end; [simpl; intros H; discriminate|].
  apply (UpdateFacts.for_each_counters _
           extend_width
           (UpdateFacts.extend_step_counters max_seq_len decoder_state))
    in E2.
  match goal with
  | |- context [TorchDecoder.for_each
                  (TorchDecoder.generation_step _ _) ?i ?l] =>
      destruct (TorchDecoder.for_each
                  (TorchDecoder.generation_step max_seq_len decoder_state)
                  i l) as [gen res] eqn:E3
  end.
  simpl. intros ->.
  apply (UpdateFacts.for_each_counters _
           (fun _ => 1%nat)
           (UpdateFacts.generation_step_counters max_seq_len decoder_state))
    in E3.
  assert (Hones : forall l : list LlmRequest,
            sum_list (map (fun _ => 1%nat) l) = length l).
  { induction l; simpl; congruence. }
  rewrite !Hones in *. subst idx. simpl in *.
  injection E1 as -> ->. injection E3 as -> ->.
  destruct (chunked_requests (scheduled_requests decoder_state)); simpl; lia.
Qed.

(** C3. The rows consumed by a batch with a chunked request.  The chunked
    request [c] advances the request counter but not the row counter, so
    the generation request behind it is given row 0 and the call ends with
    the row counter at 1. *)
Lemma chunked_rows_not_advanced :
  let c := mid_prefill (sample_request CONTEXT_INIT [7] None false) 4 in
  let g := sample_request GENERATION_IN_PROGRESS [8] None false in
  let decoder_state :=
    mkDecoderState (mkScheduledRequests [] [g] (Some [c])) None None
      [50; 60] in
  let u := TorchDecoder.update_requests 100 decoder_state in
  TorchDecoder.upd_result u = Ok (2, 1)%nat
  /\ map tokens (TorchDecoder.upd_generation u) = [[[8; 50]]].
Proof. vm_compute. split; reflexivity. Qed.

(** The same request scheduled as a context request in the middle of its
    prefill does consume a row: the generation request is given row 1. *)
Lemma mid_prefill_context_row_advanced :
  let c := mid_prefill (sample_request CONTEXT_INIT [7] None false) 4 in
  let g := sample_request GENERATION_IN_PROGRESS [8] None false in
  let decoder_state :=
    mkDecoderState (mkScheduledRequests [c] [g] None) None None [50; 60] in
  let u := TorchDecoder.update_requests 100 decoder_state in
  TorchDecoder.upd_result u = Ok (2, 2)%nat
  /\ map tokens (TorchDecoder.upd_generation u) = [[[8; 60]]].
Proof. vm_compute. split; reflexivity. Qed.

(** C9. The logits captured for an extend request.  One draft is accepted
    and
    the tokens of rows 0 and 1 are committed, but the slice appended to the
    request's generation logits holds row 0 only. *)
Lemma extend_logits_slice_misses_last_row :
  let request :=
    sample_request GENERATION_IN_PROGRESS [7] (Some [10]) true in
  let decoder_state :=
    mkDecoderState (mkScheduledRequests [] [request] None)
      (Some sample_logits) None [10; 11] in
  let out := TorchDecoder.extend_step 100 decoder_state (0, 0)%nat request in
  snd out = Ok (1, 2)%nat
  /\ tokens (fst out) = [[7; 10; 11]]
  /\ py_num_accepted_draft_tokens (fst out) = 1
  /\ generation_logits (py_result (fst out))
     = [Tensor [1%nat; 1%nat] [Fin 1]].
Proof. cbv zeta. repeat split; reflexivity. Qed.

(** In general: for an extend request that asks for logits, the slice
    appended holds the rows [token_idx, token_idx + k) of the score tensor,
    [k] being the number of accepted drafts, while the tokens of the
    [k + 1] rows [token_idx, token_idx + k] are committed. *)
Lemma extend_step_captures_accepted_rows
  (max_seq_len : Z) (decoder_state : DecoderState)
  (request_idx token_idx : nat) (request : LlmRequest)
  (drafts toks : list Z) (all_logits : tensor score) (n : nat)
  (s : list nat) :
  state request <> GENERATION_COMPLETE ->
  py_draft_tokens request = Some drafts ->
  tokens request !! 0%nat = Some toks ->
  (token_idx + length drafts < length (new_tokens_host decoder_state))%nat ->
  logits decoder_state = Some all_logits ->
  shape all_logits = n :: s ->
  py_return_generation_logits request || py_return_log_probs request = true ->
  let rows := drop token_idx (new_tokens_host decoder_state) in
  let out := TorchDecoder.extend_step max_seq_len decoder_state
               (request_idx, token_idx) request in
  exists (k : nat) (captured : tensor score),
    tokens (fst out) !! 0%nat = Some (toks ++ take (S k) rows)
    /\ length (take (S k) rows) = S k
    /\ slice0 all_logits token_idx (token_idx + k) = Ok captured
    /\ shape captured
       = (Nat.min (token_idx + k) n - Nat.min token_idx n)%nat :: s
    /\ generation_logits (py_result (fst out))
       = generation_logits (py_result request) ++ [captured].
Proof.
  intros Hstate Hdrafts Hbeam Hrows Hlogits Hshape Hflag. cbv zeta.
  destruct (UpdateFacts.drop_nonempty (new_tokens_host decoder_state)
              token_idx) as (first & later & Hdrop); [lia|].
  assert (Hlen : (length drafts <= length later)%nat).
  { apply (f_equal length) in Hdrop. rewrite length_drop in Hdrop.
    simpl in Hdrop. lia. }
  destruct (UpdateFacts.extend_commit_spec max_seq_len decoder_state
              token_idx request_idx request drafts toks first later
              Hdrafts Hbeam Hdrop Hlen)
    as (m & r3 & _ & Hml & Htok & Hcfg & Hres & _ & _ & Hrun).
  rewrite Hdrop. unfold TorchDecoder.extend_step.
  apply LlmRequestState_eqb_neq in Hstate. rewrite Hstate. cbn [negb].
  rewrite Hrun.
  destruct (UpdateFacts.slice0_shape all_logits n s token_idx
              (token_idx + m) Hshape) as (captured & Hslice & Hsh).
  assert (Hflag3 : py_return_generation_logits r3
                   || py_return_log_probs r3 = true).
  { unfold config_of in Hcfg. injection Hcfg as _ _ _ _ _ _ _ Hg Hl _ _.
    by rewrite Hg, Hl. }
  pose proof (UpdateFacts.handle_logits_captures decoder_state token_idx
                request_idx r3 m all_logits captured Hlogits Hflag3 Hslice)
    as Hcap.
  pose proof (UpdateFacts.handle_logits_frame decoder_state token_idx
                request_idx r3 m) as Hfr.
  cbv zeta in Hfr. destruct Hfr as (Hc4 & Ht4 & _).
  exists m, captured.
  assert (Htake : (toks ++ [first]) ++ take m later
                  = toks ++ take (S m) (first :: later)).
  { simpl. by rewrite <- app_assoc. }
  assert (Hd3 : py_draft_tokens r3 = Some drafts).
  { unfold config_of in Hcfg. injection Hcfg as _ _ _ _ Hdr _ _ _ _ _ _.
    by rewrite Hdr. }
  assert (Hd4 : forall r4, config_of r4 = config_of r3 ->
                           py_draft_tokens r4 = Some drafts).
  { intros r4 H4. unfold config_of in H4.
    injection H4 as _ _ _ _ Hdr _ _ _ _ _ _. by rewrite Hdr. }
  destruct (TorchDecoder.handle_logits decoder_state token_idx request_idx
              r3 m) as [r4 [e|[]]]; simpl in Hcap, Hc4, Ht4.
  - simpl.
    split; [by rewrite Ht4, Htok, Htake|].
    split; [rewrite length_take; simpl; lia|].
    split; [exact Hslice|]. split; [exact Hsh|]. by rewrite Hcap, Hres.
  - simpl. rewrite (Hd4 _ Hc4). simpl.
    split; [by rewrite Ht4, Htok, Htake|].
    split; [rewrite length_take; simpl; lia|].
    split; [exact Hslice|]. split; [exact Hsh|]. by rewrite Hcap, Hres.
Qed.

(** With no draft accepted the slice is empty although a token was
    committed. *)
Lemma extend_logits_slice_empty_without_accepts :
  let request :=
    sample_request GENERATION_IN_PROGRESS [7] (Some [10]) true in
  let decoder_state :=
    mkDecoderState (mkScheduledRequests [] [request] None)
      (Some sample_logits) None [20; 21] in
  let out := TorchDecoder.extend_step 100 decoder_state (0, 0)%nat request in
  snd out = Ok (1, 2)%nat
  /\ tokens (fst out) = [[7; 20]]
  /\ generation_logits (py_result (fst out))
     = [Tensor [0%nat; 1%nat] []].
Proof. cbv zeta. repeat split; reflexivity. Qed.

(** A plain generation row captures exactly the row of its token. *)
Lemma generation_logits_slice_is_its_row :
  let request := sample_request GENERATION_IN_PROGRESS [7] None true in
  let decoder_state :=
    mkDecoderState (mkScheduledRequests [] [request] None)
      (Some sample_logits) None [20; 21; 22] in
  let out :=
    TorchDecoder.generation_step 100 decoder_state (1, 1)%nat request in
  snd out = Ok (2, 2)%nat
  /\ tokens (fst out) = [[7; 21]]
  /\ generation_logits (py_result (fst out))
     = [Tensor [1%nat; 1%nat] [Fin 2]].
Proof. cbv zeta. repeat split; reflexivity. Qed.

(** ** The producers *)

Module ProducerFacts.
Import TorchDecoder.

Lemma length_chunks {A : Type} (n m : nat) (l : list A) :
  length (chunks n m l) = n.
Proof. revert l. induction n; intros l; simpl; congruence. Qed.

Lemma try_map_length {A B : Type} (f : A -> result B) :
  forall (l : list A) (l' : list B),
    try_map f l = Ok l' -> length l' = length l.
Proof.
  induction l as [|a l IH]; intros l' H; simpl in H.
  - injection H as <-. reflexivity.
  - destruct (f a); [discriminate|]. simpl in H.
    destruct (try_map f l) as [e|bs]; [discriminate|]. simpl in H.
    injection H as <-. simpl. f_equal. by apply IH.
Qed.

Lemma rows_of_single {A : Type} (t : tensor A) (v : nat) :
  shape t = [1%nat; v] -> length (rows_of t) = 1%nat.
Proof. intros H. unfold rows_of. by rewrite length_chunks, H. Qed.

Lemma sample_and_report_one_token multinomial raw_probs probs out :
  length probs = 1%nat ->
  sample_and_report multinomial 1 raw_probs probs = Ok out ->
  one_token (fst out).
Proof.
  intros Hp. unfold sample_and_report.
  destruct (negb (forallb drawable probs)); [discriminate|].
  destruct (unsqueeze 1 _) as [e|index]; [discriminate|]. simpl.
  destruct (gather1 raw_probs index) as [e|g]; [discriminate|]. simpl.
  intros H. injection H as <-. split; [reflexivity|].
  simpl. by rewrite length_imap.
Qed.

Lemma promote_2d (t : tensor score) b v :
  shape t = [b; v] -> promote t = Ok t.
Proof. intros H. unfold promote, dim. by rewrite H. Qed.

Lemma top_k_probs_length (t : tensor score) (k : Z) (v : nat) probs :
  shape t = [1%nat; v] ->
  top_k_probs t k = Ok probs -> length probs = 1%nat.
Proof.
  intros Hs. unfold top_k_probs, topk.
  destruct ((k <? 0) || _); [discriminate|]. simpl.
  unfold last_column. simpl. rewrite Hs. simpl.
  destruct (Z.to_nat k =? 0)%nat; [discriminate|]. simpl.
  intros H. injection H as <-.
  rewrite List.length_map, length_zip_with, (rows_of_single t v Hs).
  reflexivity.
Qed.

Lemma top_p_probs_length sort_indices cumulative_probs (t : tensor score)
  (p : R) (v : nat) probs :
  shape t = [1%nat; v] ->
  top_p_probs sort_indices cumulative_probs t v p = Ok probs ->
  length probs = 1%nat.
Proof.
  intros Hs. unfold top_p_probs.
  destruct (v =? 0)%nat; [discriminate|].
  intros H. injection H as <-.
  by rewrite List.length_map, (rows_of_single t v Hs).
Qed.

Lemma greedy_one_token (t : tensor score) (v : nat) out :
  shape t = [1%nat; v] ->
  greedy_search_sampling_batch t = Ok out -> one_token (fst out).
Proof.
  intros Hs. unfold greedy_search_sampling_batch, argmax.
  destruct (last_dim (shape t) =? 0)%nat; [discriminate|].
  destruct (try_map argmax_row (rows_of t)) as [e|idx] eqn:E;
    [discriminate|].
  apply try_map_length in E. rewrite (rows_of_single t v Hs) in E.
  simpl. destruct (unsqueeze 1 _) as [e|index]; [discriminate|]. simpl.
  destruct (gather1 (softmax t) index) as [e|g]; [discriminate|]. simpl.
  intros H. injection H as <-. split; [|exact E].
  simpl. by rewrite Hs.
Qed.

Lemma decode_single_request_one_token multinomial sort_indices
  cumulative_probs request t out :
  decode_single_request multinomial sort_indices cumulative_probs
    request t = Ok out ->
  one_token (fst out).
Proof.
  unfold decode_single_request.
  destruct t as [sh d]. unfold dim. simpl.
  destruct sh as [|b [|v [|? ?]]]; simpl; try discriminate.
  destruct (Nat.eqb_spec b 1) as [->|]; [|discriminate]. simpl.
  assert (Hk : forall k, top_k_sampling_batch multinomial
                           (Tensor [1%nat; v] d) k = Ok out ->
                         one_token (fst out)).
  { intros k. unfold top_k_sampling_batch.
    rewrite (promote_2d (Tensor [1%nat; v] d) 1 v eq_refl). simpl.
    destruct (top_k_probs _ k) as [e|probs] eqn:E; [discriminate|].
    simpl. apply sample_and_report_one_token.
    exact (top_k_probs_length (Tensor [1%nat; v] d) k v probs eq_refl E). }
  assert (Hp : forall p, top_p_sampling_batch multinomial sort_indices
                           cumulative_probs (Tensor [1%nat; v] d) p
                         = Ok out ->
                         one_token (fst out)).
  { intros p. unfold top_p_sampling_batch.
    rewrite (promote_2d (Tensor [1%nat; v] d) 1 v eq_refl). simpl.
    destruct (top_p_probs _ _ _ v p) as [e|probs] eqn:E; [discriminate|].
    simpl. apply sample_and_report_one_token.
    exact (top_p_probs_length _ _ (Tensor [1%nat; v] d) p v probs eq_refl
             E). }
  pose proof (greedy_one_token (Tensor [1%nat; v] d) v out eq_refl) as Hg.
  destruct (top_p (sampling_config request)) as [[|p ?]|];
    destruct (top_k (sampling_config request)) as [[|k ?]|];
    first [apply Hp | apply Hk | apply Hg].
Qed.

Section Loops.
Variable multinomial : nat -> nat -> list R -> nat.
Variable sort_indices : list score -> list nat.
Variable cumulative_probs : list score -> list R.
Variable model_logits : tensor score.

Lemma mixed_decode_one_gathered acc request acc' n :
  gathered acc n ->
  mixed_decode_one multinomial sort_indices cumulative_probs
      model_logits acc request = Ok acc' ->
  gathered acc' (S n).
Proof.
  intros [Hn Hall]. destruct acc as [[arr lp] idx].
  unfold mixed_decode_one.
  destruct (slice0_all1 model_logits idx (idx + 1)) as [e|tl];
    [discriminate|]. simpl.
  destruct (decode_single_request (multinomial idx) sort_indices
              cumulative_probs request tl)
    as [e|[nt lps]] eqn:E; [discriminate|]. simpl.
  apply decode_single_request_one_token in E. simpl in E.
  intros H. injection H as <-. split; simpl.
  - rewrite length_app. simpl in Hn. simpl. lia.
  - apply Forall_app. split; [exact Hall|]. by constructor.
Qed.

Lemma mixed_context_loop_gathered requests :
  forall acc acc' n,
    gathered acc n ->
    mixed_context_loop multinomial sort_indices cumulative_probs
        model_logits acc requests = Ok acc' ->
    gathered acc' (n + length requests).
Proof.
  induction requests as [|r rest IH]; intros acc acc' n Hg; simpl.
  - intros H. injection H as <-. by rewrite Nat.add_0_r.
  - destruct (py_return_context_logits r); [discriminate|].
    destruct (mixed_decode_one multinomial sort_indices cumulative_probs
        model_logits acc r)
      as [e|acc1] eqn:E; [discriminate|]. simpl.
    intros H. replace (n + S (length rest))%nat
      with (S n + length rest)%nat by lia.
    eapply IH; [|exact H]. by eapply mixed_decode_one_gathered.
Qed.

Lemma mixed_generation_loop_gathered requests :
  forall acc acc' n,
    gathered acc n ->
    mixed_generation_loop multinomial sort_indices cumulative_probs
        model_logits acc requests
    = Ok acc' ->
    gathered acc' (n + length (active requests)).
Proof.
  induction requests as [|r rest IH]; intros acc acc' n Hg; simpl.
  - intros H. injection H as <-. by rewrite Nat.add_0_r.
  - destruct (LlmRequestState_eqb (state r) GENERATION_COMPLETE);
      simpl; [by apply IH|].
    destruct (is_extend r); [discriminate|].
    destruct (mixed_decode_one multinomial sort_indices cumulative_probs
        model_logits acc r)
      as [e|acc1] eqn:E; [discriminate|]. simpl.
    intros H. replace (n + S (length (active rest)))%nat
      with (S n + length (active rest))%nat by lia.
    eapply IH; [|exact H]. by eapply mixed_decode_one_gathered.
Qed.

Lemma concat_one_tokens (ts : list (tensor nat)) :
  Forall one_token ts -> length (concat (map data ts)) = length ts.
Proof.
  induction 1 as [|u us [_ Hu] _ IH]; [reflexivity|].
  simpl. by rewrite length_app, Hu, IH.
Qed.

Lemma cat_one_tokens (ts : list (tensor nat)) (t : tensor nat) :
  Forall one_token ts -> cat ts = Ok t ->
  length (data t) = length ts.
Proof.
  intros Hall. unfold cat.
  destruct ts as [|t0 ts'] eqn:Ets; [discriminate|]. rewrite <- Ets in *.
  destruct (shape t0) as [|? tl]; [discriminate|].
  destruct (forallb _ _); [|discriminate].
  intros H. injection H as <-. simpl. by apply concat_one_tokens.
Qed.

(** The producer emits one token for every context request and one for
    every generation request that is not complete. *)
Lemma mixed_decode_row_count (scheduled : ScheduledRequests)
  (st : DecoderState) :
  _mixed_decode multinomial sort_indices cumulative_probs
      model_logits scheduled = Ok st ->
  length (new_tokens_host st)
  = (length (context_requests scheduled)
     + length (active (generation_requests scheduled)))%nat.
Proof.
  unfold _mixed_decode.
  destruct (mixed_context_loop _ _ _ _) as [e|acc1] eqn:E1;
    [discriminate|]. simpl.
  apply (mixed_context_loop_gathered _ _ _ 0) in E1;
    [|split; [reflexivity|constructor]].
  destruct (mixed_generation_loop _ _ _ _) as [e|acc2] eqn:E2;
    [discriminate|]. simpl.
  apply (mixed_generation_loop_gathered _ _ _ _ E1) in E2.
  destruct acc2 as [[arr lp] idx]. destruct E2 as [Hn Hall].
  simpl in Hn, Hall.
  destruct (cat arr) as [e|t] eqn:Ec; [discriminate|]. simpl.
  intros H. injection H as <-. simpl.
  rewrite List.length_map, (cat_one_tokens arr t Hall Ec). exact Hn.
Qed.

End Loops.
End ProducerFacts.

(** C10. The rows produced and consumed in mixed mode, for a batch whose
    first
    generation request is complete.  The producer emits a single token,
    for the request in progress; the consumer steps over the row of the
    complete request and then reads row 1, which does not exist. *)
Lemma mixed_decode_skips_completed_rows
  (multinomial : nat -> nat -> list R -> nat)
  (sort_indices : list score -> list nat)
  (cumulative_probs : list score -> list R) :
  let g1 := sample_request GENERATION_COMPLETE [8] None false in
  let g2 := sample_request GENERATION_IN_PROGRESS [9] None false in
  let scheduled := mkScheduledRequests [] [g1; g2] None in
  let model_logits := Tensor [2%nat; 1%nat] [Fin 1; Fin 2] in
  match TorchDecoder._mixed_decode multinomial sort_indices
          cumulative_probs model_logits scheduled with
  | inr decoder_state =>
      new_tokens_host decoder_state = [0]
      /\ TorchDecoder.upd_result
           (TorchDecoder.update_requests 100 decoder_state)
         = Raise IndexError
  | inl _ => False
  end.
Proof. cbv zeta. split; reflexivity. Qed.

(** ** Lists cut into rows *)

Module RowFacts.

Lemma lookup_map {A B : Type} (f : A -> B) (l : list A) (i : nat) :
  map f l !! i = f <$> l !! i.
Proof. revert i. induction l as [|a l IH]; intros [|i]; simpl; auto. Qed.

Lemma try_map_lookup {A B : Type} (f : A -> result B) :
  forall (l : list A) (l' : list B),
    try_map f l = Ok l' ->
    forall i x, l !! i = Some x ->
                exists y, f x = Ok y /\ l' !! i = Some y.
Proof.
  induction l as [|a l IH]; intros l' H i x Hi; [discriminate|].
  simpl in H. destruct (f a) as [e|b] eqn:Ea; [discriminate|]. simpl in H.
  destruct (try_map f l) as [e|bs] eqn:El; [discriminate|]. simpl in H.
  injection H as <-. destruct i as [|i]; simpl in Hi.
  - injection Hi as <-. eauto.
  - destruct (IH bs eq_refl i x Hi) as (y & Hy & Hl). eauto.
Qed.

Lemma try_map_ok {A B : Type} (f : A -> result B) :
  forall l : list A,
    (forall x, x ∈ l -> exists y, f x = Ok y) ->
    exists l', try_map f l = Ok l'.
Proof.
  induction l as [|a l IH]; intros H; simpl; [eauto|].
  destruct (H a) as [b Hb]; [by left|]. rewrite Hb. simpl.
  destruct IH as [bs Hbs]; [intros x Hx; apply H; by right|].
  rewrite Hbs. simpl. eauto.
Qed.

Lemma chunks_lookup {A : Type} (m : nat) (l : list A) :
  forall n r, (r < n)%nat ->
              chunks n m l !! r = Some (take m (drop (r * m) l)).
Proof.
  intros n. revert l. induction n as [|n IH]; intros l r Hr; [lia|].
  destruct r as [|r]; simpl; [reflexivity|].
  rewrite IH by lia. by rewrite drop_drop.
Qed.

Lemma chunks_uniform {A : Type} (n m : nat) (l : list A) :
  length l = (n * m)%nat ->
  Forall (fun x => length x = m) (chunks n m l).
Proof.
  revert l. induction n as [|n IH]; intros l Hl; simpl; constructor.
  - rewrite length_take. simpl in Hl. lia.
  - apply IH. rewrite length_drop. simpl in Hl. lia.
Qed.

Lemma chunks_concat {A : Type} (m : nat) (ls : list (list A)) :
  Forall (fun x => length x = m) ls ->
  chunks (length ls) m (concat ls) = ls.
Proof.
  induction 1 as [|x ls Hx _ IH]; simpl; [reflexivity|].
  rewrite take_app_length' by done.
  rewrite drop_app_length' by done. by rewrite IH.
Qed.

Lemma lookup_concat_uniform {A : Type} (m : nat) (ls : list (list A)) :
  Forall (fun x => length x = m) ls ->
  forall i j row, ls !! i = Some row -> (j < m)%nat ->
                  concat ls !! (i * m + j)%nat = row !! j.
Proof.
  induction 1 as [|x ls Hx _ IH]; intros i j row Hi Hj; [discriminate|].
  destruct i as [|i]; simpl in *.
  - injection Hi as <-. rewrite lookup_app_l by lia. reflexivity.
  - rewrite lookup_app_r by lia.
    replace (m + i * m + j - length x)%nat with (i * m + j)%nat by lia.
    by apply IH.
Qed.

Lemma Forall_map_length {A B : Type} (f : list A -> list B) (m : nat)
  (ls : list (list A)) :
  (forall x, length (f x) = length x) ->
  Forall (fun x => length x = m) ls ->
  Forall (fun x => length x = m) (map f ls).
Proof.
  intros Hf. induction 1; simpl; constructor; [by rewrite Hf|done].
Qed.

(** The rows of a well-formed matrix. *)
Lemma rows_of_matrix {A : Type} (t : tensor A) (b v : nat) :
  shape t = [b; v] -> tensor_wf t ->
  length (rows_of t) = b
  /\ Forall (fun x => length x = v) (rows_of t).
Proof.
  intros Hs Hwf. unfold rows_of, tensor_wf in *. rewrite Hs in *.
  unfold outer, last_dim. simpl in *.
  rewrite !Nat.mul_1_r in *.
  split; [apply ProducerFacts.length_chunks|].
  apply chunks_uniform. lia.
Qed.

Lemma rows_of_one_row {A : Type} (row : list A) (v : nat) :
  length row = v -> rows_of (Tensor [1%nat; v] row) = [row].
Proof.
  intros H. unfold rows_of, outer, last_dim. simpl.
  by rewrite take_ge by lia.
Qed.

End RowFacts.

(** ** Sampling policies *)

Module SamplingFacts.
Import RowFacts.

(** *** The order on scores *)

Lemma score_ltb_irrefl a : score_ltb a a = false.
Proof.
  destruct a as [|x]; simpl; [reflexivity|].
  destruct (Rlt_dec x x); [lra|reflexivity].
Qed.

Lemma score_ltb_asym a b : score_ltb a b = true -> score_ltb b a = false.
Proof.
  destruct a as [|x], b as [|y]; simpl; try done.
  destruct (Rlt_dec x y), (Rlt_dec y x); try done. lra.
Qed.

Lemma score_leb_trans a b c :
  score_leb a b = true -> score_leb b c = true -> score_leb a c = true.
Proof.
  unfold score_leb. rewrite !negb_true_iff.
  destruct a as [|x], b as [|y], c as [|z]; simpl; try done.
  destruct (Rlt_dec y x), (Rlt_dec z y), (Rlt_dec z x); try done. lra.
Qed.

Lemma score_leb_refl a : score_leb a a = true.
Proof. unfold score_leb. by rewrite score_ltb_irrefl. Qed.

(** *** Sorting *)

Lemma insert_desc_perm x l : Permutation (insert_desc x l) (x :: l).
Proof.
  induction l as [|y l IH]; simpl; [done|].
  destruct (score_ltb (fst x) (fst y)); [|done].
  rewrite IH. apply Permutation_swap.
Qed.

Lemma insert_desc_sorted x l :
  StronglySorted desc_pair l -> StronglySorted desc_pair (insert_desc x l).
Proof.
  induction 1 as [|y l Hs IH Hy]; simpl.
  - repeat constructor.
  - destruct (score_ltb (fst x) (fst y)) eqn:E.
    + constructor; [exact IH|].
      rewrite Forall_forall. intros z Hz.
      rewrite (insert_desc_perm x l) in Hz.
      apply elem_of_cons in Hz as [->|Hz].
      * unfold desc_pair, score_leb. by rewrite (score_ltb_asym _ _ E).
      * rewrite Forall_forall in Hy. by apply Hy.
    + assert (Hxy : desc_pair x y).
      { unfold desc_pair, score_leb. by rewrite E. }
      constructor; [by constructor|].
      constructor; [exact Hxy|].
      rewrite Forall_forall in Hy |- *. intros z Hz.
      unfold desc_pair in *. eapply score_leb_trans; [|exact Hxy].
      by apply Hy.
Qed.

Lemma fold_insert_desc_perm l :
  Permutation (fold_right insert_desc [] l) l.
Proof.
  induction l as [|x l IH]; simpl; [done|].
  by rewrite insert_desc_perm, IH.
Qed.

Lemma fold_insert_desc_sorted l :
  StronglySorted desc_pair (fold_right insert_desc [] l).
Proof.
  induction l as [|x l IH]; simpl; [constructor|].
  by apply insert_desc_sorted.
Qed.

Lemma map_fst_imap_pair (row : list score) :
  map fst (imap (fun i x => (x, i)) row) = row.
Proof.
  assert (H : forall (f : nat -> nat),
            map fst (imap (fun i x => (x, f i)) row) = row).
  { induction row as [|x row IH]; intros f; simpl; [reflexivity|].
    f_equal. apply (IH (f ∘ S)). }
  apply (H (fun i => i)).
Qed.

(** The sorted values are the row's own, rearranged. *)
Lemma sort_desc_perm row : Permutation (map fst (sort_desc row)) row.
Proof.
  unfold sort_desc.
  rewrite (Permutation_map fst (fold_insert_desc_perm _)).
  by rewrite map_fst_imap_pair.
Qed.

Lemma sort_desc_length row : length (sort_desc row) = length row.
Proof.
  rewrite <- (length_map fst), (Permutation_length (sort_desc_perm row)).
  reflexivity.
Qed.

Lemma strongly_sorted_lookup (l : list (score * nat)) :
  StronglySorted desc_pair l ->
  forall i j a b, (i <= j)%nat -> l !! i = Some a -> l !! j = Some b ->
                  score_leb (fst b) (fst a) = true.
Proof.
  induction 1 as [|y l Hs IH Hy]; intros i j a b Hij Hi Hj;
    [discriminate|].
  destruct i as [|i], j as [|j]; simpl in *; try lia.
  - injection Hi as <-. injection Hj as <-. apply score_leb_refl.
  - injection Hi as <-. rewrite Forall_forall in Hy.
    apply Hy. by eapply list_elem_of_lookup_2.
  - eapply IH; [|done..]. lia.
Qed.

(** And they come in descending order. *)
Lemma sort_desc_descending row : descending (map fst (sort_desc row)).
Proof.
  intros i j a b Hij Hi Hj. rewrite lookup_map in Hi, Hj.
  destruct (sort_desc row !! i) as [pa|] eqn:Ea; [|discriminate].
  destruct (sort_desc row !! j) as [pb|] eqn:Eb; [|discriminate].
  injection Hi as <-. injection Hj as <-.
  eapply strongly_sorted_lookup; [apply fold_insert_desc_sorted|..]; done.
Qed.

Lemma topk_row_length k row :
  (k <= length row)%nat -> length (topk_row k row) = k.
Proof.
  intros H. unfold topk_row.
  rewrite length_take, length_map, sort_desc_length. lia.
Qed.

(** The [k]-th largest score is the entry of rank [k] in the descending
    rearrangement of the row. *)
Lemma kth_largest_rank (k : Z) (row : list score) :
  0 < k <= Z.of_nat (length row) ->
  exists sorted,
    Permutation sorted row /\ descending sorted
    /\ sorted !! (Z.to_nat k - 1)%nat = Some (kth_largest k row).
Proof.
  intros Hk. exists (map fst (sort_desc row)).
  split; [apply sort_desc_perm|]. split; [apply sort_desc_descending|].
  unfold kth_largest, topk_row.
  assert (Hlen : (Z.to_nat k <= length (map fst (sort_desc row)))%nat)
    by (rewrite length_map, sort_desc_length; lia).
  destruct (Z.to_nat k) as [|n] eqn:En; [lia|].
  replace (S n - 1)%nat with n by lia.
  destruct (map fst (sort_desc row) !! n) as [x|] eqn:Ex.
  - rewrite (take_S_r _ _ _ Ex), List.last_last. reflexivity.
  - apply lookup_ge_None in Ex. lia.
Qed.

(** *** Softmax *)

Lemma softmax_row_length row : length (softmax_row row) = length row.
Proof. unfold softmax_row. by rewrite length_map. Qed.

Lemma softmax_row_lookup row i :
  softmax_row row !! i
  = (fun s => (weight s / Rsum (map weight row))%R) <$> row !! i.
Proof. unfold softmax_row. by rewrite lookup_map. Qed.

(** A masked position has probability zero. *)
Lemma softmax_row_support row i p :
  softmax_row row !! i = Some p -> p <> 0%R ->
  exists x, row !! i = Some (Fin x).
Proof.
  rewrite softmax_row_lookup. intros H Hp.
  destruct (row !! i) as [[|x]|]; simpl in H; [|eauto|discriminate].
  injection H as <-. exfalso. apply Hp. unfold Rdiv. lra.
Qed.

Lemma softmax_rows (t : tensor score) (b v : nat) :
  shape t = [b; v] -> tensor_wf t ->
  shape (softmax t) = [b; v]
  /\ data (softmax t) = concat (map softmax_row (rows_of t))
  /\ Forall (fun x => length x = v) (map softmax_row (rows_of t)).
Proof.
  intros Hs Hwf. destruct (rows_of_matrix t b v Hs Hwf) as [_ Hall].
  split; [exact Hs|]. split; [reflexivity|].
  by apply Forall_map_length; [apply softmax_row_length|].
Qed.

(** *** The restricted distributions of top-k *)

Lemma zip_with_map_r {A B C D : Type} (f : A -> C -> D) (g : B -> C)
  (h : A -> B) (l : list A) :
  zip_with f l (map g (map h l)) = map (fun x => f x (g (h x))) l.
Proof. induction l as [|x l IH]; simpl; [reflexivity|by rewrite IH]. Qed.

Lemma top_k_probs_spec (t : tensor score) (b v : nat) (k : Z) :
  shape t = [b; v] -> tensor_wf t ->
  top_k_probs t k
  = if (k <? 0) || (Z.of_nat v <? k) then Raise RuntimeError
    else if k =? 0 then Raise IndexError
    else Ok (map (fun row =>
                    softmax_row (top_k_mask_row (kth_largest k row) row))
               (rows_of t)).
Proof.
  intros Hs Hwf. destruct (rows_of_matrix t b v Hs Hwf) as [Hlen Hall].
  unfold top_k_probs, topk. rewrite Hs. unfold last_dim at 1. simpl.
  destruct ((k <? 0) || (Z.of_nat v <? k)) eqn:Ek; [reflexivity|].
  apply orb_false_iff in Ek as [Ek1 Ek2].
  apply Z.ltb_ge in Ek1, Ek2. simpl. unfold last_column. simpl.
  destruct (Z.eqb_spec k 0) as [->|Hk0]; [reflexivity|].
  destruct (Nat.eqb_spec (Z.to_nat k) 0) as [E0|_]; [lia|]. simpl.
  f_equal.
  assert (Hrows : rows_of
            (Tensor [b; Z.to_nat k]
               (concat (map (topk_row (Z.to_nat k)) (rows_of t))))
          = map (topk_row (Z.to_nat k)) (rows_of t)).
  { unfold rows_of at 1, outer, last_dim. simpl. rewrite Nat.mul_1_r.
    rewrite <- Hlen at 1. rewrite <- (length_map (topk_row (Z.to_nat k))).
    apply chunks_concat. rewrite Forall_forall in Hall |- *.
    intros x Hx. apply list_elem_of_In, in_map_iff in Hx as (row & <- & Hr).
    apply topk_row_length. rewrite (Hall row); [lia|].
    by apply list_elem_of_In. }
  rewrite Hrows, zip_with_map_r, List.map_map. reflexivity.
Qed.

(** *** Gathering along the vocabulary axis *)

Lemma try_map_ext_in {A B : Type} (f g : A -> result B) (l : list A) :
  (forall x, x ∈ l -> f x = g x) -> try_map f l = try_map g l.
Proof.
  induction l as [|a l IH]; intros H; simpl; [reflexivity|].
  rewrite (H a) by (by left). rewrite IH; [reflexivity|].
  intros x Hx. apply H. by right.
Qed.

(** [gather1] on a matrix and a column of indices: entry [r] of the
    result is the entry of row [r] at the index of row [r]. *)
Lemma gather1_column {A : Type} (raw : tensor A) (b v : nat)
  (rows : list (list A)) (idx : list nat) :
  shape raw = [b; v] -> data raw = concat rows ->
  Forall (fun x => length x = v) rows ->
  gather1 raw (Tensor [b; 1%nat] idx)
  = do out <- try_map (fun pv : nat * nat =>
        match rows !! fst pv ≫= (fun row => row !! snd pv) with
        | Some x => Ok x
        | None => Raise RuntimeError
        end) (imap pair idx) ;
    Ok (Tensor [b; 1%nat] out).
Proof.
  intros Hs Hd Hall. unfold gather1, dim. rewrite Hs. simpl.
  rewrite Nat.leb_refl. simpl. f_equal.
  apply try_map_ext_in. intros [p tok] _. simpl.
  change (fst (Nat.divmod p 0 0 0)) with (p / 1)%nat.
  rewrite Nat.div_1_r.
  replace (p * (v * 1) + (tok * 1 + 0))%nat with (p * v + tok)%nat by lia.
  rewrite Hd.
  destruct (Nat.ltb_spec tok v) as [Hlt|Hge].
  - destruct (rows !! p) as [row|] eqn:Er.
    + by rewrite (lookup_concat_uniform v rows Hall p tok row Er Hlt).
    + simpl. rewrite lookup_ge_None_2; [reflexivity|].
      apply lookup_ge_None in Er.
      assert (Hc : length (concat rows) = (length rows * v)%nat).
      { clear -Hall. induction Hall as [|x l Hx _ IH]; simpl;
          [reflexivity|]. rewrite length_app, IH, Hx. lia. }
      rewrite Hc. nia.
  - destruct (rows !! p) as [row|] eqn:Er; simpl; [|reflexivity].
    rewrite lookup_ge_None_2; [reflexivity|].
    rewrite Forall_forall in Hall. rewrite (Hall row); [lia|].
    by eapply list_elem_of_lookup_2.
Qed.

(** *** Distributions that can be drawn from *)

Lemma weight_nonneg (s : score) : (0 <= weight s)%R.
Proof. destruct s as [|x]; simpl; [lra|]. left. apply exp_pos. Qed.

Lemma Rsum_nonneg (l : list R) :
  Forall (fun x => (0 <= x)%R) l -> (0 <= Rsum l)%R.
Proof. induction 1 as [|x l Hx _ IH]; simpl; lra. Qed.

Lemma weights_nonneg (row : list score) :
  Forall (fun x => (0 <= x)%R) (map weight row).
Proof.
  apply Forall_forall. intros w Hw.
  apply list_elem_of_In, in_map_iff in Hw as (s & <- & _).
  apply weight_nonneg.
Qed.

Lemma Rsum_weights_pos (row : list score) :
  has_finite_score row -> (0 < Rsum (map weight row))%R.
Proof.
  intros [x Hx]. induction row as [|s row IH]; [by apply elem_of_nil in Hx|].
  pose proof (Rsum_nonneg _ (weights_nonneg row)) as Hrest.
  pose proof (weight_nonneg s) as Hs.
  apply elem_of_cons in Hx as [<-|Hx]; simpl.
  - pose proof (exp_pos x). lra.
  - specialize (IH Hx). lra.
Qed.

Lemma Rsum_map_div {A : Type} (f : A -> R) (z : R) (l : list A) :
  Rsum (map (fun a => (f a / z)%R) l) = (Rsum (map f l) / z)%R.
Proof.
  induction l as [|a l IH]; simpl; [unfold Rdiv; ring|].
  rewrite IH. unfold Rdiv. ring.
Qed.

(** The softmax of a row with a finite score is a distribution. *)
Lemma softmax_row_sum (row : list score) :
  has_finite_score row -> Rsum (softmax_row row) = 1%R.
Proof.
  intros H. pose proof (Rsum_weights_pos row H) as Hz.
  unfold softmax_row. rewrite (Rsum_map_div weight). field. lra.
Qed.

Lemma softmax_row_drawable (row : list score) :
  has_finite_score row -> drawable (softmax_row row) = true.
Proof.
  intros H. unfold drawable, Rgtb. rewrite (softmax_row_sum row H).
  destruct (Rlt_dec 0 1); [reflexivity|lra].
Qed.

(** The softmax of a row without a finite score is refused. *)
Lemma softmax_row_not_drawable (row : list score) :
  ~ has_finite_score row -> drawable (softmax_row row) = false.
Proof.
  intros H.
  assert (Hall : Forall (fun s => s = NegInf) row).
  { apply Forall_forall. intros [|x] Hx; [reflexivity|].
    exfalso. apply H. by exists x. }
  assert (Hsum : Rsum (softmax_row row) = 0%R).
  { unfold softmax_row. generalize (Rsum (map weight row)). intros z.
    clear H. induction Hall as [|s l -> _ IH]; simpl; [reflexivity|].
    rewrite IH. unfold Rdiv. ring. }
  unfold drawable, Rgtb. rewrite Hsum.
  destruct (Rlt_dec 0 0); [lra|reflexivity].
Qed.

(** The largest score of a row with a finite score is finite. *)
Lemma descending_head_finite (sorted : list score) :
  descending sorted -> has_finite_score sorted ->
  exists x, sorted !! 0%nat = Some (Fin x).
Proof.
  intros Hdesc [x Hx]. apply list_elem_of_lookup in Hx as [r Hr].
  destruct sorted as [|s0 sorted']; [discriminate|].
  pose proof (Hdesc 0%nat r s0 (Fin x) ltac:(lia) eq_refl Hr) as Hle.
  destruct s0 as [|y]; [discriminate|eauto].
Qed.

(** Top-k keeps the largest score, so a finite one. *)
Lemma top_k_mask_keeps_finite (k : Z) (row : list score) :
  0 < k <= Z.of_nat (length row) -> has_finite_score row ->
  has_finite_score (top_k_mask_row (kth_largest k row) row).
Proof.
  intros Hk [x0 Hx0].
  destruct (kth_largest_rank k row Hk) as (sorted & Hperm & Hdesc & Hkth).
  destruct (descending_head_finite sorted Hdesc) as [x Hx].
  { exists x0. by rewrite Hperm. }
  assert (Hle : score_leb (kth_largest k row) (Fin x) = true).
  { eapply (Hdesc 0%nat (Z.to_nat k - 1)%nat); [lia|exact Hx|exact Hkth]. }
  assert (Hin : Fin x ∈ row).
  { rewrite <- Hperm. by eapply list_elem_of_lookup_2. }
  exists x. unfold top_k_mask_row.
  apply list_elem_of_In, in_map_iff. exists (Fin x). split.
  - unfold score_leb in Hle. apply negb_true_iff in Hle. by rewrite Hle.
  - by apply list_elem_of_In.
Qed.

(** *** The mask of top-p *)

Lemma removelast_lookup {A : Type} (l : list A) :
  forall j, (S j < length l)%nat -> removelast l !! j = l !! j.
Proof.
  induction l as [|x l IH]; intros j Hj; [simpl in Hj; lia|].
  destruct l as [|y l]; [simpl in Hj; lia|].
  change (removelast (x :: y :: l)) with (x :: removelast (y :: l)).
  destruct j as [|j]; [reflexivity|]. simpl in Hj.
  change ((x :: removelast (y :: l)) !! S j)
    with (removelast (y :: l) !! j).
  rewrite IH by (simpl; lia). reflexivity.
Qed.

Lemma removelast_length {A : Type} (l : list A) :
  length (removelast l) = (length l - 1)%nat.
Proof.
  induction l as [|x l IH]; [reflexivity|].
  destruct l as [|y l]; [reflexivity|].
  change (removelast (x :: y :: l)) with (x :: removelast (y :: l)).
  cbn [length] in IH |- *. rewrite IH. lia.
Qed.

Lemma shift_right_length (l : list bool) :
  length (shift_right l) = length l.
Proof.
  destruct l as [|x l]; [reflexivity|]. unfold shift_right.
  cbn [length]. rewrite removelast_length. simpl. lia.
Qed.

Lemma shift_right_lookup (l : list bool) (j : nat) :
  (j < length l)%nat ->
  shift_right l !! j
  = match j with
    | O => Some false
    | S j' => l !! j'
    end.
Proof.
  intros Hj. destruct l as [|x l]; [simpl in Hj; lia|].
  unfold shift_right. destruct j as [|j']; [reflexivity|].
  change ((false :: removelast (x :: l)) !! S j')
    with (removelast (x :: l) !! j').
  by apply removelast_lookup.
Qed.

(** [scatter] leaves alone the positions that are not written. *)
Lemma scatter_row_untouched (idxs : list nat) :
  forall (src self : list bool) (i : nat),
    i ∉ idxs -> scatter_row self idxs src !! i = self !! i.
Proof.
  unfold scatter_row.
  induction idxs as [|a idxs IH]; intros src self i Hi; [reflexivity|].
  destruct src as [|c src]; [reflexivity|]. simpl.
  apply not_elem_of_cons in Hi as [Hne Hi].
  rewrite IH by done. by apply list_lookup_insert_ne.
Qed.

(** With distinct positions, each written position holds its source. *)
Lemma scatter_row_lookup (idxs : list nat) :
  forall (src self : list bool) (j i : nat) (c : bool),
    NoDup idxs -> idxs !! j = Some i -> src !! j = Some c ->
    (i < length self)%nat ->
    scatter_row self idxs src !! i = Some c.
Proof.
  induction idxs as [|a idxs IH]; intros src self j i c Hnd Hi Hc Hlt;
    [discriminate|].
  destruct src as [|c0 src]; [discriminate|].
  apply NoDup_cons in Hnd as [Ha Hnd].
  change (scatter_row self (a :: idxs) (c0 :: src))
    with (scatter_row (<[a:=c0]> self) idxs src).
  destruct j as [|j]; simpl in Hi, Hc.
  - injection Hi as ->. injection Hc as ->.
    rewrite scatter_row_untouched by done.
    by apply list_lookup_insert_eq.
  - eapply IH; [exact Hnd|exact Hi|exact Hc|]. by rewrite length_insert.
Qed.

Lemma scatter_row_length (idxs : list nat) :
  forall (src self : list bool),
    length (scatter_row self idxs src) = length self.
Proof.
  unfold scatter_row.
  induction idxs as [|a idxs IH]; intros src self; [reflexivity|].
  destruct src as [|c src]; [reflexivity|]. simpl.
  by rewrite IH, length_insert.
Qed.

Lemma in_order_lookup (row : list score) (order : list nat) (j i : nat) :
  order !! j = Some i ->
  in_order row order !! j = Some (default NegInf (row !! i)).
Proof. intros H. unfold in_order. by rewrite lookup_map, H. Qed.

Lemma in_order_length (row : list score) (order : list nat) :
  length (in_order row order) = length order.
Proof. unfold in_order. by rewrite length_map. Qed.

Section TopP.
Variable sort_indices : list score -> list nat.
Variable cumulative_probs : list score -> list R.

Lemma sorts_descending_length (row : list score) :
  sorts_descending sort_indices row ->
  length (sort_indices row) = length row.
Proof.
  intros [Hperm _]. by rewrite (Permutation_length Hperm), length_seq.
Qed.

(** Every position of the row has a rank. *)
Lemma sorts_descending_rank (row : list score) (i : nat) :
  sorts_descending sort_indices row -> (i < length row)%nat ->
  exists j, sort_indices row !! j = Some i.
Proof.
  intros [Hperm _] Hi. apply list_elem_of_lookup. rewrite Hperm.
  apply list_elem_of_lookup. exists i. by rewrite lookup_seq_lt.
Qed.

(** And every rank names a position of the row. *)
Lemma sorts_descending_entry (row : list score) (j i : nat) :
  sorts_descending sort_indices row -> sort_indices row !! j = Some i ->
  exists s, row !! i = Some s.
Proof.
  intros [Hperm _] Hj. apply list_elem_of_lookup_2 in Hj.
  rewrite Hperm in Hj. apply list_elem_of_lookup in Hj as [k Hk].
  destruct (Nat.lt_ge_cases k (length row)) as [Hlt|Hge].
  - rewrite lookup_seq_lt in Hk by done. injection Hk as <-.
    by apply lookup_lt_is_Some_2.
  - rewrite lookup_seq_ge in Hk by done. discriminate.
Qed.

Lemma top_p_mask_length (top_p : R) (row : list score) :
  top_p_contract sort_indices cumulative_probs row ->
  length (top_p_mask_row sort_indices cumulative_probs top_p row)
  = length row.
Proof.
  intros [Hsort Hlen]. unfold top_p_mask_row. cbv zeta.
  rewrite length_zip_with, scatter_row_length, shift_right_length,
    length_map.
  fold (in_order row (sort_indices row)). rewrite Hlen. lia.
Qed.

(** The mask of top-p, rank by rank. *)
Lemma top_p_mask_rank (top_p : R) (row : list score) (j i : nat)
  (s : score) :
  top_p_contract sort_indices cumulative_probs row ->
  sort_indices row !! j = Some i -> row !! i = Some s ->
  top_p_mask_row sort_indices cumulative_probs top_p row !! i
  = Some (if removed_rank top_p
               (cumulative_probs (in_order row (sort_indices row))) j
          then NegInf else s).
Proof.
  intros [Hsort Hlen] Hrank Hrow.
  pose proof (sorts_descending_length row Hsort) as Hol.
  pose proof (lookup_lt_Some _ _ _ Hrank) as Hj. rewrite Hol in Hj.
  pose proof (lookup_lt_Some _ _ _ Hrow) as Hi.
  unfold top_p_mask_row. cbv zeta.
  fold (in_order row (sort_indices row)).
  set (sums := cumulative_probs (in_order row (sort_indices row))) in *.
  set (flags := map (fun c => Rgtb c top_p) sums).
  assert (Hfl : length flags = length row).
  { unfold flags. by rewrite length_map. }
  assert (Hrem : shift_right flags !! j
                 = Some (removed_rank top_p sums j)).
  { rewrite shift_right_lookup by lia. destruct j as [|j']; [reflexivity|].
    unfold flags, removed_rank. rewrite lookup_map.
    destruct (lookup_lt_is_Some_2 sums j') as [c Hc]; [lia|].
    by rewrite Hc. }
  assert (Hsc : scatter_row (shift_right flags) (sort_indices row)
                  (shift_right flags) !! i
                = Some (removed_rank top_p sums j)).
  { apply (scatter_row_lookup _ _ _ j).
    - destruct Hsort as [Hperm _]. rewrite Hperm. apply NoDup_seq.
    - exact Hrank.
    - exact Hrem.
    - rewrite shift_right_length. lia. }
  rewrite lookup_zip_with, Hrow, Hsc. simpl.
  destruct (removed_rank top_p sums j); reflexivity.
Qed.

(** Top-p masks nothing but scores of the row. *)
Lemma top_p_mask_entries (top_p : R) (row : list score) (i : nat)
  (x : R) :
  top_p_mask_row sort_indices cumulative_probs top_p row !! i
  = Some (Fin x) ->
  row !! i = Some (Fin x).
Proof.
  unfold top_p_mask_row. cbv zeta. rewrite lookup_zip_with. intros H.
  destruct (row !! i) as [s|]; [|discriminate]. simpl in H.
  destruct (scatter_row _ _ _ !! i) as [[|]|]; simpl in H;
    [discriminate| |discriminate].
  exact H.
Qed.

(** Top-p keeps the score of rank 0, the largest, so a finite one. *)
Lemma top_p_mask_keeps_finite (top_p : R) (row : list score) :
  top_p_contract sort_indices cumulative_probs row ->
  has_finite_score row ->
  has_finite_score
    (top_p_mask_row sort_indices cumulative_probs top_p row).
Proof.
  intros Hc [x Hx]. pose proof Hc as [Hsort _].
  apply list_elem_of_lookup in Hx as [ix Hix].
  destruct (sorts_descending_rank row ix Hsort) as [r Hr];
    [by eapply lookup_lt_Some|].
  assert (Hrx : in_order row (sort_indices row) !! r = Some (Fin x)).
  { rewrite (in_order_lookup row _ r ix Hr), Hix. reflexivity. }
  destruct (descending_head_finite (in_order row (sort_indices row)))
    as [y Hy].
  { by destruct Hsort. }
  { exists x. by eapply list_elem_of_lookup_2. }
  destruct (sort_indices row !! 0%nat) as [i0|] eqn:E0.
  - rewrite (in_order_lookup row _ 0 i0 E0) in Hy.
    destruct (sorts_descending_entry row 0 i0 Hsort E0) as [s0 Hs0].
    rewrite Hs0 in Hy. simpl in Hy. injection Hy as ->.
    exists y. apply (list_elem_of_lookup_2 _ i0).
    rewrite (top_p_mask_rank top_p row 0 i0 (Fin y) Hc E0 Hs0).
    reflexivity.
  - unfold in_order in Hy. rewrite lookup_map, E0 in Hy. discriminate.
Qed.

End TopP.

(** *** The stable order and the exact running sums *)

Lemma map_snd_imap_pair (row : list score) :
  map snd (imap (fun i x => (x, i)) row) = seq 0 (length row).
Proof.
  apply list_eq. intros i. rewrite lookup_map, list_lookup_imap.
  destruct (row !! i) as [x|] eqn:E; simpl.
  - apply lookup_lt_Some in E. by rewrite lookup_seq_lt.
  - apply lookup_ge_None in E. by rewrite lookup_seq_ge.
Qed.

Lemma sort_desc_indices (row : list score) :
  Permutation (map snd (sort_desc row)) (seq 0 (length row)).
Proof.
  unfold sort_desc.
  rewrite (Permutation_map snd (fold_insert_desc_perm _)).
  by rewrite map_snd_imap_pair.
Qed.

Lemma sort_desc_entry (row : list score) (s : score) (i : nat) :
  (s, i) ∈ sort_desc row -> row !! i = Some s.
Proof.
  intros H. unfold sort_desc in H.
  rewrite (fold_insert_desc_perm _) in H.
  apply elem_of_lookup_imap in H as (i' & y & Heq & Hy).
  by injection Heq as -> ->.
Qed.

Lemma in_order_stable (row : list score) :
  in_order row (stable_order row) = map fst (sort_desc row).
Proof.
  unfold in_order, stable_order. rewrite List.map_map.
  apply map_ext_in. intros [s i] Hin. simpl.
  by rewrite (sort_desc_entry row s i) by (by apply list_elem_of_In).
Qed.

(** A stable sort is one of the orders [torch.sort] may return. *)
Lemma stable_order_sorts_descending (row : list score) :
  sorts_descending stable_order row.
Proof.
  split; [apply sort_desc_indices|].
  rewrite in_order_stable. apply sort_desc_descending.
Qed.

Lemma cumsum_from_lookup (l : list R) :
  forall acc j, (j < length l)%nat ->
    cumsum_from acc l !! j = Some (acc + Rsum (take (S j) l))%R.
Proof.
  induction l as [|x l IH]; intros acc j Hj; [simpl in Hj; lia|].
  destruct j as [|j]; simpl.
  - rewrite ?take_0. simpl. f_equal. lra.
  - simpl in Hj. rewrite IH by lia. f_equal. simpl. lra.
Qed.

Lemma cumsum_lookup (l : list R) (j : nat) :
  (j < length l)%nat -> cumsum l !! j = Some (Rsum (take (S j) l)).
Proof.
  intros Hj. unfold cumsum. rewrite cumsum_from_lookup by done.
  f_equal. lra.
Qed.

Lemma cumsum_from_length (l : list R) :
  forall acc, length (cumsum_from acc l) = length l.
Proof. induction l as [|x l IH]; intros acc; simpl; [done|by rewrite IH]. Qed.

Lemma exact_sums_length (l : list score) :
  length (exact_sums l) = length l.
Proof.
  unfold exact_sums, cumsum.
  by rewrite cumsum_from_length, softmax_row_length.
Qed.

Lemma softmax_row_nonneg (row : list score) :
  Forall (fun x => (0 <= x)%R) (softmax_row row).
Proof.
  unfold softmax_row. apply Forall_forall. intros p Hp.
  apply list_elem_of_In, in_map_iff in Hp as (s & <- & _).
  pose proof (Rsum_nonneg _ (weights_nonneg row)) as Hz.
  unfold Rdiv. apply Rmult_le_pos; [apply weight_nonneg|].
  destruct Hz as [Hz|<-]; [left; by apply Rinv_0_lt_compat|].
  rewrite Rinv_0. lra.
Qed.

(** Partial sums of non-negative numbers do not decrease. *)
Lemma Rsum_take_mono (l : list R) :
  Forall (fun x => (0 <= x)%R) l ->
  forall j j', (j <= j')%nat -> (Rsum (take j l) <= Rsum (take j' l))%R.
Proof.
  induction 1 as [|x l Hx Hl IH]; intros j j' Hjj.
  - rewrite !take_nil. lra.
  - destruct j as [|j], j' as [|j']; try lia.
    + rewrite !take_0. lra.
    + rewrite take_0. simpl.
      assert (0 <= Rsum (take j' l))%R; [|lra].
      by apply Rsum_nonneg, Forall_take.
    + simpl. specialize (IH j j' ltac:(lia)). lra.
Qed.

Lemma exact_sums_non_decreasing (l : list score) :
  non_decreasing (exact_sums l).
Proof.
  intros i j a b Hij Ha Hb. unfold exact_sums in *.
  pose proof (lookup_lt_Some _ _ _ Ha) as Hi.
  pose proof (lookup_lt_Some _ _ _ Hb) as Hj.
  unfold cumsum in Hi, Hj. rewrite cumsum_from_length in Hi, Hj.
  rewrite cumsum_lookup in Ha, Hb by done.
  injection Ha as <-. injection Hb as <-.
  apply Rsum_take_mono; [apply softmax_row_nonneg|lia].
Qed.

Lemma exact_sums_within (l : list score) : sums_within 0 l (exact_sums l).
Proof.
  intros j c e Hc He. unfold exact_sums in Hc. rewrite Hc in He.
  injection He as <-. rewrite Rminus_diag, Rabs_R0. lra.
Qed.

(** With the stable order and exact sums the library keeps its
    promises. *)
Lemma stable_exact_contract (row : list score) :
  top_p_contract stable_order exact_sums row.
Proof.
  split; [apply stable_order_sorts_descending|].
  rewrite exact_sums_length, in_order_length.
  unfold stable_order. by rewrite length_map, sort_desc_length.
Qed.

(** *** The common tail of the sampling functions *)

Lemma sample_and_report_spec multinomial (raw : tensor R) (b v : nat)
  (rows : list (list R)) (probs : list (list R)) :
  shape raw = [b; v] -> data raw = concat rows ->
  Forall (fun x => length x = v) rows ->
  forall next_tokens log_probs,
    sample_and_report multinomial b raw probs = Ok (next_tokens, log_probs)
    ->
    next_tokens = Tensor [b] (imap multinomial probs)
    /\ shape log_probs = [b]
    /\ forall r tok, data next_tokens !! r = Some tok ->
         exists row q, rows !! r = Some row /\ row !! tok = Some q
                       /\ data log_probs !! r = Some (ln q).
Proof.
  intros Hs Hd Hall nt lp. unfold sample_and_report.
  destruct (negb (forallb drawable probs)); [discriminate|].
  change (unsqueeze 1 (Tensor [b] (imap multinomial probs)))
    with (Ok (Tensor [b; 1%nat] (imap multinomial probs))).
  cbn [bind Ok].
  rewrite (gather1_column raw b v rows _ Hs Hd Hall).
  destruct (try_map _ _) as [e|out] eqn:E; [discriminate|].
  cbn [bind Ok]. intros H. injection H as <- <-.
  split; [reflexivity|]. split; [reflexivity|].
  intros r tok Hr. cbn [data] in Hr.
  destruct (try_map_lookup _ _ _ E r (r, tok)) as (q & Hq & Hout).
  { rewrite list_lookup_imap, Hr. reflexivity. }
  cbn [fst snd] in Hq.
  destruct (rows !! r) as [row|]; [|discriminate]. simpl in Hq.
  destruct (row !! tok) as [q'|] eqn:Eq; [|discriminate].
  injection Hq as ->. exists row, q. split; [reflexivity|].
  split; [exact Eq|].
  unfold squeeze_last, log. simpl. by rewrite lookup_map, Hout.
Qed.

(** A distribution that cannot be drawn from makes the call raise. *)
Lemma sample_and_report_refuses multinomial (raw : tensor R) (b : nat)
  (probs : list (list R)) (dist : list R) :
  dist ∈ probs -> drawable dist = false ->
  sample_and_report multinomial b raw probs = Raise RuntimeError.
Proof.
  intros Hin Hd. unfold sample_and_report.
  assert (Hf : forallb drawable probs = false).
  { apply not_true_is_false. intros Hall.
    rewrite forallb_forall in Hall.
    rewrite (Hall dist) in Hd; [discriminate|]. by apply list_elem_of_In. }
  by rewrite Hf.
Qed.

Lemma sample_and_report_ok multinomial (raw : tensor R) (b v : nat)
  (rows : list (list R)) (probs : list (list R)) :
  shape raw = [b; v] -> data raw = concat rows ->
  Forall (fun x => length x = v) rows ->
  length probs = length rows ->
  (forall r dist, probs !! r = Some dist -> (multinomial r dist < v)%nat) ->
  Forall (fun dist => drawable dist = true) probs ->
  exists out, sample_and_report multinomial b raw probs = Ok out.
Proof.
  intros Hs Hd Hall Hlen Hdraw Hdrawable. unfold sample_and_report.
  assert (Hf : forallb drawable probs = true).
  { apply forallb_forall. intros dist Hin. rewrite Forall_forall in Hdrawable.
    apply Hdrawable. by apply list_elem_of_In. }
  rewrite Hf. cbn [negb].
  change (unsqueeze 1 (Tensor [b] (imap multinomial probs)))
    with (Ok (Tensor [b; 1%nat] (imap multinomial probs))).
  cbn [bind Ok].
  rewrite (gather1_column raw b v rows _ Hs Hd Hall).
  destruct (try_map_ok
              (fun pv : nat * nat =>
                 match rows !! fst pv ≫= (fun row => row !! snd pv) with
                 | Some x => Ok x
                 | None => Raise RuntimeError
                 end) (imap pair (imap multinomial probs)))
    as [out Hout].
  { intros [p tok] Hin.
    apply list_elem_of_lookup in Hin as [i Hi].
    rewrite list_lookup_imap in Hi.
    destruct (imap multinomial probs !! i) as [tok'|] eqn:Et;
      [|discriminate].
    simpl in Hi. injection Hi as <- <-.
    rewrite list_lookup_imap in Et.
    destruct (probs !! i) as [dist|] eqn:Ed; [|discriminate].
    simpl in Et. injection Et as <-. cbn [fst snd].
    destruct (rows !! i) as [row|] eqn:Er.
    - simpl. rewrite Forall_forall in Hall.
      destruct (lookup_lt_is_Some_2 row (multinomial i dist)) as [q Hq].
      { rewrite (Hall row); [by eapply Hdraw|].
        by eapply list_elem_of_lookup_2. }
      rewrite Hq. eauto.
    - apply lookup_ge_None in Er. apply lookup_lt_Some in Ed. lia. }
  rewrite Hout. cbn [bind Ok]. eauto.
Qed.

(** *** When the sampling calls return *)

Lemma top_k_sampling_returns multinomial (t : tensor score) (b v : nat)
  (k : Z) :
  shape t = [b; v] -> tensor_wf t ->
  0 < k <= Z.of_nat v ->
  (forall r dist, (multinomial r dist < v)%nat) ->
  Forall has_finite_score (rows_of t) ->
  exists out, top_k_sampling_batch multinomial t k = Ok out.
Proof.
  intros Hs Hwf Hk Hdraw Hfin.
  destruct (softmax_rows t b v Hs Hwf) as (Hsh & Hdata & Hsall).
  destruct (rows_of_matrix t b v Hs Hwf) as [_ Hrl].
  unfold top_k_sampling_batch.
  rewrite (ProducerFacts.promote_2d t b v Hs). cbn [bind Ok].
  unfold size2. rewrite Hs. cbn [bind Ok].
  rewrite (top_k_probs_spec t b v k Hs Hwf).
  destruct (Z.ltb_spec k 0); [lia|].
  destruct (Z.ltb_spec (Z.of_nat v) k); [lia|].
  destruct (Z.eqb_spec k 0); [lia|]. cbn [orb bind Ok].
  apply (sample_and_report_ok multinomial (softmax t)
           b v (map softmax_row (rows_of t)) _ Hsh Hdata Hsall).
  - by rewrite !length_map.
  - intros r dist _. apply Hdraw.
  - apply Forall_forall. intros dist Hin.
    apply list_elem_of_In, in_map_iff in Hin as (row & <- & Hrow).
    apply list_elem_of_In in Hrow.
    rewrite Forall_forall in Hfin, Hrl.
    apply softmax_row_drawable, top_k_mask_keeps_finite;
      [rewrite (Hrl row Hrow); lia|by apply Hfin].
Qed.

Lemma top_p_sampling_returns multinomial sort_indices cumulative_probs
  (t : tensor score) (b v : nat) (p : R) :
  shape t = [b; v] -> tensor_wf t ->
  (0 < v)%nat ->
  (forall r dist, (multinomial r dist < v)%nat) ->
  Forall (fun row => has_finite_score row
                     /\ top_p_contract sort_indices cumulative_probs row)
    (rows_of t) ->
  exists out,
    top_p_sampling_batch multinomial sort_indices cumulative_probs t p
    = Ok out.
Proof.
  intros Hs Hwf Hv Hdraw Hrows.
  destruct (softmax_rows t b v Hs Hwf) as (Hsh & Hdata & Hsall).
  unfold top_p_sampling_batch.
  rewrite (ProducerFacts.promote_2d t b v Hs). cbn [bind Ok].
  unfold size2. rewrite Hs. cbn [bind Ok]. unfold top_p_probs.
  destruct (Nat.eqb_spec v 0); [lia|]. cbn [bind Ok].
  apply (sample_and_report_ok multinomial (softmax t)
           b v (map softmax_row (rows_of t)) _ Hsh Hdata Hsall).
  - by rewrite !length_map.
  - intros r dist _. apply Hdraw.
  - apply Forall_forall. intros dist Hin.
    apply list_elem_of_In, in_map_iff in Hin as (row & <- & Hrow).
    apply list_elem_of_In in Hrow. rewrite Forall_forall in Hrows.
    destruct (Hrows row Hrow) as [Hfin Hc].
    by apply softmax_row_drawable, top_p_mask_keeps_finite.
Qed.

(** A row without a finite score makes top-p raise. *)
Lemma top_p_sampling_refuses multinomial sort_indices cumulative_probs
  (t : tensor score) (b v : nat) (p : R) (row : list score) :
  shape t = [b; v] -> (0 < v)%nat ->
  row ∈ rows_of t -> ~ has_finite_score row ->
  top_p_sampling_batch multinomial sort_indices cumulative_probs t p
  = Raise RuntimeError.
Proof.
  intros Hs Hv Hrow Hnone.
  unfold top_p_sampling_batch.
  rewrite (ProducerFacts.promote_2d t b v Hs). cbn [bind Ok].
  unfold size2. rewrite Hs. cbn [bind Ok]. unfold top_p_probs.
  destruct (Nat.eqb_spec v 0); [lia|]. cbn [bind Ok].
  apply (sample_and_report_refuses _ _ _ _
           (softmax_row (top_p_mask_row sort_indices cumulative_probs p
                           row))).
  - apply list_elem_of_In, in_map_iff. exists row.
    split; [reflexivity|by apply list_elem_of_In].
  - apply softmax_row_not_drawable. intros [x Hx]. apply Hnone.
    apply list_elem_of_lookup in Hx as [i Hi]. exists x.
    apply (list_elem_of_lookup_2 _ i).
    by eapply top_p_mask_entries.
Qed.

(** A row without a finite score makes top-k raise. *)
Lemma top_k_sampling_refuses multinomial (t : tensor score) (b v : nat)
  (k : Z) (row : list score) :
  shape t = [b; v] -> tensor_wf t -> 0 < k <= Z.of_nat v ->
  row ∈ rows_of t -> ~ has_finite_score row ->
  top_k_sampling_batch multinomial t k = Raise RuntimeError.
Proof.
  intros Hs Hwf Hk Hrow Hnone.
  unfold top_k_sampling_batch.
  rewrite (ProducerFacts.promote_2d t b v Hs). cbn [bind Ok].
  unfold size2. rewrite Hs. cbn [bind Ok].
  rewrite (top_k_probs_spec t b v k Hs Hwf).
  destruct (Z.ltb_spec k 0); [lia|].
  destruct (Z.ltb_spec (Z.of_nat v) k); [lia|].
  destruct (Z.eqb_spec k 0); [lia|]. cbn [orb bind Ok].
  apply (sample_and_report_refuses _ _ _ _
           (softmax_row (top_k_mask_row (kth_largest k row) row))).
  - apply list_elem_of_In, in_map_iff. exists row.
    split; [reflexivity|by apply list_elem_of_In].
  - apply softmax_row_not_drawable. intros [x Hx]. apply Hnone.
    unfold top_k_mask_row in Hx.
    apply list_elem_of_In, in_map_iff in Hx as (s & Hs' & Hin).
    exists x. apply list_elem_of_In.
    destruct (score_ltb s (kth_largest k row)); [discriminate|].
    by subst s.
Qed.

End SamplingFacts.

(** C7. Top-k sampling on a well-formed score matrix.  In the distribution
    a row's token is drawn from, every token of non-zero probability has a
    score that is at least the [k]-th largest score of the row.  Whatever
    token is drawn, the value reported for it is the natural logarithm of
    its probability under the softmax of the unrestricted row.  The call
    returns when [1 <= k <= vocab], every row has a finite score and the
    draws are vocabulary indices; with [1 <= k <= vocab] and a row without
    a finite score, whose softmax cannot be drawn from, it raises
    [RuntimeError].  (Scores are reals extended with [-inf]; probabilities
    are reals.) *)
Theorem top_k_sampling_bound
  (multinomial : nat -> list R -> nat) (logits : tensor score)
  (b v : nat) (top_k : Z)
  (Hshape : shape logits = [b; v]) (Hwf : tensor_wf logits) :
  (forall probs, top_k_probs logits top_k = Ok probs ->
     length probs = b
     /\ forall r row dist i p,
          rows_of logits !! r = Some row -> probs !! r = Some dist ->
          dist !! i = Some p -> p <> 0%R ->
          exists s, row !! i = Some s
                    /\ score_leb (kth_largest top_k row) s = true)
  /\ (forall next_tokens log_probs,
        top_k_sampling_batch multinomial logits top_k
        = Ok (next_tokens, log_probs) ->
        exists probs,
          top_k_probs logits top_k = Ok probs
          /\ data next_tokens = imap multinomial probs
          /\ forall r row tok,
               rows_of logits !! r = Some row ->
               data next_tokens !! r = Some tok ->
               exists q, softmax_row row !! tok = Some q
                         /\ data log_probs !! r = Some (ln q))
  /\ (0 < top_k <= Z.of_nat v ->
      (forall r dist, (multinomial r dist < v)%nat) ->
      Forall has_finite_score (rows_of logits) ->
      exists out, top_k_sampling_batch multinomial logits top_k = Ok out)
  /\ (0 < top_k <= Z.of_nat v ->
      forall row, row ∈ rows_of logits -> ~ has_finite_score row ->
      top_k_sampling_batch multinomial logits top_k = Raise RuntimeError).
Proof.
  destruct (RowFacts.rows_of_matrix logits b v Hshape Hwf) as [Hlen Hall].
  destruct (SamplingFacts.softmax_rows logits b v Hshape Hwf)
    as (Hsh & Hdata & Hsall).
  pose proof (SamplingFacts.top_k_probs_spec logits b v top_k Hshape Hwf)
    as Hspec.
  split; [|split; [|split]].
  - intros probs Hp. rewrite Hspec in Hp.
    destruct ((top_k <? 0) || (Z.of_nat v <? top_k)); [discriminate|].
    destruct (top_k =? 0); [discriminate|].
    injection Hp as <-. split; [by rewrite length_map|].
    intros r row dist i p Hr Hd Hi Hne.
    rewrite RowFacts.lookup_map, Hr in Hd. simpl in Hd. injection Hd as <-.
    destruct (SamplingFacts.softmax_row_support _ _ _ Hi Hne) as [x Hx].
    unfold top_k_mask_row in Hx. rewrite RowFacts.lookup_map in Hx.
    destruct (row !! i) as [s|]; [|discriminate]. simpl in Hx.
    exists s. split; [reflexivity|]. unfold score_leb.
    destruct (score_ltb s (kth_largest top_k row)); [discriminate|].
    reflexivity.
  - intros nt lp. unfold top_k_sampling_batch.
    rewrite (ProducerFacts.promote_2d logits b v Hshape). cbn [bind Ok].
    unfold size2. rewrite Hshape. cbn [bind Ok].
    destruct (top_k_probs logits top_k) as [e|probs]; [discriminate|].
    cbn [bind Ok]. intros Hrun. exists probs. split; [reflexivity|].
    destruct (SamplingFacts.sample_and_report_spec multinomial
                (softmax logits) b v (map softmax_row (rows_of logits))
                probs Hsh Hdata Hsall nt lp Hrun) as (-> & _ & Hrep).
    split; [reflexivity|]. intros r row tok Hr Ht.
    destruct (Hrep r tok Ht) as (row' & q & Hrow' & Hq & Hlp).
    rewrite RowFacts.lookup_map, Hr in Hrow'. simpl in Hrow'.
    injection Hrow' as <-. eauto.
  - intros Hk Hdraw Hfin.
    by apply (SamplingFacts.top_k_sampling_returns multinomial logits b v).
  - intros Hk row Hrow Hnone.
    by apply (SamplingFacts.top_k_sampling_refuses multinomial logits b v
                top_k row).
Qed.

Lemma top_k_sampling_bound_witness :
  let logits := Tensor [1%nat; 2%nat] [Fin 0; Fin 1] in
  shape logits = [1%nat; 2%nat]
  /\ tensor_wf logits
  /\ Forall has_finite_score (rows_of logits)
  /\ exists out, top_k_sampling_batch (fun _ _ => 0%nat) logits 1 = Ok out.
Proof.
  cbv zeta. split; [reflexivity|]. split; [reflexivity|].
  assert (Hfin : Forall has_finite_score
                   (rows_of (Tensor [1%nat; 2%nat] [Fin 0; Fin 1]))).
  { change (rows_of (Tensor [1%nat; 2%nat] [Fin 0; Fin 1]))
      with [[Fin 0; Fin 1]].
    constructor; [|constructor]. exists 0%R. apply elem_of_cons. by left. }
  split; [exact Hfin|].
  apply (top_k_sampling_bound (fun _ _ => 0%nat)
           (Tensor [1%nat; 2%nat] [Fin 0; Fin 1]) 1 2 1 eq_refl eq_refl).
  - lia.
  - intros _ _. lia.
  - exact Hfin.
Defined.

(** C8 as stated fails for the greedy policy: on a 1-D score vector it
    raises, while on the single-row matrix of the same scores it returns. *)
Lemma greedy_does_not_promote_1d :
  greedy_search_sampling_batch (Tensor [1%nat] [Fin 0]) = Raise IndexError
  /\ is_ok (greedy_search_sampling_batch (Tensor [1%nat; 1%nat] [Fin 0]))
     = true.
Proof. split; reflexivity. Qed.

(** C8 (amended). Top-k and top-p sampling promote a 1-D score vector to a
    single-row matrix: on the vector they return, or raise, exactly what
    they do on the 1-by-vocabulary matrix of the same scores.  They do
    return when the vector has as many scores as its shape says and at
    least one finite score, the draw is a vocabulary index and, for top-k,
    [1 <= k <= vocab], for top-p, the vocabulary is not empty and the
    library's sort and running sums keep their promises on the vector; on
    a vector without a finite score they raise, as they do on the matrix.
    Greedy sampling does not promote: it raises on every 1-D score
    vector. *)
Theorem sampling_promotes_1d_input
  (multinomial : nat -> list R -> nat)
  (sort_indices : list score -> list nat)
  (cumulative_probs : list score -> list R)
  (scores : list score) (n : nat) (top_k : Z) (top_p : R) :
  let vector := Tensor [n] scores in
  let matrix := Tensor [1%nat; n] scores in
  let drawn_in_range := forall r dist, (multinomial r dist < n)%nat in
  let top_k_on t := top_k_sampling_batch multinomial t top_k in
  let top_p_on t :=
    top_p_sampling_batch multinomial sort_indices cumulative_probs t top_p in
  top_k_on vector = top_k_on matrix
  /\ top_p_on vector = top_p_on matrix
  /\ (length scores = n -> drawn_in_range -> 0 < top_k <= Z.of_nat n ->
      has_finite_score scores ->
      is_ok (top_k_on vector) = true)
  /\ (length scores = n -> drawn_in_range -> (0 < n)%nat ->
      has_finite_score scores ->
      top_p_contract sort_indices cumulative_probs scores ->
      is_ok (top_p_on vector) = true)
  /\ (length scores = n -> ~ has_finite_score scores ->
      (0 < top_k <= Z.of_nat n ->
       top_k_on vector = Raise RuntimeError)
      /\ ((0 < n)%nat -> top_p_on vector = Raise RuntimeError))
  /\ is_ok (greedy_search_sampling_batch vector) = false.
Proof.
  cbv zeta.
  assert (Hwf : length scores = n -> tensor_wf (Tensor [1%nat; n] scores)).
  { intros H. unfold tensor_wf. simpl. lia. }
  assert (Hk1 : top_k_sampling_batch multinomial (Tensor [n] scores) top_k
                = top_k_sampling_batch multinomial
                    (Tensor [1%nat; n] scores) top_k) by reflexivity.
  assert (Hp1 : top_p_sampling_batch multinomial sort_indices
                  cumulative_probs (Tensor [n] scores) top_p
                = top_p_sampling_batch multinomial sort_indices
                    cumulative_probs (Tensor [1%nat; n] scores) top_p)
    by reflexivity.
  split; [exact Hk1|]. split; [exact Hp1|].
  split; [|split; [|split]].
  - intros Hlen Hdraw Hk Hfin. rewrite Hk1.
    destruct (SamplingFacts.top_k_sampling_returns multinomial
                (Tensor [1%nat; n] scores) 1 n top_k eq_refl (Hwf Hlen)
                Hk Hdraw) as [out ->]; [|reflexivity].
    rewrite (RowFacts.rows_of_one_row scores n Hlen).
    by constructor.
  - intros Hlen Hdraw Hn Hfin Hc. rewrite Hp1.
    destruct (SamplingFacts.top_p_sampling_returns multinomial sort_indices
                cumulative_probs (Tensor [1%nat; n] scores) 1 n top_p
                eq_refl (Hwf Hlen) Hn Hdraw) as [out ->]; [|reflexivity].
    rewrite (RowFacts.rows_of_one_row scores n Hlen).
    by constructor.
  - intros Hlen Hnone.
    assert (Hrow : scores ∈ rows_of (Tensor [1%nat; n] scores)).
    { rewrite (RowFacts.rows_of_one_row scores n Hlen).
      apply elem_of_cons. by left. }
    split.
    + intros Hk. rewrite Hk1.
      by apply (SamplingFacts.top_k_sampling_refuses multinomial
                  (Tensor [1%nat; n] scores) 1 n top_k scores eq_refl
                  (Hwf Hlen)).
    + intros Hn. rewrite Hp1.
      by apply (SamplingFacts.top_p_sampling_refuses multinomial
                  sort_indices cumulative_probs
                  (Tensor [1%nat; n] scores) 1 n top_p scores eq_refl).
  - unfold greedy_search_sampling_batch, argmax. cbn [shape].
    destruct (last_dim [n] =? 0)%nat; [reflexivity|].
    destruct (try_map argmax_row _) as [e|idx]; reflexivity.
Qed.

(* ================================================================== *)
(** * Part III: further properties of the decoders                     *)
(* ================================================================== *)

(** ** The stop-word rule *)

Lemma py_suffix_matches (phrase toks : list Z) :
  ((length phrase <= length toks)%nat
   /\ py_suffix (length phrase) toks = phrase)
  <-> (phrase <> [] /\ phrase `suffix_of` toks)
      \/ (phrase = [] /\ toks = []).
Proof.
  destruct phrase as [|x phrase].
  - simpl. split.
    + intros [_ ->]. by right.
    + intros [[H _]|[_ ->]]; [done|]. split; [lia|reflexivity].
  - cbn [py_suffix length]. split.
    + intros [Hlen Heq]. left. split; [done|].
      exists (take (length toks - S (length phrase)) toks).
      rewrite <- Heq. by rewrite take_drop.
    + intros [[_ [k ->]]|[H _]]; [|done].
      rewrite length_app. simpl. split; [lia|].
      replace (length k + S (length phrase) - S (length phrase))%nat
        with (length k) by lia.
      by rewrite drop_app_length.
Qed.

(** X1. [_meet_stop_token_criteria] answers yes exactly when the request
    has a stop-word table and some phrase of it, cut out of the flat token
    list between two consecutive prefix sums (from 0 for the first), is
    non-empty and a suffix of the beam-0 tokens.  An empty phrase matches
    only a request that has no tokens at all. *)
Theorem stop_words_fire_iff_suffix (request : LlmRequest) :
  TorchDecoder._meet_stop_token_criteria request = true
  <-> exists stop_words_list prefix_sum i offset_end,
        py_stop_words_list request = Some (stop_words_list, prefix_sum)
        /\ prefix_sum !! i = Some offset_end
        /\ let start :=
             match i with
             | O => 0%nat
             | S j => default 0%nat (prefix_sum !! j)
             end in
           let phrase := py_slice start offset_end stop_words_list in
           (phrase <> [] /\ phrase `suffix_of` get_tokens request 0)
           \/ (phrase = [] /\ get_tokens request 0 = []).
Proof.
  unfold TorchDecoder._meet_stop_token_criteria.
  destruct (py_stop_words_list request) as [[swl ps]|].
  - rewrite StopCriteriaFacts.stop_words_loop_iff. split.
    + intros (i & e & Hi & Hm). exists swl, ps, i, e.
      split; [reflexivity|]. split; [exact Hi|].
      cbv zeta in *. by apply py_suffix_matches.
    + intros (swl' & ps' & i & e & Heq & Hi & Hm).
      injection Heq as <- <-. exists i, e. split; [exact Hi|].
      cbv zeta in *. by apply py_suffix_matches.
  - split; [discriminate|]. intros (? & ? & ? & ? & H & _). discriminate.
Qed.

(** ** The early-stop decoder with too few score rows *)

Lemma early_stop_update_loop_short (t : tensor score) (n : nat)
  (s : list nat) :
  shape t = n :: s ->
  forall (requests : list LlmRequest) (idx : nat),
    (idx <= n < idx + length requests)%nat ->
    exists out,
      EarlyStopDecoder.update_loop (Some t) idx requests
      = (out, Raise IndexError)
      /\ length out = length requests
      /\ (forall i request, (idx + i < n)%nat ->
          requests !! i = Some request ->
          exists row,
            index0 t (idx + i) = Ok row
            /\ out !! i
               = Some (append_context_logits (terminated request LENGTH 0)
                         (with_vocab_axis row)))
      /\ (forall request, requests !! (n - idx)%nat = Some request ->
          out !! (n - idx)%nat = Some (terminated request LENGTH 0))
      /\ (forall i, (n < idx + i)%nat -> out !! i = requests !! i).
Proof.
  intros Hs. induction requests as [|request rest IH]; intros idx Hidx;
    [simpl in Hidx; lia|].
  cbn [EarlyStopDecoder.update_loop]. simpl in Hidx.
  destruct (decide (idx = n)) as [->|Hne].
  - exists (terminated request LENGTH 0 :: rest).
    assert (Hraise : EarlyStopDecoder.update_one (Some t) n request
                     = (terminated request LENGTH 0, Raise IndexError)).
    { unfold EarlyStopDecoder.update_one, index0. rewrite Hs.
      rewrite Nat.ltb_irrefl. reflexivity. }
    rewrite Hraise. split; [reflexivity|]. split; [reflexivity|].
    split; [intros; lia|]. rewrite Nat.sub_diag. split.
    + intros r Hr. simpl in Hr. injection Hr as <-. reflexivity.
    + intros [|i] Hi; [lia|]. reflexivity.
  - destruct (EarlyStopFacts.index0_in_range t n s idx Hs) as [row Hrow];
      [lia|].
    rewrite (EarlyStopFacts.update_one_ok _ _ _ _ Hrow). unfold Ok at 1.
    destruct (IH (S idx)) as (out & Hout & Hl & Hbefore & Hat & Hafter);
      [lia|].
    rewrite Hout.
    exists (append_context_logits (terminated request LENGTH 0)
              (with_vocab_axis row) :: out).
    split; [reflexivity|]. split; [simpl; by rewrite Hl|].
    split; [|split].
    + intros [|i] r Hi Hr; simpl in Hr.
      * injection Hr as <-. exists row. by rewrite Nat.add_0_r.
      * destruct (Hbefore i r) as (row' & Hr' & Ho'); [lia|done|].
        exists row'. by rewrite <- Nat.add_succ_comm.
    + replace (n - idx)%nat with (S (n - S idx)) by lia. simpl.
      exact Hat.
    + intros [|i] Hi; [lia|]. simpl. apply Hafter. lia.
Qed.

(** X2. When the score tensor has fewer rows than the batch has context
    requests, the early-stop commit raises [IndexError] part-way: the
    requests that have a row are completed and their rows recorded, the
    first request without a row is already marked complete with reason
    [LENGTH] but has nothing recorded, and the requests behind it are not
    touched. *)
Theorem early_stop_short_scores (decoder_state : DecoderState)
  (t : tensor score) (n : nat) (s : list nat)
  (Hgen : generation_requests (scheduled_requests decoder_state) = [])
  (Hlogits : logits decoder_state = Some t)
  (Hshape : shape t = n :: s)
  (Hshort : (n < length (context_requests
                           (scheduled_requests decoder_state)))%nat) :
  let ctx := context_requests (scheduled_requests decoder_state) in
  let out := EarlyStopDecoder.update_requests decoder_state in
  snd out = Raise IndexError
  /\ length (fst out) = length ctx
  /\ (forall i request, (i < n)%nat -> ctx !! i = Some request ->
      exists row,
        index0 t i = Ok row
        /\ fst out !! i
           = Some (append_context_logits (terminated request LENGTH 0)
                     (with_vocab_axis row)))
  /\ (forall request, ctx !! n = Some request ->
      fst out !! n = Some (terminated request LENGTH 0))
  /\ (forall i, (n < i)%nat -> fst out !! i = ctx !! i).
Proof.
  cbv zeta. unfold EarlyStopDecoder.update_requests. rewrite Hgen, Hlogits.
  destruct (early_stop_update_loop_short t n s Hshape
              (context_requests (scheduled_requests decoder_state)) 0%nat)
    as (out & Hout & Hl & Hbefore & Hat & Hafter); [lia|].
  rewrite Hout. simpl. rewrite Nat.sub_0_r in Hat.
  split; [reflexivity|]. split; [exact Hl|].
  split; [|split]; [intros i r Hi Hr; by apply (Hbefore i r)
                   |exact Hat|intros i Hi; by apply Hafter].
Qed.

Lemma early_stop_short_scores_witness :
  let r := sample_request CONTEXT_INIT [7] None false in
  let decoder_state :=
    mkDecoderState (mkScheduledRequests [r; r] [] None)
      (Some (Tensor [1%nat; 1%nat] [Fin 1])) None [] in
  generation_requests (scheduled_requests decoder_state) = []
  /\ (1 < length (context_requests (scheduled_requests decoder_state)))%nat
  /\ snd (EarlyStopDecoder.update_requests decoder_state) = Raise IndexError.
Proof.
  cbv zeta. split; [reflexivity|]. split; [simpl; lia|].
  apply (early_stop_short_scores
           (mkDecoderState
              (mkScheduledRequests
                 [sample_request CONTEXT_INIT [7] None false;
                  sample_request CONTEXT_INIT [7] None false] [] None)
              (Some (Tensor [1%nat; 1%nat] [Fin 1])) None [])
           (Tensor [1%nat; 1%nat] [Fin 1]) 1 [1%nat]
           eq_refl eq_refl eq_refl).
  simpl. lia.
Defined.

(** ** When the commit of the simple batched decoder returns *)

Module ReturnFacts.
Import TorchDecoder.

Section Facts.
Variable max_seq_len : Z.
Variable decoder_state : DecoderState.

Lemma silent_config r r' :
  config_of r' = config_of r -> silent decoder_state r ->
  silent decoder_state r'.
Proof.
  intros Hc [Hn|[Hg Hl]]; [by left|right].
  unfold config_of in Hc. injection Hc as _ _ _ _ _ _ _ Hg' Hl' _ _.
  split; congruence.
Qed.

Lemma handle_logits_silent' token_idx request_idx r count :
  silent decoder_state r ->
  handle_logits decoder_state token_idx request_idx r count = (r, Ok tt).
Proof. intros H. by apply UpdateFacts.handle_logits_silent. Qed.

Lemma commit_row_returns token_idx request_idx r tok :
  new_tokens_host decoder_state !! token_idx = Some tok ->
  silent decoder_state r ->
  exists r', commit_row max_seq_len decoder_state token_idx request_idx r
             = (r', Ok tt).
Proof.
  intros Hread Hs. unfold commit_row, new_tokens_list. rewrite Hread.
  pose proof (UpdateFacts.add_new_token_config r tok beam_idx) as Hc1.
  destruct (add_new_token r tok beam_idx) as [r1 n1]. simpl in Hc1.
  pose proof (UpdateFacts.handle_stop_criteria_frame max_seq_len r1 tok n1
                beam_idx) as Hfr.
  cbv zeta in Hfr.
  destruct (_handle_stop_criteria max_seq_len r1 tok n1 beam_idx)
    as [r2 stop]. simpl in Hfr. destruct Hfr as (Hc2 & _).
  rewrite handle_logits_silent'; [eauto|].
  apply (silent_config r); [congruence|exact Hs].
Qed.

Lemma context_step_returns idx r :
  (snd idx + 1 <= length (new_tokens_host decoder_state))%nat ->
  silent decoder_state r ->
  exists r', context_step max_seq_len decoder_state idx r
             = (r', Ok (S (fst idx), (snd idx + 1)%nat)).
Proof.
  destruct idx as [ri ti]. cbn [fst snd]. intros Hlen Hs.
  unfold context_step. rewrite Nat.add_1_r.
  destruct (negb (get_context_remaining_length r =? 0)); [eauto|].
  destruct (negb (LlmRequestState_eqb (state r) GENERATION_COMPLETE));
    [|eauto].
  destruct (lookup_lt_is_Some_2 (new_tokens_host decoder_state) ti)
    as [tok Htok]; [lia|].
  destruct (commit_row_returns ti ri r tok Htok Hs) as [r' ->]. eauto.
Qed.

Lemma generation_step_returns idx r :
  (snd idx + 1 <= length (new_tokens_host decoder_state))%nat ->
  silent decoder_state r ->
  exists r', generation_step max_seq_len decoder_state idx r
             = (r', Ok (S (fst idx), (snd idx + 1)%nat)).
Proof.
  destruct idx as [ri ti]. cbn [fst snd]. intros Hlen Hs.
  unfold generation_step. rewrite Nat.add_1_r.
  destruct (negb (LlmRequestState_eqb (state r) GENERATION_COMPLETE));
    [|eauto].
  destruct (lookup_lt_is_Some_2 (new_tokens_host decoder_state) ti)
    as [tok Htok]; [lia|].
  destruct (commit_row_returns ti ri r tok Htok Hs) as [r' ->]. eauto.
Qed.

Lemma accept_drafts_returns token_idx :
  forall drafts r new_token a,
    (token_idx + a + length drafts
     < length (new_tokens_host decoder_state))%nat ->
    exists r' k,
      accept_drafts max_seq_len decoder_state token_idx drafts r new_token a
      = (r', Ok k).
Proof.
  induction drafts as [|d rest IH]; intros r new_token a Hlen;
    cbn [accept_drafts]; [eauto|].
  destruct (negb (d =? new_token)); [eauto|].
  destruct (lookup_lt_is_Some_2 (new_tokens_host decoder_state)
              (token_idx + S a)) as [tok Htok]; [simpl in Hlen; lia|].
  unfold new_tokens_list. rewrite Htok.
  destruct (add_new_token r tok beam_idx) as [r1 n1].
  destruct (_handle_stop_criteria max_seq_len r1 tok n1 beam_idx)
    as [r2 [|]]; [eauto|].
  apply IH. simpl in Hlen. lia.
Qed.

Lemma extend_step_returns idx r :
  is_extend r = true ->
  (snd idx + extend_width r <= length (new_tokens_host decoder_state))%nat ->
  silent decoder_state r ->
  exists r', extend_step max_seq_len decoder_state idx r
             = (r', Ok (S (fst idx), (snd idx + extend_width r)%nat)).
Proof.
  destruct idx as [ri ti]. cbn [fst snd]. unfold is_extend, extend_width.
  destruct (py_draft_tokens r) as [drafts|] eqn:Hd; [|discriminate].
  intros _ Hlen Hs. simpl in Hlen. unfold extend_step.
  destruct (negb (LlmRequestState_eqb (state r) GENERATION_COMPLETE));
    [|rewrite Hd; eauto].
  pose proof (UpdateFacts.extend_commit_evolves max_seq_len decoder_state
                ti ri r) as Hev.
  apply UpdateFacts.evolves_draft_tokens in Hev.
  assert (Hok : exists r', extend_commit max_seq_len decoder_state ti ri r
                           = (r', Ok tt)).
  { unfold extend_commit, new_tokens_list.
    destruct (lookup_lt_is_Some_2 (new_tokens_host decoder_state) ti)
      as [tok Htok]; [lia|].
    rewrite Htok.
    pose proof (UpdateFacts.add_new_token_config r tok beam_idx) as Hc1.
    destruct (add_new_token r tok beam_idx) as [r1 n1]. simpl in Hc1.
    pose proof (UpdateFacts.handle_stop_criteria_frame max_seq_len r1 tok
                  n1 beam_idx) as Hfr.
    cbv zeta in Hfr.
    destruct (_handle_stop_criteria max_seq_len r1 tok n1 beam_idx)
      as [r2 stop]. simpl in Hfr. destruct Hfr as (Hc2 & _).
    assert (Hc : config_of r2 = config_of r) by congruence.
    assert (Hd2 : py_draft_tokens r2 = Some drafts).
    { unfold config_of in Hc. injection Hc as _ _ _ _ -> _ _ _ _ _ _.
      exact Hd. }
    rewrite Hd2.
    destruct (accept_drafts_returns ti drafts r2 tok 0) as (r3 & k & Hrun);
      [lia|].
    pose proof (UpdateFacts.accept_drafts_evolves max_seq_len decoder_state
                  ti drafts r2 tok 0) as [_ Hc3].
    rewrite Hrun in Hc3 |- *. simpl in Hc3. unfold Ok at 1.
    cbv beta iota.
    rewrite handle_logits_silent'; [eauto|].
    apply (silent_config r); [congruence|exact Hs]. }
  destruct Hok as [r' Hr']. rewrite Hr' in Hev |- *. simpl in Hev.
  rewrite Hev, Hd. eauto.
Qed.

Lemma for_each_returns
  (step : nat * nat -> LlmRequest -> LlmRequest * result (nat * nat))
  (width : LlmRequest -> nat) (P : LlmRequest -> Prop) (L : nat) :
  (forall idx r, P r -> (snd idx + width r <= L)%nat ->
                 exists r', step idx r
                            = (r', Ok (S (fst idx),
                                       (snd idx + width r)%nat))) ->
  forall requests idx,
    Forall P requests ->
    (snd idx + sum_list (map width requests) <= L)%nat ->
    exists out,
      for_each step idx requests
      = (out, Ok ((fst idx + length requests)%nat,
                  (snd idx + sum_list (map width requests))%nat)).
Proof.
  intros Hstep. induction requests as [|r rest IH]; intros idx HP Hlen;
    cbn [for_each].
  - exists []. simpl. rewrite !Nat.add_0_r. by destruct idx.
  - apply Forall_cons in HP as [Hr Hrest]. simpl in Hlen.
    destruct (Hstep idx r Hr) as [r' ->]; [lia|].
    destruct (IH (S (fst idx), (snd idx + width r)%nat) Hrest)
      as [out Hout]; [simpl; lia|].
    cbn [fst snd] in Hout. unfold Ok at 1. cbv beta iota.
    rewrite Hout. exists (r' :: out). simpl. do 3 f_equal; lia.
Qed.

Lemma Forall_filter_keep {A : Type} (P : A -> Prop) (f : A -> bool)
  (l : list A) :
  Forall P l -> Forall (fun x => P x /\ f x = true) (List.filter f l).
Proof.
  induction 1 as [|x l Hx _ IH]; simpl; [constructor|].
  destruct (f x) eqn:E; [constructor|]; auto.
Qed.

End Facts.
End ReturnFacts.

(** X3. The commit of the simple batched decoder returns, raising nothing,
    whenever the token buffer holds every row it walks over and nothing is
    to be captured (there are no scores, or no request asks for logits or
    log-probabilities).  It ends with the request counter at the number of
    requests, chunked ones included, and the row counter at the number of
    rows walked. *)
Theorem update_requests_returns
  (max_seq_len : Z) (decoder_state : DecoderState)
  (Hsilent : logits decoder_state = None
             \/ Forall asks_no_logits
                  (context_requests (scheduled_requests decoder_state)
                   ++ generation_requests (scheduled_requests decoder_state)))
  (Hrows : (rows_walked (scheduled_requests decoder_state)
            <= length (new_tokens_host decoder_state))%nat) :
  let scheduled := scheduled_requests decoder_state in
  TorchDecoder.upd_result
    (TorchDecoder.update_requests max_seq_len decoder_state)
  = Ok ((length (context_requests scheduled)
         + length (default [] (chunked_requests scheduled))
         + length (List.filter TorchDecoder.is_extend
                     (generation_requests scheduled))
         + length (List.filter (fun r => negb (TorchDecoder.is_extend r))
                     (generation_requests scheduled)))%nat,
        rows_walked scheduled).
Proof.
  cbv zeta. unfold rows_walked in *.
  set (scheduled := scheduled_requests decoder_state) in *.
  set (L := length (new_tokens_host decoder_state)) in *.
  assert (Hall : Forall (silent decoder_state)
                   (context_requests scheduled
                    ++ generation_requests scheduled)).
  { destruct Hsilent as [Hn|Hf].
    - apply Forall_forall. intros r _. by left.
    - eapply Forall_impl; [exact Hf|]. intros r Hr. by right. }
  apply Forall_app in Hall as [Hctx Hgen].
  assert (Hones : forall l : list LlmRequest,
            sum_list (map (fun _ => 1%nat) l) = length l).
  { induction l; simpl; congruence. }
  unfold TorchDecoder.update_requests. fold scheduled.
  destruct (ReturnFacts.for_each_returns
              (TorchDecoder.context_step max_seq_len decoder_state)
              (fun _ => 1%nat) (silent decoder_state) L
              (fun idx r Hr Hl =>
                 ReturnFacts.context_step_returns max_seq_len decoder_state
                   idx r Hl Hr)
              (context_requests scheduled) (0, 0)%nat Hctx)
    as [ctx Hc]; [rewrite Hones; simpl; lia|].
  rewrite Hc, Hones. unfold Ok at 1. cbv beta iota. cbn [fst snd Nat.add].
  set (ri := match chunked_requests scheduled with
             | Some chunked =>
                 (length (context_requests scheduled) + length chunked)%nat
             | None => length (context_requests scheduled)
             end).
  assert (Hri : ri = (length (context_requests scheduled)
                      + length (default [] (chunked_requests scheduled)))%nat).
  { unfold ri. destruct (chunked_requests scheduled); simpl; lia. }
  destruct (ReturnFacts.for_each_returns
              (TorchDecoder.extend_step max_seq_len decoder_state)
              extend_width
              (fun r => silent decoder_state r
                        /\ TorchDecoder.is_extend r = true) L
              (fun idx r Hr Hl =>
                 ReturnFacts.extend_step_returns max_seq_len decoder_state
                   idx r (proj2 Hr) Hl (proj1 Hr))
              (List.filter TorchDecoder.is_extend
                 (generation_requests scheduled))
              (ri, length (context_requests scheduled))
              (ReturnFacts.Forall_filter_keep _ _ _ Hgen))
    as [ext He]; [simpl; lia|].
  rewrite He. unfold Ok at 1. cbv beta iota. cbn [fst snd].
  destruct (ReturnFacts.for_each_returns
              (TorchDecoder.generation_step max_seq_len decoder_state)
              (fun _ => 1%nat)
              (fun r => silent decoder_state r
                        /\ negb (TorchDecoder.is_extend r) = true) L
              (fun idx r Hr Hl =>
                 ReturnFacts.generation_step_returns max_seq_len
                   decoder_state idx r Hl (proj1 Hr))
              (List.filter (fun r => negb (TorchDecoder.is_extend r))
                 (generation_requests scheduled))
              ((ri + length (List.filter TorchDecoder.is_extend
                               (generation_requests scheduled)))%nat,
               (length (context_requests scheduled)
                + sum_list (map extend_width
                              (List.filter TorchDecoder.is_extend
                                 (generation_requests scheduled))))%nat)
              (ReturnFacts.Forall_filter_keep _ _ _ Hgen))
    as [gen Hg]; [rewrite Hones; simpl; lia|].
  rewrite Hg, Hones. simpl. rewrite Hri. reflexivity.
Qed.

Lemma update_requests_returns_witness :
  (logits sample_decoder_state = None
   \/ Forall asks_no_logits
        (context_requests (scheduled_requests sample_decoder_state)
         ++ generation_requests (scheduled_requests sample_decoder_state)))
  /\ (rows_walked (scheduled_requests sample_decoder_state)
      <= length (new_tokens_host sample_decoder_state))%nat
  /\ TorchDecoder.upd_result
       (TorchDecoder.update_requests 100 sample_decoder_state)
     = Ok (3, 4)%nat.
Proof.
  assert (H1 : logits sample_decoder_state = None
               \/ Forall asks_no_logits
                    (context_requests (scheduled_requests sample_decoder_state)
                     ++ generation_requests
                          (scheduled_requests sample_decoder_state)))
    by (left; reflexivity).
  assert (H2 : (rows_walked (scheduled_requests sample_decoder_state)
                <= length (new_tokens_host sample_decoder_state))%nat)
    by (vm_compute; lia).
  split; [exact H1|]. split; [exact H2|].
  exact (update_requests_returns 100 sample_decoder_state H1 H2).
Defined.

(** X4. Whenever a commit of the simple batched decoder returns, its
    request counter has advanced by one for every request of the batch,
    chunked ones included, and its row counter by one for every context
    request, by [1 + len(draft_tokens)] for every extend request and by
    one for every plain generation request, whatever the state of the
    requests; the chunked requests move the request counter only. *)
Theorem update_requests_final_counters
  (max_seq_len : Z) (decoder_state : DecoderState)
  (request_idx token_idx : nat)
  (Hreturns : TorchDecoder.upd_result
                (TorchDecoder.update_requests max_seq_len decoder_state)
              = Ok (request_idx, token_idx)) :
  let scheduled := scheduled_requests decoder_state in
  let extend :=
    List.filter TorchDecoder.is_extend (generation_requests scheduled) in
  let plain :=
    List.filter (fun r => negb (TorchDecoder.is_extend r))
      (generation_requests scheduled) in
  request_idx
  = (length (context_requests scheduled)
     + length (default [] (chunked_requests scheduled))
     + length extend + length plain)%nat
  /\ token_idx = rows_walked scheduled.
Proof.
  cbv zeta. revert Hreturns. unfold rows_walked.
  unfold TorchDecoder.update_requests.
  destruct (TorchDecoder.for_each _ (0, 0)%nat _) as [ctx [e|[ri ti]]] eqn:E1;
    [simpl; intros H; discriminate|].
  apply (UpdateFacts.for_each_counters _ (fun _ => 1%nat)
           (UpdateFacts.context_step_counters max_seq_len decoder_state))
    in E1.
  match goal with
  | |- context [TorchDecoder.for_each
                  (TorchDecoder.extend_step _ _) ?i ?l] =>
      destruct (TorchDecoder.for_each
                  (TorchDecoder.extend_step max_seq_len decoder_state) i l)
        as [ext [e|idx]] eqn:E2
  end; [simpl; intros H; discriminate|].
  apply (UpdateFacts.for_each_counters _ extend_width
           (UpdateFacts.extend_step_counters max_seq_len decoder_state))
    in E2.
  match goal with
  | |- context [TorchDecoder.for_each
                  (TorchDecoder.generation_step _ _) ?i ?l] =>
      destruct (TorchDecoder.for_each
                  (TorchDecoder.generation_step max_seq_len decoder_state)
                  i l) as [gen res] eqn:E3
  end.
  simpl. intros ->.
  apply (UpdateFacts.for_each_counters _ (fun _ => 1%nat)
           (UpdateFacts.generation_step_counters max_seq_len decoder_state))
    in E3.
  assert (Hones : forall l : list LlmRequest,
            sum_list (map (fun _ => 1%nat) l) = length l).
  { induction l; simpl; congruence. }
  rewrite !Hones in *. subst idx. simpl in *.
  injection E1 as -> ->. injection E3 as -> ->.
  destruct (chunked_requests (scheduled_requests decoder_state)); simpl; lia.
Qed.

Lemma update_requests_final_counters_witness :
  TorchDecoder.upd_result
    (TorchDecoder.update_requests 100 sample_decoder_state)
  = Ok (3, 4)%nat
  /\ 4%nat = rows_walked (scheduled_requests sample_decoder_state).
Proof.
  assert (H : TorchDecoder.upd_result
                (TorchDecoder.update_requests 100 sample_decoder_state)
              = Ok (3, 4)%nat) by reflexivity.
  split; [exact H|].
  exact (proj2 (update_requests_final_counters 100 sample_decoder_state
                  3 4 H)).
Defined.

(** ** The commit of a single-token row *)

Lemma commit_row_spec (max_seq_len : Z) (decoder_state : DecoderState)
  (request_idx token_idx : nat) (r : LlmRequest) (toks : list Z) (tok : Z)
  (all_logits : tensor score) (n : nat) (s : list nat) :
  tokens r !! 0%nat = Some toks ->
  new_tokens_host decoder_state !! token_idx = Some tok ->
  logits decoder_state = Some all_logits ->
  shape all_logits = n :: s ->
  py_return_generation_logits r = true ->
  py_return_log_probs r = false ->
  exists r' captured,
    TorchDecoder.commit_row max_seq_len decoder_state token_idx request_idx r
    = (r', Ok tt)
    /\ tokens r' !! 0%nat = Some (toks ++ [tok])
    /\ py_decoding_iter r' = py_decoding_iter r + 1
    /\ slice0 all_logits token_idx (token_idx + 1) = Ok captured
    /\ shape captured
       = (Nat.min (token_idx + 1) n - Nat.min token_idx n)%nat :: s
    /\ generation_logits (py_result r')
       = generation_logits (py_result r) ++ [captured]
    /\ log_probs (py_result r') = log_probs (py_result r)
    /\ (state r' = GENERATION_COMPLETE
        <-> state r = GENERATION_COMPLETE
            \/ stop_fires max_seq_len r (toks ++ [tok]) tok = true).
Proof.
  intros Ht Hread Hlogits Hshape Hg Hl.
  unfold TorchDecoder.commit_row, TorchDecoder.new_tokens_list.
  rewrite Hread.
  destruct (UpdateFacts.add_new_token_beam0 r tok toks Ht) as [Ht1 Hn1].
  pose proof (UpdateFacts.add_new_token_config r tok 0) as Hc1.
  destruct (add_new_token r tok TorchDecoder.beam_idx) as [r1 n1] eqn:Hadd.
  unfold TorchDecoder.beam_idx in Hadd. rewrite Hadd in Ht1, Hn1, Hc1.
  simpl in Ht1, Hn1, Hc1. subst n1.
  assert (Hr1 : py_result r1 = py_result r
                /\ py_decoding_iter r1 = py_decoding_iter r
                /\ state r1 = state r).
  { apply (f_equal fst) in Hadd. simpl in Hadd. by subst r1. }
  destruct Hr1 as (Hres1 & Hit1 & Hst1).
  pose proof (UpdateFacts.handle_stop_criteria_fires max_seq_len r r1 tok
                (toks ++ [tok]) TorchDecoder.beam_idx Hc1 Ht1) as Hflag.
  pose proof (UpdateFacts.handle_stop_criteria_frame max_seq_len r1 tok
                (Z.of_nat (length (toks ++ [tok]))) TorchDecoder.beam_idx)
    as Hfr.
  pose proof (UpdateFacts.handle_stop_criteria_state max_seq_len r1 tok
                (Z.of_nat (length (toks ++ [tok]))) TorchDecoder.beam_idx)
    as Hst.
  cbv zeta in Hfr, Hst.
  destruct (TorchDecoder._handle_stop_criteria max_seq_len r1 tok
              (Z.of_nat (length (toks ++ [tok]))) TorchDecoder.beam_idx)
    as [r2 stop] eqn:Hh.
  simpl in Hflag, Hfr, Hst. destruct Hfr as (Hc2 & Ht2 & Hres2 & Hit2).
  destruct (UpdateFacts.slice0_shape all_logits n s token_idx
              (token_idx + 1) Hshape) as (captured & Hslice & Hsh).
  assert (Hflags2 : py_return_generation_logits r2 = true
                    /\ py_return_log_probs r2 = false).
  { assert (Hc : config_of r2 = config_of r) by congruence.
    unfold config_of in Hc. injection Hc as _ _ _ _ _ _ _ Hg' Hl' _ _.
    split; congruence. }
  destruct Hflags2 as [Hg2 Hl2].
  assert (Hrun : TorchDecoder.handle_logits decoder_state token_idx
                   request_idx r2 1
                 = (append_generation_logits r2 captured, Ok tt)).
  { unfold TorchDecoder.handle_logits. rewrite Hlogits, Hg2, Hl2.
    cbn [negb andb]. rewrite Hslice. unfold Ok at 1. cbv beta iota.
    change (py_return_log_probs (append_generation_logits r2 captured))
      with (py_return_log_probs r2).
    rewrite Hl2. reflexivity. }
  rewrite Hrun.
  exists (set_py_decoding_iter (append_generation_logits r2 captured)
            (py_decoding_iter (append_generation_logits r2 captured) + 1)),
    captured.
  split; [reflexivity|]. simpl.
  split; [by rewrite Ht2, Ht1|]. split; [congruence|].
  split; [exact Hslice|]. split; [exact Hsh|].
  split; [by rewrite Hres2, Hres1|]. split; [by rewrite Hres2, Hres1|].
  rewrite <- Hflag. destruct stop.
  - destruct Hst as [Hs _]. rewrite (Hs eq_refl). tauto.
  - destruct Hst as [_ Hs]. rewrite (Hs eq_refl), Hst1. split; [tauto|].
    intros [?|?]; [done|discriminate].
Qed.

(** X5. The commit of one plain generation row, or of one context row whose
    prefill is finished, for a request that is not complete and asks for
    generation logits but not for log-probabilities, with scores present
    and the row in the buffer: it returns; the token of the row is appended
    to beam 0; exactly one slice is recorded, the row [token_idx] of the
    scores; the iteration counter grows by one, also when the token
    completes the request; both counters advance by one; and the request
    ends complete exactly when a stop criterion fires on the new token. *)
Theorem single_row_commit
  (max_seq_len : Z) (decoder_state : DecoderState)
  (request_idx token_idx : nat) (r : LlmRequest) (toks : list Z) (tok : Z)
  (all_logits : tensor score) (n : nat) (s : list nat)
  (Hstate : state r <> GENERATION_COMPLETE)
  (Hbeam : tokens r !! 0%nat = Some toks)
  (Hread : new_tokens_host decoder_state !! token_idx = Some tok)
  (Hlogits : logits decoder_state = Some all_logits)
  (Hshape : shape all_logits = n :: s)
  (Hg : py_return_generation_logits r = true)
  (Hl : py_return_log_probs r = false) :
  let committed (out : LlmRequest * result (nat * nat)) :=
    snd out = Ok (S request_idx, S token_idx)
    /\ tokens (fst out) !! 0%nat = Some (toks ++ [tok])
    /\ py_decoding_iter (fst out) = py_decoding_iter r + 1
    /\ (exists captured,
          slice0 all_logits token_idx (token_idx + 1) = Ok captured
          /\ shape captured
             = (Nat.min (token_idx + 1) n - Nat.min token_idx n)%nat :: s
          /\ generation_logits (py_result (fst out))
             = generation_logits (py_result r) ++ [captured])
    /\ (state (fst out) = GENERATION_COMPLETE
        <-> stop_fires max_seq_len r (toks ++ [tok]) tok = true) in
  committed (TorchDecoder.generation_step max_seq_len decoder_state
               (request_idx, token_idx) r)
  /\ (get_context_remaining_length r = 0 ->
      committed (TorchDecoder.context_step max_seq_len decoder_state
                   (request_idx, token_idx) r)).
Proof.
  cbv zeta.
  destruct (commit_row_spec max_seq_len decoder_state request_idx token_idx
              r toks tok all_logits n s Hbeam Hread Hlogits Hshape Hg Hl)
    as (r' & captured & Hrun & Htok & Hit & Hslice & Hsh & Hcap & _ & Hdone).
  assert (Hdone' : state r' = GENERATION_COMPLETE
                   <-> stop_fires max_seq_len r (toks ++ [tok]) tok = true)
    by tauto.
  apply LlmRequestState_eqb_neq in Hstate.
  split.
  - unfold TorchDecoder.generation_step. rewrite Hstate. cbn [negb].
    rewrite Hrun. simpl.
    split; [reflexivity|]. split; [exact Htok|]. split; [exact Hit|].
    split; [eauto|exact Hdone'].
  - intros Hrem. unfold TorchDecoder.context_step.
    rewrite Hrem, Hstate. cbn [Z.eqb negb]. rewrite Hrun. simpl.
    split; [reflexivity|]. split; [exact Htok|]. split; [exact Hit|].
    split; [eauto|exact Hdone'].
Qed.

Lemma single_row_commit_witness :
  let r := sample_request GENERATION_IN_PROGRESS [7] None true in
  let decoder_state :=
    mkDecoderState (mkScheduledRequests [] [r] None) (Some sample_logits)
      None [20; 21; 22] in
  state r <> GENERATION_COMPLETE
  /\ new_tokens_host decoder_state !! 1%nat = Some 21
  /\ tokens (fst (TorchDecoder.generation_step 100 decoder_state
                    (1, 1)%nat r)) !! 0%nat
     = Some ([7] ++ [21]).
Proof.
  cbv zeta.
  assert (H1 : state (sample_request GENERATION_IN_PROGRESS [7] None true)
               <> GENERATION_COMPLETE) by discriminate.
  split; [exact H1|]. split; [reflexivity|].
  exact (proj1 (proj2 (proj1
    (single_row_commit 100
       (mkDecoderState
          (mkScheduledRequests []
             [sample_request GENERATION_IN_PROGRESS [7] None true] None)
          (Some sample_logits) None [20; 21; 22])
       1 1 (sample_request GENERATION_IN_PROGRESS [7] None true)
       [7] 21 sample_logits 3 [1%nat]
       H1 eq_refl eq_refl eq_refl eq_refl eq_refl eq_refl)))).
Defined.

(** ** Greedy search *)

Module GreedyFacts.
Import RowFacts SamplingFacts.

Lemma score_leb_ltb_trans a b c :
  score_leb a b = true -> score_ltb b c = true -> score_ltb a c = true.
Proof.
  unfold score_leb. rewrite negb_true_iff.
  destruct a as [|x], b as [|y], c as [|z]; simpl; try done.
  destruct (Rlt_dec y x), (Rlt_dec y z), (Rlt_dec x z); try done. lra.
Qed.

Lemma score_ltb_leb a b : score_ltb a b = true -> score_leb a b = true.
Proof. intros H. unfold score_leb. by rewrite (score_ltb_asym _ _ H). Qed.

(** The scan of [argmax_from]: [seen] is what has been scanned, [best] its
    first largest entry, at [best_i]. *)
Lemma argmax_from_spec :
  forall (l seen : list score) (best : score) (best_i : nat),
    first_max seen best_i -> seen !! best_i = Some best ->
    first_max (seen ++ l) (argmax_from best best_i (length seen) l).
Proof.
  induction l as [|x l IH]; intros seen best best_i Hfm Hb; simpl.
  - by rewrite app_nil_r.
  - destruct Hfm as (m & Hm & Hall & Hbefore).
    assert (m = best) as -> by congruence.
    replace (seen ++ x :: l) with ((seen ++ [x]) ++ l)
      by (by rewrite <- app_assoc).
    replace (S (length seen)) with (length (seen ++ [x]))
      by (rewrite length_app; simpl; lia).
    assert (Hx : (seen ++ [x]) !! length seen = Some x)
      by (by rewrite lookup_app_r, Nat.sub_diag by lia).
    destruct (score_ltb best x) eqn:E.
    + apply IH; [|exact Hx].
      exists x. split; [exact Hx|]. split.
      * intros i y Hy. apply lookup_app_Some in Hy as [Hy|[_ Hy]].
        -- apply score_ltb_leb.
           eapply score_leb_ltb_trans; [by eapply Hall|exact E].
        -- destruct (i - length seen)%nat; [|done].
           injection Hy as <-. apply score_leb_refl.
      * intros i y Hi Hy. rewrite lookup_app_l in Hy by lia.
        eapply score_leb_ltb_trans; [by eapply Hall|exact E].
    + assert (Hlt : (best_i < length seen)%nat)
        by (by eapply lookup_lt_Some).
      apply IH; [|by rewrite lookup_app_l].
      exists best. split; [by rewrite lookup_app_l|]. split.
      * intros i y Hy. apply lookup_app_Some in Hy as [Hy|[_ Hy]].
        -- by eapply Hall.
        -- destruct (i - length seen)%nat; [|done].
           injection Hy as <-. unfold score_leb. by rewrite E.
      * intros i y Hi Hy. rewrite lookup_app_l in Hy by lia.
        by eapply Hbefore.
Qed.

Lemma argmax_row_spec (row : list score) :
  row <> [] -> exists j, argmax_row row = Ok j /\ first_max row j.
Proof.
  destruct row as [|x l]; [done|]. intros _.
  exists (argmax_from x 0 1 l). split; [reflexivity|].
  apply (argmax_from_spec l [x] x 0); [|reflexivity].
  exists x. split; [reflexivity|]. split.
  - intros [|i] y Hy; simpl in Hy; [|done].
    injection Hy as <-. apply score_leb_refl.
  - intros i y Hi. lia.
Qed.

Lemma first_max_unique row j j' :
  first_max row j -> first_max row j' -> j = j'.
Proof.
  intros (m & Hm & Hall & Hbefore) (m' & Hm' & Hall' & Hbefore').
  destruct (Nat.lt_trichotomy j j') as [Hlt|[->|Hlt]]; [|done|].
  - pose proof (Hbefore' j m Hlt Hm) as H1.
    pose proof (Hall j' m' Hm') as H2.
    unfold score_leb in H2. rewrite H1 in H2. discriminate.
  - pose proof (Hbefore j' m' Hlt Hm') as H1.
    pose proof (Hall' j m Hm) as H2.
    unfold score_leb in H2. rewrite H1 in H2. discriminate.
Qed.

(** [torch.argmax] on a well-formed matrix with a non-empty vocabulary. *)
Lemma argmax_matrix (t : tensor score) (b v : nat) :
  shape t = [b; v] -> tensor_wf t -> (0 < v)%nat ->
  exists idx,
    argmax t = Ok (Tensor [b] idx) /\ length idx = b
    /\ forall r row, rows_of t !! r = Some row ->
         exists j, idx !! r = Some j /\ first_max row j /\ (j < v)%nat.
Proof.
  intros Hs Hwf Hv. destruct (rows_of_matrix t b v Hs Hwf) as [Hlen Hall].
  rewrite Forall_forall in Hall.
  unfold argmax. rewrite Hs. unfold last_dim. cbn [List.last removelast].
  destruct (Nat.eqb_spec v 0) as [->|_]; [lia|].
  destruct (try_map_ok argmax_row (rows_of t)) as [idx Hidx].
  { intros row Hrow. destruct (argmax_row_spec row) as [j [Hj _]]; [|eauto].
    intros ->. specialize (Hall [] Hrow). simpl in Hall. lia. }
  rewrite Hidx. cbn [bind Ok]. exists idx. split; [reflexivity|].
  split; [by rewrite (ProducerFacts.try_map_length _ _ _ Hidx)|].
  intros r row Hr.
  destruct (try_map_lookup _ _ _ Hidx r row Hr) as (j & Hj & Hlook).
  exists j. split; [exact Hlook|].
  assert (Hne : row <> []).
  { intros ->. specialize (Hall [] (list_elem_of_lookup_2 _ _ _ Hr)).
    simpl in Hall. lia. }
  destruct (argmax_row_spec row Hne) as (j' & Hj' & Hfm).
  rewrite Hj in Hj'. injection Hj' as <-. split; [exact Hfm|].
  destruct Hfm as (m & Hm & _). apply lookup_lt_Some in Hm.
  rewrite (Hall row) in Hm; [exact Hm|]. by eapply list_elem_of_lookup_2.
Qed.

Lemma imap_const_lookup {A : Type} (idx : list nat) (d : A) :
  imap (fun r _ => default 0%nat (idx !! r)) (map (fun _ => d) idx) = idx.
Proof.
  apply list_eq. intros i. rewrite list_lookup_imap, lookup_map.
  destruct (idx !! i); reflexivity.
Qed.

Lemma sample_and_report_length multinomial (raw : tensor R) (b v : nat)
  (rows : list (list R)) (probs : list (list R)) nt lp :
  shape raw = [b; v] -> data raw = concat rows ->
  Forall (fun x => length x = v) rows ->
  sample_and_report multinomial b raw probs = Ok (nt, lp) ->
  length (data lp) = length probs.
Proof.
  intros Hs Hd Hall. unfold sample_and_report.
  destruct (negb (forallb drawable probs)); [discriminate|].
  change (unsqueeze 1 (Tensor [b] (imap multinomial probs)))
    with (Ok (Tensor [b; 1%nat] (imap multinomial probs))).
  cbn [bind Ok].
  rewrite (gather1_column raw b v rows _ Hs Hd Hall).
  destruct (try_map _ _) as [e|out] eqn:E; [discriminate|].
  cbn [bind Ok]. intros H. injection H as _ <-.
  apply ProducerFacts.try_map_length in E.
  rewrite !length_imap in E. unfold squeeze_last, log. simpl.
  by rewrite length_map.
Qed.

(** Greedy search on a well-formed matrix with a non-empty vocabulary. *)
Lemma greedy_spec (t : tensor score) (b v : nat) :
  shape t = [b; v] -> tensor_wf t -> (0 < v)%nat ->
  exists idx lps,
    greedy_search_sampling_batch t = Ok (Tensor [b] idx, Tensor [b] lps)
    /\ length idx = b /\ length lps = b
    /\ forall r row, rows_of t !! r = Some row ->
         exists j q,
           idx !! r = Some j /\ first_max row j
           /\ softmax_row row !! j = Some q /\ lps !! r = Some (ln q).
Proof.
  intros Hs Hwf Hv.
  destruct (argmax_matrix t b v Hs Hwf Hv) as (idx & Harg & Hlen & Hrows).
  destruct (softmax_rows t b v Hs Hwf) as (Hsh & Hdata & Hsall).
  destruct (rows_of_matrix t b v Hs Hwf) as [Hrlen _].
  set (draw := fun (r : nat) (_ : list R) => default 0%nat (idx !! r)).
  set (probs := map (fun _ : nat => [1%R]) idx).
  assert (Himap : imap draw probs = idx) by apply imap_const_lookup.
  assert (Hdr : Forall (fun dist => drawable dist = true) probs).
  { apply Forall_forall. intros dist Hin.
    apply list_elem_of_In, in_map_iff in Hin as (? & <- & _).
    unfold drawable, Rgtb. simpl. destruct (Rlt_dec 0 (1 + 0)); [done|lra]. }
  assert (Heq : greedy_search_sampling_batch t
                = sample_and_report draw b (softmax t) probs).
  { unfold greedy_search_sampling_batch, sample_and_report.
    assert (Hf : forallb drawable probs = true).
    { apply forallb_forall. intros dist Hin. rewrite Forall_forall in Hdr.
      apply Hdr. by apply list_elem_of_In. }
    rewrite Hf, Harg, Himap. reflexivity. }
  destruct (sample_and_report_ok draw (softmax t) b v
              (map softmax_row (rows_of t)) probs Hsh Hdata Hsall)
    as [[nt lp] Hout].
  { unfold probs. rewrite !length_map. lia. }
  { intros r dist Hd. unfold draw.
    destruct (idx !! r) as [j|] eqn:Ej; simpl; [|lia].
    destruct (lookup_lt_is_Some_2 (rows_of t) r) as [row Hrow].
    { apply lookup_lt_Some in Ej. lia. }
    destruct (Hrows r row Hrow) as (j' & Hj' & _ & Hlt).
    rewrite Ej in Hj'. by injection Hj' as <-. }
  { exact Hdr. }
  destruct (sample_and_report_spec draw (softmax t) b v
              (map softmax_row (rows_of t)) probs Hsh Hdata Hsall
              nt lp Hout) as (Hnt & Hlsh & Hrep).
  rewrite Himap in Hnt. subst nt. destruct lp as [lsh lps].
  simpl in Hlsh. subst lsh.
  exists idx, lps. split; [by rewrite Heq|]. split; [exact Hlen|].
  split.
  { pose proof (sample_and_report_length draw (softmax t) b v
                  (map softmax_row (rows_of t)) probs _ _ Hsh Hdata Hsall
                  Hout) as Hl.
    simpl in Hl. rewrite Hl. unfold probs. by rewrite length_map. }
  intros r row Hr. destruct (Hrows r row Hr) as (j & Hj & Hfm & _).
  destruct (Hrep r j Hj) as (row' & q & Hrow' & Hq & Hlp).
  rewrite lookup_map, Hr in Hrow'. simpl in Hrow'. injection Hrow' as <-.
  exists j, q. done.
Qed.

End GreedyFacts.

(** X6. The batched producer.  On a well-formed score matrix of [b] rows
    over a non-empty vocabulary [_batch_decode] returns a state that holds
    the batch and the scores it was given, no log-probabilities, and one
    token per score row, however many requests are scheduled: the first
    position of the row's largest score.  On an empty vocabulary it raises
    [IndexError]. *)
Theorem batch_decode_first_max
  (model_logits : tensor score) (b v : nat) (scheduled : ScheduledRequests)
  (Hshape : shape model_logits = [b; v]) (Hwf : tensor_wf model_logits) :
  (v = 0%nat ->
   TorchDecoder._batch_decode model_logits scheduled = Raise IndexError)
  /\ ((0 < v)%nat ->
      exists toks,
        TorchDecoder._batch_decode model_logits scheduled
        = Ok (mkDecoderState scheduled (Some model_logits) None
                (map Z.of_nat toks))
        /\ length toks = b
        /\ forall r row, rows_of model_logits !! r = Some row ->
             exists j, toks !! r = Some j /\ first_max row j).
Proof.
  split.
  - intros ->. unfold TorchDecoder._batch_decode, argmax.
    by rewrite Hshape.
  - intros Hv.
    destruct (GreedyFacts.argmax_matrix model_logits b v Hshape Hwf Hv)
      as (idx & Harg & Hlen & Hrows).
    exists idx. unfold TorchDecoder._batch_decode. rewrite Harg.
    split; [reflexivity|]. split; [exact Hlen|].
    intros r row Hr. destruct (Hrows r row Hr) as (j & Hj & Hfm & _).
    eauto.
Qed.

Lemma batch_decode_first_max_witness :
  shape sample_logits = [3%nat; 1%nat]
  /\ tensor_wf sample_logits
  /\ exists toks,
       TorchDecoder._batch_decode sample_logits
         (mkScheduledRequests [] [] None)
       = Ok (mkDecoderState (mkScheduledRequests [] [] None)
               (Some sample_logits) None (map Z.of_nat toks))
       /\ length toks = 3%nat.
Proof.
  split; [reflexivity|]. split; [reflexivity|].
  destruct (proj2 (batch_decode_first_max sample_logits 3 1
                     (mkScheduledRequests [] [] None) eq_refl eq_refl))
    as (toks & Hrun & Hlen & _); [lia|].
  exists toks. split; [exact Hrun|exact Hlen].
Defined.

(** X7. Greedy search on a well-formed score matrix over a non-empty
    vocabulary returns, for every row, the first position of the row's
    largest score, and reports the natural logarithm of the probability
    of that position under the softmax of the row. *)
Theorem greedy_search_reports_first_max
  (logits : tensor score) (b v : nat)
  (Hshape : shape logits = [b; v]) (Hwf : tensor_wf logits)
  (Hv : (0 < v)%nat) :
  exists next_tokens log_probs,
    greedy_search_sampling_batch logits = Ok (next_tokens, log_probs)
    /\ shape next_tokens = [b] /\ length (data next_tokens) = b
    /\ shape log_probs = [b]
    /\ forall r row, rows_of logits !! r = Some row ->
         exists j q,
           data next_tokens !! r = Some j /\ first_max row j
           /\ softmax_row row !! j = Some q
           /\ data log_probs !! r = Some (ln q).
Proof.
  destruct (GreedyFacts.greedy_spec logits b v Hshape Hwf Hv)
    as (idx & lps & Hrun & Hlen & _ & Hrows).
  exists (Tensor [b] idx), (Tensor [b] lps). done.
Qed.

Lemma greedy_search_reports_first_max_witness :
  shape sample_logits = [3%nat; 1%nat]
  /\ tensor_wf sample_logits
  /\ exists next_tokens log_probs,
       greedy_search_sampling_batch sample_logits
       = Ok (next_tokens, log_probs)
       /\ shape next_tokens = [3%nat].
Proof.
  split; [reflexivity|]. split; [reflexivity|].
  destruct (greedy_search_reports_first_max sample_logits 3 1
              eq_refl eq_refl)
    as (nt & lp & Hrun & Hsh & _); [lia|].
  exists nt, lp. split; [exact Hrun|exact Hsh].
Defined.

(** ** The per-request producer *)

Module MixedFacts.
Import TorchDecoder RowFacts.

(** A row of a well-formed matrix, as the producers and the commits cut
    it out. *)
Lemma matrix_row {A : Type} (t : tensor A) (b v r : nat) :
  shape t = [b; v] -> tensor_wf t -> (r < b)%nat ->
  exists row,
    rows_of t !! r = Some row /\ length row = v
    /\ slice0_all1 t r (r + 1) = Ok (Tensor [1%nat; v] row)
    /\ index0 t r = Ok (Tensor [v] row).
Proof.
  intros Hs Hwf Hr. exists (take v (drop (r * v) (data t))).
  unfold tensor_wf in Hwf. rewrite Hs in Hwf. simpl in Hwf.
  split; [|split; [|split]].
  - unfold rows_of. rewrite Hs. unfold outer, last_dim. simpl.
    rewrite Nat.mul_1_r. by apply chunks_lookup.
  - rewrite length_take, length_drop. nia.
  - unfold slice0_all1, dim. rewrite Hs.
    change (length [b; v] <? 2)%nat with false. cbv iota.
    unfold slice0. rewrite Hs.
    rewrite (Nat.min_l r b), (Nat.min_l (r + 1) b) by lia.
    unfold py_slice, numel. cbn [fold_right]. rewrite Nat.mul_1_r.
    f_equal. f_equal; [f_equal; lia|]. f_equal. lia.
  - unfold index0. rewrite Hs.
    destruct (Nat.ltb_spec r b); [|lia].
    unfold py_slice, numel. cbn [fold_right]. rewrite Nat.mul_1_r.
    f_equal. f_equal. f_equal. lia.
Qed.

Lemma decode_single_request_shape multinomial sort_indices cumulative_probs
  request (t : tensor score) out :
  decode_single_request multinomial sort_indices cumulative_probs
    request t = Ok out ->
  exists v, shape t = [1%nat; v].
Proof.
  unfold decode_single_request, dim.
  destruct (shape t) as [|b [|v [|? ?]]]; simpl; try discriminate.
  destruct (Nat.eqb_spec b 1) as [->|]; [|discriminate]. eauto.
Qed.

Lemma decode_single_request_greedy multinomial sort_indices cumulative_probs
  request (t : tensor score) (v : nat) :
  shape t = [1%nat; v] -> greedy_request request ->
  decode_single_request multinomial sort_indices cumulative_probs
    request t
  = greedy_search_sampling_batch t.
Proof.
  intros Hs [Hp Hk]. unfold decode_single_request, dim. rewrite Hs. simpl.
  destruct Hp as [-> | ->], Hk as [-> | ->]; reflexivity.
Qed.

(** [torch.cat] of one-token tensors *)
Lemma cat_tokens (ts : list (tensor nat)) :
  ts <> [] -> Forall one_token ts ->
  cat ts = Ok (Tensor [length ts] (concat (map data ts))).
Proof.
  intros Hne Hall. unfold cat.
  destruct ts as [|t0 ts'] eqn:Ets; [done|]. rewrite <- Ets in *.
  assert (Ht0 : shape t0 = [1%nat]).
  { rewrite Ets in Hall. by apply Forall_cons in Hall as [[? _] _]. }
  rewrite Ht0. cbv beta iota.
  match goal with
  | |- context [forallb ?f ts] => assert (Hb : forallb f ts = true)
  end.
  { apply forallb_forall. intros u Hu. rewrite Forall_forall in Hall.
    destruct (Hall u) as [Hu' _]; [by apply list_elem_of_In|].
    unfold dim. rewrite Hu'. reflexivity. }
  rewrite Hb. f_equal. f_equal. f_equal.
  clear -Hall. induction Hall as [|u us [Hu _] _ IH]; [reflexivity|].
  simpl. rewrite Hu. simpl. by rewrite IH.
Qed.

Section Loops.
Variable multinomial : nat -> nat -> list R -> nat.
Variable sort_indices : list score -> list nat.
Variable cumulative_probs : list score -> list R.
Variable model_logits : tensor score.

Lemma decoded_inv_nil : decoded_inv model_logits [] ([], [], 0%nat).
Proof.
  unfold decoded_inv. simpl. repeat split; try constructor. intros H. lia.
Qed.

Lemma mixed_decode_one_inv decoded acc request acc' :
  decoded_inv model_logits decoded acc ->
  mixed_decode_one multinomial sort_indices cumulative_probs
      model_logits acc request = Ok acc' ->
  decoded_inv model_logits (decoded ++ [request]) acc'.
Proof.
  destruct acc as [[arr lp] idx]. intros (Hidx & Hlen & Hall & Hlp & _).
  simpl in Hidx, Hlen, Hall, Hlp. subst idx.
  unfold mixed_decode_one.
  destruct (slice0_all1 model_logits (length decoded) (length decoded + 1))
    as [e|tl] eqn:Esl; [discriminate|]. cbn [bind Ok].
  destruct (decode_single_request (multinomial (length decoded))
              sort_indices cumulative_probs request tl)
    as [e|[nt lps]] eqn:E; [discriminate|]. cbn [bind Ok].
  intros H. injection H as <-.
  pose proof (ProducerFacts.decode_single_request_one_token _ _ _ _ _ _ E)
    as Hone. simpl in Hone.
  destruct (decode_single_request_shape _ _ _ _ _ _ E) as [v Hv].
  unfold decoded_inv. simpl. rewrite !length_app. simpl.
  split; [lia|]. split; [lia|].
  split; [apply Forall_app; split; [exact Hall|by constructor]|].
  split.
  - apply Forall2_app; [exact Hlp|]. constructor; [|constructor].
    unfold mixed_entry. destruct (py_return_log_probs request); eauto.
  - intros _. unfold slice0_all1 in Esl.
    destruct (dim model_logits <? 2)%nat; [discriminate|].
    unfold slice0 in Esl.
    destruct (shape model_logits) as [|n s]; [discriminate|].
    injection Esl as <-. simpl in Hv. injection Hv as Hn ->.
    exists n, v. split; [reflexivity|]. lia.
Qed.

Lemma mixed_context_loop_inv requests :
  forall decoded acc acc',
    decoded_inv model_logits decoded acc ->
    mixed_context_loop multinomial sort_indices cumulative_probs
        model_logits acc requests = Ok acc' ->
    decoded_inv model_logits (decoded ++ requests) acc'
    /\ Forall (fun r => py_return_context_logits r = false) requests.
Proof.
  induction requests as [|r rest IH]; intros decoded acc acc' Hinv; simpl.
  - intros H. injection H as <-. by rewrite app_nil_r.
  - destruct (py_return_context_logits r) eqn:Ec; [discriminate|].
    destruct (mixed_decode_one multinomial sort_indices cumulative_probs
        model_logits acc r)
      as [e|acc1] eqn:E; [discriminate|]. cbn [bind Ok].
    intros H.
    destruct (IH (decoded ++ [r]) acc1 acc'
                (mixed_decode_one_inv _ _ _ _ Hinv E) H) as [H1 H2].
    rewrite <- app_assoc in H1. split; [exact H1|by constructor].
Qed.

Lemma mixed_generation_loop_inv requests :
  forall decoded acc acc',
    decoded_inv model_logits decoded acc ->
    mixed_generation_loop multinomial sort_indices cumulative_probs
        model_logits acc requests = Ok acc' ->
    decoded_inv model_logits (decoded ++ active requests) acc'
    /\ Forall (fun r => is_extend r = false) (active requests).
Proof.
  induction requests as [|r rest IH]; intros decoded acc acc' Hinv.
  - simpl. intros H. injection H as <-. by rewrite app_nil_r.
  - unfold active. cbn [mixed_generation_loop List.filter].
    destruct (LlmRequestState_eqb (state r) GENERATION_COMPLETE);
      cbn [negb]; [by apply IH|].
    destruct (is_extend r) eqn:Ee; [discriminate|].
    destruct (mixed_decode_one multinomial sort_indices cumulative_probs
        model_logits acc r)
      as [e|acc1] eqn:E; [discriminate|]. cbn [bind Ok].
    intros H.
    destruct (IH (decoded ++ [r]) acc1 acc'
                (mixed_decode_one_inv _ _ _ _ Hinv E) H) as [H1 H2].
    rewrite <- app_assoc in H1. split; [exact H1|by constructor].
Qed.

(** What [_mixed_decode] has done when it returns. *)
Lemma mixed_decode_inv (scheduled : ScheduledRequests) (st : DecoderState) :
  _mixed_decode multinomial sort_indices cumulative_probs
      model_logits scheduled = Ok st ->
  let decoded :=
    context_requests scheduled ++ active (generation_requests scheduled) in
  exists n v toks lp,
    shape model_logits = [n; v]
    /\ (0 < length decoded <= n)%nat
    /\ st = mkDecoderState scheduled (Some model_logits) (Some lp)
              (map Z.of_nat toks)
    /\ length toks = length decoded
    /\ Forall2 mixed_entry decoded lp
    /\ Forall (fun r => py_return_context_logits r = false)
         (context_requests scheduled)
    /\ Forall (fun r => is_extend r = false)
         (active (generation_requests scheduled)).
Proof.
  cbv zeta. unfold _mixed_decode.
  destruct (mixed_context_loop _ _ _ _) as [e|acc1] eqn:E1;
    [discriminate|]. cbn [bind Ok].
  destruct (mixed_context_loop_inv _ [] _ _ decoded_inv_nil E1)
    as [H1 Hc].
  destruct (mixed_generation_loop _ _ _ _) as [e|acc2] eqn:E2;
    [discriminate|]. cbn [bind Ok].
  destruct (mixed_generation_loop_inv _ _ _ _ H1 E2) as [H2 Hg].
  simpl in H2. destruct acc2 as [[arr lp] idx].
  destruct H2 as (Hidx & Hlen & Hall & Hlp & Hshape). simpl in *.
  destruct (cat arr) as [e|t] eqn:Ec; [discriminate|]. cbn [bind Ok].
  intros H. injection H as <-.
  assert (Hne : arr <> []) by (intros ->; discriminate).
  assert (Hpos : (0 < length arr)%nat)
    by (destruct arr; [done|simpl; lia]).
  rewrite (cat_tokens arr Hne Hall) in Ec. injection Ec as <-.
  destruct Hshape as (n & v & Hs & Hn); [lia|].
  exists n, v, (concat (map data arr)), lp.
  split; [exact Hs|]. split; [lia|]. split; [reflexivity|].
  split; [by rewrite (ProducerFacts.concat_one_tokens _ Hall), Hlen|].
  done.
Qed.

End Loops.
End MixedFacts.

(** X8. What [_mixed_decode] has done when it returns: the scores are a
    matrix with at least one row per decoded request, the decoded requests
    being the context requests and the generation requests that are not
    complete, and at least one request was decoded; the state holds the
    batch, the scores, one token per decoded request and one
    log-probability entry per decoded request, a one-element list for a
    request that asks for log-probabilities and [None] for the others; no
    context request asks for context logits and no decoded generation
    request carries draft tokens. *)
Theorem mixed_decode_returns_only_with
  (multinomial : nat -> nat -> list R -> nat)
  (sort_indices : list score -> list nat)
  (cumulative_probs : list score -> list R) (model_logits : tensor score)
  (scheduled : ScheduledRequests) (st : DecoderState)
  (Hdecode : TorchDecoder._mixed_decode multinomial sort_indices
               cumulative_probs model_logits scheduled
             = Ok st) :
  let decoded :=
    context_requests scheduled ++ active (generation_requests scheduled) in
  exists n v toks lp,
    shape model_logits = [n; v]
    /\ (0 < length decoded <= n)%nat
    /\ st = mkDecoderState scheduled (Some model_logits) (Some lp)
              (map Z.of_nat toks)
    /\ length toks = length decoded
    /\ Forall2 mixed_entry decoded lp
    /\ Forall (fun r => py_return_context_logits r = false)
         (context_requests scheduled)
    /\ Forall (fun r => TorchDecoder.is_extend r = false)
         (active (generation_requests scheduled)).
Proof. exact (MixedFacts.mixed_decode_inv _ _ _ _ _ _ Hdecode). Qed.

Lemma mixed_decode_returns_only_with_witness :
  let r := sample_request GENERATION_IN_PROGRESS [9] None false in
  let scheduled := mkScheduledRequests [] [r] None in
  let model_logits := Tensor [1%nat; 1%nat] [Fin 1] in
  let st := mkDecoderState scheduled (Some model_logits) (Some [PyNone])
              [0] in
  TorchDecoder._mixed_decode (fun _ _ _ => 0%nat) (fun _ => [])
    (fun _ => []) model_logits scheduled
  = Ok st
  /\ exists n v, shape model_logits = [n; v] /\ (0 < 1 <= n)%nat.
Proof.
  cbv zeta.
  assert (H : TorchDecoder._mixed_decode (fun _ _ _ => 0%nat)
                (fun _ => []) (fun _ => [])
                (Tensor [1%nat; 1%nat] [Fin 1])
                (mkScheduledRequests []
                   [sample_request GENERATION_IN_PROGRESS [9] None false]
                   None)
              = Ok (mkDecoderState
                      (mkScheduledRequests []
                         [sample_request GENERATION_IN_PROGRESS [9] None
                            false] None)
                      (Some (Tensor [1%nat; 1%nat] [Fin 1]))
                      (Some [PyNone]) [0])) by reflexivity.
  split; [exact H|].
  destruct (mixed_decode_returns_only_with _ _ _ _ _ _ H)
    as (n & v & _ & _ & Hs & Hn & _).
  exists n, v. split; [exact Hs|exact Hn].
Defined.

(** ** Log-probabilities after the per-request producer *)

Module MixedCommitFacts.
Import TorchDecoder.

(** A loop that returns has returned from every iteration. *)
Lemma for_each_ok_inv
  (step : nat * nat -> LlmRequest -> LlmRequest * result (nat * nat)) :
  forall requests idx out idx',
    for_each step idx requests = (out, Ok idx') ->
    Forall (fun r => exists i, is_ok (snd (step i r)) = true) requests.
Proof.
  induction requests as [|r rest IH]; intros idx out idx' H;
    [constructor|].
  simpl in H. destruct (step idx r) as [r' [e|idx1]] eqn:E;
    [discriminate|].
  destruct (for_each step idx1 rest) as [rest' res] eqn:Er.
  injection H as _ ->. constructor.
  - exists idx. by rewrite E.
  - by eapply IH.
Qed.

Lemma entry_unreadable (decoded : list LlmRequest) (lp : list pyval)
  (request_idx : nat) :
  Forall2 mixed_entry decoded lp ->
  match lp !! request_idx with
  | Some e => tolist e
  | None => Raise IndexError
  end
  = Raise (if (request_idx <? length decoded)%nat then AttributeError
           else IndexError).
Proof.
  intros Hentries.
  pose proof (Forall2_length _ _ _ Hentries) as Hlen.
  destruct (Nat.ltb_spec request_idx (length decoded)) as [Hlt|Hge].
  - destruct (lookup_lt_is_Some_2 decoded request_idx Hlt) as [r Hr].
    destruct (Forall2_lookup_l _ _ _ _ _ Hentries Hr) as (e & He & Hre).
    rewrite He. unfold mixed_entry in Hre.
    destruct (py_return_log_probs r); [destruct Hre as [t ->]|subst e];
      reflexivity.
  - rewrite lookup_ge_None_2 by lia. reflexivity.
Qed.

Section Facts.
Variable max_seq_len : Z.
Variable model_logits : tensor score.
Variable scheduled : ScheduledRequests.
Variable lp : list pyval.
Variable toks : list Z.
Variables (n v : nat).
Variable decoded : list LlmRequest.
Hypothesis Hshape : shape model_logits = [n; v].
Hypothesis Hentries : Forall2 mixed_entry decoded lp.
Hypothesis Hdecoded : (0 < length decoded)%nat.

Lemma handle_logits_unreadable token_idx request_idx request count :
  py_return_log_probs request = true ->
  exists captured,
    slice0 model_logits token_idx (token_idx + count) = Ok captured
    /\ handle_logits
         (mkDecoderState scheduled (Some model_logits) (Some lp) toks)
         token_idx request_idx request count
       = (append_generation_logits request captured,
          Raise (if (request_idx <? length decoded)%nat then AttributeError
                 else IndexError)).
Proof using Hshape Hentries Hdecoded.
  intros Hasks.
  destruct (UpdateFacts.slice0_shape model_logits n [v] token_idx
              (token_idx + count) Hshape) as (captured & Hslice & _).
  exists captured. split; [exact Hslice|].
  unfold handle_logits. cbn [logits state_log_probs].
  rewrite Hasks, andb_false_r, Hslice. unfold Ok at 1. cbv beta iota.
  change (py_return_log_probs (append_generation_logits request captured))
    with (py_return_log_probs request).
  rewrite Hasks. cbn [negb].
  pose proof (entry_unreadable decoded lp request_idx Hentries) as He.
  pose proof (Forall2_length _ _ _ Hentries) as Hlen.
  destruct lp as [|e0 lp']; [simpl in Hlen; lia|].
  rewrite He. reflexivity.
Qed.

Lemma commit_row_unreadable token_idx request_idx request :
  py_return_log_probs request = true ->
  is_ok (snd (commit_row max_seq_len
                (mkDecoderState scheduled (Some model_logits) (Some lp)
                   toks)
                token_idx request_idx request))
  = false.
Proof using Hshape Hentries Hdecoded.
  intros Hasks. unfold commit_row.
  destruct (new_tokens_list _ !! token_idx) as [tok|]; [|reflexivity].
  pose proof (UpdateFacts.add_new_token_config request tok beam_idx) as Hc1.
  destruct (add_new_token request tok beam_idx) as [r1 n1].
  pose proof (UpdateFacts.handle_stop_criteria_frame max_seq_len r1 tok n1
                beam_idx) as Hfr.
  cbv zeta in Hfr.
  destruct (_handle_stop_criteria max_seq_len r1 tok n1 beam_idx)
    as [r2 stop].
  simpl in Hc1, Hfr. destruct Hfr as (Hc2 & _).
  assert (Hasks2 : py_return_log_probs r2 = true).
  { assert (Hc : config_of r2 = config_of request) by congruence.
    unfold config_of in Hc. injection Hc as _ _ _ _ _ _ _ _ Hl _ _.
    congruence. }
  destruct (handle_logits_unreadable token_idx request_idx r2 1 Hasks2)
    as (captured & _ & ->).
  reflexivity.
Qed.

End Facts.
End MixedCommitFacts.

(** X9. After [_mixed_decode], log-probabilities cannot be recorded.  The
    entries of [state.log_probs] are Python lists or [None], which have no
    [tolist]: for a request that asks for log-probabilities [handle_logits]
    records the slice of the scores and then raises, [AttributeError] when
    the request counter is below the number of decoded requests and
    [IndexError] otherwise.  Hence a commit over that state returns only
    if no request it commits a token to asks for log-probabilities. *)
Theorem mixed_mode_log_probs_unreadable
  (max_seq_len : Z) (multinomial : nat -> nat -> list R -> nat)
  (sort_indices : list score -> list nat)
  (cumulative_probs : list score -> list R)
  (model_logits : tensor score) (scheduled : ScheduledRequests)
  (st : DecoderState)
  (Hdecode : TorchDecoder._mixed_decode multinomial sort_indices
               cumulative_probs model_logits scheduled
             = Ok st) :
  let decoded :=
    context_requests scheduled ++ active (generation_requests scheduled) in
  (forall token_idx request_idx request count,
     py_return_log_probs request = true ->
     exists captured,
       slice0 model_logits token_idx (token_idx + count) = Ok captured
       /\ TorchDecoder.handle_logits st token_idx request_idx request count
          = (append_generation_logits request captured,
             Raise (if (request_idx <? length decoded)%nat
                    then AttributeError else IndexError)))
  /\ (is_ok (TorchDecoder.upd_result
               (TorchDecoder.update_requests max_seq_len st)) = true ->
      Forall (fun r => state r <> GENERATION_COMPLETE ->
                       get_context_remaining_length r = 0 ->
                       py_return_log_probs r = false)
        (context_requests scheduled)
      /\ Forall (fun r => state r <> GENERATION_COMPLETE ->
                          py_return_log_probs r = false)
           (generation_requests scheduled)).
Proof.
  cbv zeta.
  destruct (MixedFacts.mixed_decode_inv _ _ _ _ _ _ Hdecode)
    as (n & v & toks & lp & Hs & Hn & -> & _ & Hlp & _ & Hext).
  assert (Hpos : (0 < length (context_requests scheduled
                              ++ active (generation_requests scheduled)))%nat)
    by lia.
  split.
  - intros token_idx request_idx request count Hasks.
    exact (MixedCommitFacts.handle_logits_unreadable model_logits scheduled
             lp (map Z.of_nat toks) n v _ Hs Hlp Hpos token_idx request_idx
             request count Hasks).
  - pose proof (MixedCommitFacts.commit_row_unreadable max_seq_len
                  model_logits scheduled lp (map Z.of_nat toks) n v _ Hs Hlp
                  Hpos) as Hraise.
    unfold TorchDecoder.update_requests. cbn [scheduled_requests].
    destruct (TorchDecoder.for_each _ (0, 0)%nat _)
      as [ctx [e|[ri ti]]] eqn:E1; [discriminate|].
    apply MixedCommitFacts.for_each_ok_inv in E1.
    match goal with
    | |- context [TorchDecoder.for_each
                    (TorchDecoder.extend_step _ _) ?i ?l] =>
        destruct (TorchDecoder.for_each
                    (TorchDecoder.extend_step max_seq_len
                       (mkDecoderState scheduled (Some model_logits)
                          (Some lp) (map Z.of_nat toks))) i l)
          as [ext [e|idx]] eqn:E2
    end; [discriminate|].
    match goal with
    | |- context [TorchDecoder.for_each
                    (TorchDecoder.generation_step _ _) ?i ?l] =>
        destruct (TorchDecoder.for_each
                    (TorchDecoder.generation_step max_seq_len
                       (mkDecoderState scheduled (Some model_logits)
                          (Some lp) (map Z.of_nat toks))) i l)
          as [gen [e|idx']] eqn:E3
    end; [discriminate|].
    apply MixedCommitFacts.for_each_ok_inv in E3. intros _. split.
    + eapply Forall_impl; [exact E1|]. intros r [[ri' ti'] Hok] Hst Hrem.
      destruct (py_return_log_probs r) eqn:Hasks; [|reflexivity].
      unfold TorchDecoder.context_step in Hok. rewrite Hrem in Hok.
      apply LlmRequestState_eqb_neq in Hst. rewrite Hst in Hok.
      cbn [Z.eqb negb] in Hok.
      pose proof (Hraise ti' ri' r Hasks) as Hr.
      destruct (TorchDecoder.commit_row _ _ _ _ _) as [r' [e|u]];
        simpl in Hok, Hr; discriminate.
    + rewrite Forall_forall in E3, Hext |- *. intros r Hr Hst.
      destruct (py_return_log_probs r) eqn:Hasks; [|reflexivity].
      assert (Hact : r ∈ active (generation_requests scheduled)).
      { unfold active. apply list_elem_of_In, filter_In.
        split; [by apply list_elem_of_In|].
        apply LlmRequestState_eqb_neq in Hst. by rewrite Hst. }
      specialize (Hext r Hact).
      destruct (E3 r) as [[ri' ti'] Hok].
      { apply list_elem_of_In, filter_In.
        split; [by apply list_elem_of_In|]. by rewrite Hext. }
      unfold TorchDecoder.generation_step in Hok.
      apply LlmRequestState_eqb_neq in Hst. rewrite Hst in Hok.
      cbn [negb] in Hok.
      pose proof (Hraise ti' ri' r Hasks) as Hr'.
      destruct (TorchDecoder.commit_row _ _ _ _ _) as [r' [e|u]];
        simpl in Hok, Hr'; discriminate.
Qed.

Lemma mixed_mode_log_probs_unreadable_witness :
  let r := sample_request GENERATION_IN_PROGRESS [9] None false in
  let asking :=
    mkLlmRequest GENERATION_IN_PROGRESS [[9]] [NOT_FINISHED] 2 1 3 None
      None 3 0 0 0 false false true 0 (mkSamplingConfig None None)
      (mkPyResult [] [] []) in
  let scheduled := mkScheduledRequests [] [r] None in
  let model_logits := Tensor [1%nat; 1%nat] [Fin 1] in
  let st := mkDecoderState scheduled (Some model_logits) (Some [PyNone])
              [0] in
  TorchDecoder._mixed_decode (fun _ _ _ => 0%nat) (fun _ => [])
    (fun _ => []) model_logits scheduled
  = Ok st
  /\ snd (TorchDecoder.handle_logits st 0 0 asking 1)
     = Raise AttributeError.
Proof.
  cbv zeta.
  assert (H : TorchDecoder._mixed_decode (fun _ _ _ => 0%nat)
                (fun _ => []) (fun _ => [])
                (Tensor [1%nat; 1%nat] [Fin 1])
                (mkScheduledRequests []
                   [sample_request GENERATION_IN_PROGRESS [9] None false]
                   None)
              = Ok (mkDecoderState
                      (mkScheduledRequests []
                         [sample_request GENERATION_IN_PROGRESS [9] None
                            false] None)
                      (Some (Tensor [1%nat; 1%nat] [Fin 1]))
                      (Some [PyNone]) [0])) by reflexivity.
  split; [exact H|].
  destruct (proj1 (mixed_mode_log_probs_unreadable 100 _ _ _ _ _ _ H) 0%nat
              0%nat
              (mkLlmRequest GENERATION_IN_PROGRESS [[9]] [NOT_FINISHED] 2 1 3
                 None None 3 0 0 0 false false true 0
                 (mkSamplingConfig None None) (mkPyResult [] [] []))
              1%nat eq_refl) as (captured & _ & ->).
  reflexivity.
Defined.

(** ** The two producers on greedy requests *)

Module AgreementFacts.
Import TorchDecoder RowFacts.

Section Facts.
Variable multinomial : nat -> nat -> list R -> nat.
Variable sort_indices : list score -> list nat.
Variable cumulative_probs : list score -> list R.
Variable model_logits : tensor score.
Variables (b v : nat).
Variable toks : list nat.
Hypothesis Hshape : shape model_logits = [b; v].
Hypothesis Hwf : tensor_wf model_logits.
Hypothesis Hv : (0 < v)%nat.
Hypothesis Hlen : length toks = b.
Hypothesis Hrows :
  forall r row, rows_of model_logits !! r = Some row ->
                exists j, toks !! r = Some j /\ first_max row j.

Lemma mixed_decode_one_greedy (k : nat) (lp : list pyval)
  (request : LlmRequest) :
  (k < b)%nat -> greedy_request request ->
  exists entry,
    mixed_decode_one multinomial sort_indices cumulative_probs model_logits
      (map (fun j => Tensor [1%nat] [j]) (take k toks), lp, k) request
    = Ok (map (fun j => Tensor [1%nat] [j]) (take (S k) toks),
          lp ++ [entry], S k).
Proof using Hshape Hwf Hv Hlen Hrows.
  intros Hk Hgreedy.
  destruct (MixedFacts.matrix_row model_logits b v k Hshape Hwf Hk)
    as (row & Hrow & Hrl & Hslice & _).
  destruct (Hrows k row Hrow) as (j & Hj & Hfm).
  assert (Hwf1 : tensor_wf (Tensor [1%nat; v] row)).
  { unfold tensor_wf. simpl. lia. }
  destruct (GreedyFacts.greedy_spec (Tensor [1%nat; v] row) 1 v eq_refl
              Hwf1 Hv) as (idx1 & lps1 & Hrun & Hl1 & _ & Hr1).
  destruct (Hr1 0%nat row) as (j' & q & Hj' & Hfm' & _).
  { by rewrite (RowFacts.rows_of_one_row row v Hrl). }
  assert (j' = j) as -> by (by eapply GreedyFacts.first_max_unique).
  assert (idx1 = [j]) as ->.
  { destruct idx1 as [|a [|? ?]]; simpl in Hl1; try lia.
    simpl in Hj'. by injection Hj' as ->. }
  unfold mixed_decode_one. rewrite Hslice. cbn [bind Ok].
  rewrite (MixedFacts.decode_single_request_greedy _ _ _ request
             (Tensor [1%nat; v] row) v eq_refl Hgreedy), Hrun.
  cbn [bind Ok]. eexists. f_equal. f_equal. f_equal.
  by rewrite (take_S_r _ _ _ Hj), map_app.
Qed.

Lemma mixed_context_loop_greedy (requests : list LlmRequest) :
  forall (k : nat) (lp : list pyval),
    Forall (fun r => py_return_context_logits r = false
                     /\ greedy_request r) requests ->
    (k + length requests <= b)%nat ->
    exists lp',
      mixed_context_loop multinomial sort_indices cumulative_probs model_logits
        (map (fun j => Tensor [1%nat] [j]) (take k toks), lp, k) requests
      = Ok (map (fun j => Tensor [1%nat] [j])
              (take (k + length requests) toks),
            lp', (k + length requests)%nat).
Proof using Hshape Hwf Hv Hlen Hrows.
  induction requests as [|r rest IH]; intros k lp Hall Hk.
  - simpl. rewrite Nat.add_0_r. eauto.
  - apply Forall_cons in Hall as [[Hc Hg] Hall]. simpl in Hk.
    cbn [mixed_context_loop]. rewrite Hc.
    destruct (mixed_decode_one_greedy k lp r ltac:(lia) Hg) as [entry ->].
    cbn [bind Ok].
    destruct (IH (S k) (lp ++ [entry]) Hall ltac:(lia)) as [lp' ->].
    exists lp'. simpl. by rewrite Nat.add_succ_r.
Qed.

Lemma mixed_generation_loop_greedy (requests : list LlmRequest) :
  forall (k : nat) (lp : list pyval),
    Forall (fun r => is_extend r = false /\ greedy_request r)
      (active requests) ->
    (k + length (active requests) <= b)%nat ->
    exists lp',
      mixed_generation_loop multinomial sort_indices cumulative_probs
          model_logits
        (map (fun j => Tensor [1%nat] [j]) (take k toks), lp, k) requests
      = Ok (map (fun j => Tensor [1%nat] [j])
              (take (k + length (active requests)) toks),
            lp', (k + length (active requests))%nat).
Proof using Hshape Hwf Hv Hlen Hrows.
  induction requests as [|r rest IH]; intros k lp Hall Hk.
  - simpl. rewrite Nat.add_0_r. eauto.
  - change (active (r :: rest))
      with (if negb (LlmRequestState_eqb (state r) GENERATION_COMPLETE)
            then r :: active rest else active rest) in *.
    cbn [mixed_generation_loop].
    destruct (LlmRequestState_eqb (state r) GENERATION_COMPLETE);
      cbn [negb] in Hall, Hk |- *; [by apply IH|].
    apply Forall_cons in Hall as [[He Hg] Hall]. cbn [length] in Hk |- *.
    rewrite He.
    destruct (mixed_decode_one_greedy k lp r ltac:(lia) Hg) as [entry ->].
    cbn [bind Ok].
    destruct (IH (S k) (lp ++ [entry]) Hall ltac:(lia)) as [lp' ->].
    exists lp'. by rewrite Nat.add_succ_r.
Qed.

Lemma cat_greedy_tokens (k : nat) :
  (0 < k <= b)%nat ->
  cat (map (fun j => Tensor [1%nat] [j]) (take k toks))
  = Ok (Tensor [k] (take k toks)).
Proof using Hlen Hv.
  intros Hk.
  assert (Hl : length (take k toks) = k) by (rewrite length_take; lia).
  rewrite MixedFacts.cat_tokens.
  - rewrite length_map, Hl. f_equal. f_equal.
    clear. induction (take k toks) as [|x l IH]; [reflexivity|].
    simpl. by rewrite IH.
  - destruct (take k toks); [simpl in Hl; lia|done].
  - apply Forall_forall. intros t Ht.
    apply list_elem_of_In, in_map_iff in Ht as (j & <- & _). by split.
Qed.

End Facts.
End AgreementFacts.

(** X10. On requests that name no sampling policy the per-request producer
    and the batched producer agree.  For a well-formed score matrix over a
    non-empty vocabulary with at least one row per decoded request (the
    context requests, none asking for context logits, and the generation
    requests that are not complete, none carrying draft tokens), and at
    least one decoded request, both producers return, and the tokens of
    [_mixed_decode] are the first tokens of [_batch_decode]: the decoded
    request of position [i] is given the first position of the largest
    score of row [i]. *)
Theorem mixed_greedy_agrees_with_batch
  (multinomial : nat -> nat -> list R -> nat)
  (sort_indices : list score -> list nat)
  (cumulative_probs : list score -> list R) (model_logits : tensor score)
  (b v : nat) (scheduled : ScheduledRequests)
  (Hshape : shape model_logits = [b; v]) (Hwf : tensor_wf model_logits)
  (Hv : (0 < v)%nat)
  (Hctx : Forall (fun r => py_return_context_logits r = false
                           /\ greedy_request r)
            (context_requests scheduled))
  (Hgen : Forall (fun r => TorchDecoder.is_extend r = false
                           /\ greedy_request r)
            (active (generation_requests scheduled)))
  (Hrows : (0 < length (context_requests scheduled)
                + length (active (generation_requests scheduled))
            <= b)%nat) :
  let decoded :=
    (length (context_requests scheduled)
     + length (active (generation_requests scheduled)))%nat in
  exists st_mixed st_batch,
    TorchDecoder._mixed_decode multinomial sort_indices cumulative_probs
        model_logits scheduled
    = Ok st_mixed
    /\ TorchDecoder._batch_decode model_logits scheduled = Ok st_batch
    /\ new_tokens_host st_mixed = take decoded (new_tokens_host st_batch)
    /\ length (new_tokens_host st_batch) = b
    /\ forall i row, (i < decoded)%nat ->
         rows_of model_logits !! i = Some row ->
         exists j, new_tokens_host st_mixed !! i = Some (Z.of_nat j)
                   /\ first_max row j.
Proof.
  cbv zeta.
  destruct (GreedyFacts.argmax_matrix model_logits b v Hshape Hwf Hv)
    as (toks & Harg & Hlen & Hfm).
  assert (Hfm' : forall r row, rows_of model_logits !! r = Some row ->
                   exists j, toks !! r = Some j /\ first_max row j).
  { intros r row Hr. destruct (Hfm r row Hr) as (j & ? & ? & _). eauto. }
  assert (Hk1 : (0 + length (context_requests scheduled) <= b)%nat) by lia.
  assert (Hk2 : (0 + length (context_requests scheduled)
                 + length (active (generation_requests scheduled))
                 <= b)%nat) by lia.
  destruct (AgreementFacts.mixed_context_loop_greedy multinomial
              sort_indices cumulative_probs model_logits b v toks
              Hshape Hwf Hv Hlen Hfm'
              (context_requests scheduled) 0 [] Hctx Hk1)
    as [lp1 H1].
  destruct (AgreementFacts.mixed_generation_loop_greedy multinomial
              sort_indices cumulative_probs model_logits b v toks
              Hshape Hwf Hv Hlen Hfm'
              (generation_requests scheduled)
              (0 + length (context_requests scheduled)) lp1 Hgen Hk2)
    as [lp2 H2].
  simpl in H1, H2.
  do 2 eexists. unfold TorchDecoder._mixed_decode, TorchDecoder._batch_decode.
  change (take 0 toks) with (@nil nat) in H1. simpl in H1.
  rewrite H1. cbn [bind Ok]. rewrite H2. cbn [bind Ok].
  rewrite (AgreementFacts.cat_greedy_tokens b v toks Hv Hlen _ Hrows), Harg.
  cbn [bind Ok data].
  split; [reflexivity|]. split; [reflexivity|]. cbn [new_tokens_host].
  split; [by rewrite firstn_map|]. split; [by rewrite length_map|].
  intros i row Hi Hr. destruct (Hfm' i row Hr) as (j & Hj & Hf).
  exists j. split; [|exact Hf].
  rewrite RowFacts.lookup_map, lookup_take_lt by lia. by rewrite Hj.
Qed.

Lemma mixed_greedy_agrees_with_batch_witness :
  let r := sample_request GENERATION_IN_PROGRESS [9] None false in
  let scheduled := mkScheduledRequests [r] [r] None in
  shape sample_logits = [3%nat; 1%nat]
  /\ tensor_wf sample_logits
  /\ exists st_mixed st_batch,
       TorchDecoder._mixed_decode (fun _ _ _ => 0%nat) (fun _ => [])
         (fun _ => []) sample_logits
         scheduled = Ok st_mixed
       /\ TorchDecoder._batch_decode sample_logits scheduled = Ok st_batch
       /\ new_tokens_host st_mixed = take 2 (new_tokens_host st_batch).
Proof.
  cbv zeta. split; [reflexivity|]. split; [reflexivity|].
  destruct (mixed_greedy_agrees_with_batch (fun _ _ _ => 0%nat)
              (fun _ => []) (fun _ => [])
              sample_logits 3 1
              (mkScheduledRequests
                 [sample_request GENERATION_IN_PROGRESS [9] None false]
                 [sample_request GENERATION_IN_PROGRESS [9] None false]
                 None) eq_refl eq_refl)
    as (sm & sb & Hm & Hb & Ht & _).
  - lia.
  - repeat constructor.
  - repeat constructor.
  - simpl. lia.
  - exists sm, sb. split; [exact Hm|]. split; [exact Hb|exact Ht].
Defined.

(** ** Top-p sampling *)

(** X11. The mask of top-p sampling on one row, by rank in the order that
    [torch.sort] returns, whichever order it picks among equal scores, and
    with the running sums as the library computes them.  Provided the sort
    returns a descending order of the row's positions and there are as
    many running sums as scores: every position of the row has a rank; the
    position of rank 0 always keeps its score, whatever [top_p] is; the
    position of rank [j >= 1] is set to [-inf] exactly when the library's
    running sum of the ranks before it exceeds [top_p].  So, when the sums
    are within [eps] of the exact ones, it is set to [-inf] whenever the
    exact probability mass of the ranks before it exceeds [top_p + eps],
    and kept whenever that mass is at most [top_p - eps]; between the two
    the rounding decides.  When the running sums do not decrease, once a
    rank is masked all later ranks are.  A position that has non-zero
    probability in the restricted distribution is one that was kept. *)
Theorem top_p_mask_by_rank
  (sort_indices : list score -> list nat)
  (cumulative_probs : list score -> list R) (top_p : R) (row : list score)
  (Hcontract : top_p_contract sort_indices cumulative_probs row) :
  let order := sort_indices row in
  let sorted_logits := in_order row order in
  let sums := cumulative_probs sorted_logits in
  let mask := top_p_mask_row sort_indices cumulative_probs top_p row in
  let removed := removed_rank top_p sums in
  let mass_before j := Rsum (take j (softmax_row sorted_logits)) in
  length mask = length row
  /\ (forall i, (i < length row)%nat -> exists j, order !! j = Some i)
  /\ (forall j i, order !! j = Some i ->
      exists s, row !! i = Some s
                /\ mask !! i = Some (if removed j then NegInf else s))
  /\ removed 0%nat = false
  /\ (forall eps j,
        sums_within eps sorted_logits sums -> (0 < j < length row)%nat ->
        ((top_p + eps < mass_before j)%R -> removed j = true)
        /\ ((mass_before j <= top_p - eps)%R -> removed j = false))
  /\ (non_decreasing sums ->
      forall j j', (j <= j' < length row)%nat ->
                   removed j = true -> removed j' = true)
  /\ (forall i p,
        softmax_row mask !! i = Some p -> p <> 0%R ->
        exists j, order !! j = Some i /\ removed j = false).
Proof.
  cbv zeta. pose proof Hcontract as [Hsort Hlen].
  pose proof (SamplingFacts.top_p_mask_length sort_indices cumulative_probs
                top_p row Hcontract) as Hml.
  pose proof (SamplingFacts.sorts_descending_length sort_indices row Hsort)
    as Hol.
  assert (Hrank : forall j i, sort_indices row !! j = Some i ->
            exists s, row !! i = Some s
              /\ top_p_mask_row sort_indices cumulative_probs top_p row !! i
                 = Some (if removed_rank top_p
                              (cumulative_probs
                                 (in_order row (sort_indices row))) j
                         then NegInf else s)).
  { intros j i Hj.
    destruct (SamplingFacts.sorts_descending_entry sort_indices row j i
                Hsort Hj) as [s Hs].
    exists s. split; [exact Hs|].
    by apply SamplingFacts.top_p_mask_rank. }
  split; [exact Hml|].
  split; [intros i Hi; by apply SamplingFacts.sorts_descending_rank|].
  split; [exact Hrank|]. split; [reflexivity|].
  split; [|split].
  - intros eps [|j'] Hacc Hj; [lia|].
    destruct (lookup_lt_is_Some_2
                (cumulative_probs (in_order row (sort_indices row))) j')
      as [c Hc]; [lia|].
    assert (He : cumsum (softmax_row (in_order row (sort_indices row)))
                   !! j'
                 = Some (Rsum (take (S j')
                                 (softmax_row
                                    (in_order row (sort_indices row)))))).
    { apply SamplingFacts.cumsum_lookup.
      rewrite SamplingFacts.softmax_row_length,
        SamplingFacts.in_order_length. lia. }
    pose proof (Hacc j' c _ Hc He) as Hclose.
    unfold removed_rank, Rgtb. rewrite Hc.
    unfold Rabs in Hclose. destruct (Rcase_abs _) in Hclose.
    + split; intros H; destruct (Rlt_dec top_p c); try reflexivity; lra.
    + split; intros H; destruct (Rlt_dec top_p c); try reflexivity; lra.
  - intros Hmono [|a] [|a'] Hjj Hrem; try discriminate; try lia.
    unfold removed_rank, Rgtb in Hrem |- *.
    destruct (cumulative_probs (in_order row (sort_indices row)) !! a)
      as [c|] eqn:Ec; [|discriminate].
    destruct (lookup_lt_is_Some_2
                (cumulative_probs (in_order row (sort_indices row))) a')
      as [c' Hc']; [lia|].
    rewrite Hc'. pose proof (Hmono a a' c c' ltac:(lia) Ec Hc') as Hle.
    destruct (Rlt_dec top_p c); [|discriminate].
    destruct (Rlt_dec top_p c'); [reflexivity|lra].
  - intros i p Hp Hne.
    destruct (SamplingFacts.softmax_row_support _ _ _ Hp Hne) as [x Hx].
    assert (Hi : (i < length row)%nat).
    { rewrite <- Hml. by eapply lookup_lt_Some. }
    destruct (SamplingFacts.sorts_descending_rank sort_indices row i Hsort
                Hi) as [j Hj].
    exists j. split; [exact Hj|].
    destruct (Hrank j i Hj) as (s & _ & Hm). rewrite Hm in Hx.
    destruct (removed_rank _ _ j); [discriminate|reflexivity].
Qed.

Lemma top_p_mask_by_rank_witness :
  let row := [Fin 0; Fin 1] in
  top_p_contract stable_order exact_sums row
  /\ length (top_p_mask_row stable_order exact_sums (1 / 2) row) = 2%nat.
Proof.
  cbv zeta.
  pose proof (SamplingFacts.stable_exact_contract [Fin 0; Fin 1]) as Hc.
  split; [exact Hc|].
  exact (proj1 (top_p_mask_by_rank stable_order exact_sums (1 / 2)
                  [Fin 0; Fin 1] Hc)).
Defined.

(** X12. Top-p sampling on a well-formed score matrix.  On an empty
    vocabulary it raises [IndexError].  When it returns, the token of a
    row is the draw from the softmax of the row masked by top-p, and the
    value reported for it is the natural logarithm of its probability
    under the softmax of the unrestricted row.  Over a non-empty
    vocabulary it raises [RuntimeError] when some row has no finite score,
    since the softmax of such a row cannot be drawn from; it returns when
    every row has a finite score, the library's sort and running sums keep
    their promises on every row, and the draws are vocabulary indices. *)
Theorem top_p_sampling_reports
  (multinomial : nat -> list R -> nat)
  (sort_indices : list score -> list nat)
  (cumulative_probs : list score -> list R) (logits : tensor score)
  (b v : nat) (top_p : R)
  (Hshape : shape logits = [b; v]) (Hwf : tensor_wf logits) :
  let sample :=
    top_p_sampling_batch multinomial sort_indices cumulative_probs logits
      top_p in
  (v = 0%nat -> sample = Raise IndexError)
  /\ (forall next_tokens log_probs,
        sample = Ok (next_tokens, log_probs) ->
        data next_tokens
        = imap multinomial
            (map (fun row =>
                    softmax_row
                      (top_p_mask_row sort_indices cumulative_probs top_p
                         row))
               (rows_of logits))
        /\ shape next_tokens = [b] /\ shape log_probs = [b]
        /\ forall r row tok,
             rows_of logits !! r = Some row ->
             data next_tokens !! r = Some tok ->
             exists q, softmax_row row !! tok = Some q
                       /\ data log_probs !! r = Some (ln q))
  /\ ((0 < v)%nat ->
      forall row, row ∈ rows_of logits -> ~ has_finite_score row ->
                  sample = Raise RuntimeError)
  /\ ((0 < v)%nat ->
      (forall r dist, (multinomial r dist < v)%nat) ->
      Forall (fun row =>
                has_finite_score row
                /\ top_p_contract sort_indices cumulative_probs row)
        (rows_of logits) ->
      exists out, sample = Ok out).
Proof.
  cbv zeta.
  destruct (SamplingFacts.softmax_rows logits b v Hshape Hwf)
    as (Hsh & Hdata & Hsall).
  split; [|split; [|split]].
  - intros ->. unfold top_p_sampling_batch.
    rewrite (ProducerFacts.promote_2d logits b 0 Hshape). cbn [bind Ok].
    unfold size2. rewrite Hshape. reflexivity.
  - intros nt lp. unfold top_p_sampling_batch.
    rewrite (ProducerFacts.promote_2d logits b v Hshape). cbn [bind Ok].
    unfold size2. rewrite Hshape. cbn [bind Ok]. unfold top_p_probs.
    destruct (v =? 0)%nat; [discriminate|]. cbn [bind Ok]. intros Hrun.
    destruct (SamplingFacts.sample_and_report_spec multinomial
                (softmax logits) b v (map softmax_row (rows_of logits))
                _ Hsh Hdata Hsall nt lp Hrun) as (-> & Hlsh & Hrep).
    split; [reflexivity|]. split; [reflexivity|]. split; [exact Hlsh|].
    intros r row tok Hr Ht.
    destruct (Hrep r tok Ht) as (row' & q & Hrow' & Hq & Hlp).
    rewrite RowFacts.lookup_map, Hr in Hrow'. simpl in Hrow'.
    injection Hrow' as <-. eauto.
  - intros Hv row Hrow Hnone.
    by apply (SamplingFacts.top_p_sampling_refuses multinomial sort_indices
                cumulative_probs logits b v top_p row).
  - intros Hv Hdraw Hrows.
    by apply (SamplingFacts.top_p_sampling_returns multinomial sort_indices
                cumulative_probs logits b v).
Qed.

Lemma top_p_sampling_reports_witness :
  let logits := Tensor [1%nat; 2%nat] [Fin 0; Fin 1] in
  shape logits = [1%nat; 2%nat]
  /\ tensor_wf logits
  /\ exists out,
       top_p_sampling_batch (fun _ _ => 0%nat) stable_order exact_sums
         logits 1 = Ok out.
Proof.
  cbv zeta. split; [reflexivity|]. split; [reflexivity|].
  apply (top_p_sampling_reports (fun _ _ => 0%nat) stable_order exact_sums
           (Tensor [1%nat; 2%nat] [Fin 0; Fin 1]) 1 2 1 eq_refl eq_refl).
  - lia.
  - intros _ _. lia.
  - change (rows_of (Tensor [1%nat; 2%nat] [Fin 0; Fin 1]))
      with [[Fin 0; Fin 1]].
    constructor; [|constructor]. split.
    + exists 0%R. apply elem_of_cons. by left.
    + apply SamplingFacts.stable_exact_contract.
Defined.

(** ** The star-attention decoder *)

Module StarFacts.
Import TorchStarAttentionDecoder.

(** [logits[output_token_idx].unsqueeze(0)] on a well-formed matrix: the
    row at the position, counted from the end when it is negative. *)
Lemma current_logits_row (t : tensor score) (n v : nat) (idx : Z) :
  shape t = [n; v] -> tensor_wf t ->
  - Z.of_nat n <= idx < Z.of_nat n ->
  exists row,
    rows_of t !! Z.to_nat (if idx <? 0 then idx + Z.of_nat n else idx)
    = Some row
    /\ length row = v
    /\ current_logits_of (Some t) idx = Ok (Tensor [1%nat; v] row).
Proof.
  intros Hs Hwf Hidx.
  set (p := Z.to_nat (if idx <? 0 then idx + Z.of_nat n else idx)).
  assert (Hp : (p < n)%nat).
  { unfold p. destruct (Z.ltb_spec idx 0); lia. }
  destruct (MixedFacts.matrix_row t n v p Hs Hwf Hp)
    as (row & Hrow & Hlen & _ & Hindex).
  exists row. split; [exact Hrow|]. split; [exact Hlen|].
  unfold current_logits_of, index0_py. rewrite Hs.
  destruct (Z.ltb_spec idx (- Z.of_nat n)); [lia|].
  destruct (Z.leb_spec (Z.of_nat n) idx); [lia|].
  cbn [orb]. fold p. rewrite Hindex. reflexivity.
Qed.

(** One call of [update_one_request] on a well-formed score matrix, with
    the token and the row of the request in range. *)
Lemma update_one_request_spec (max_seq_len : Z) (sr : StarRequest)
  (new_tokens_list : list Z) (all_logits : tensor score) (n v : nat)
  (toks : list Z) (tok : Z) :
  tokens (base_request sr) !! 0%nat = Some toks ->
  py_getitem new_tokens_list (output_token_idx sr) = Ok tok ->
  shape all_logits = [n; v] -> tensor_wf all_logits -> (0 < v)%nat ->
  - Z.of_nat n <= output_token_idx sr < Z.of_nat n ->
  exists r' scores j q,
    update_one_request max_seq_len sr new_tokens_list (Some all_logits)
    = (mkStarRequest r' (output_token_idx sr), Ok tt)
    /\ rows_of all_logits
         !! Z.to_nat (if output_token_idx sr <? 0
                      then output_token_idx sr + Z.of_nat n
                      else output_token_idx sr)
       = Some scores
    /\ first_max scores j /\ softmax_row scores !! j = Some q
    /\ tokens r' !! 0%nat = Some (toks ++ [tok])
    /\ generation_logits (py_result r')
       = generation_logits (py_result (base_request sr))
         ++ [Tensor [1%nat; v] scores]
    /\ log_probs (py_result r')
       = log_probs (py_result (base_request sr))
         ++ (if py_return_log_probs (base_request sr)
             then [[Tensor [1%nat] [ln q]]] else [])
    /\ (state r' = GENERATION_COMPLETE
        <-> state (base_request sr) = GENERATION_COMPLETE
            \/ stop_fires max_seq_len (base_request sr) (toks ++ [tok]) tok
               = true)
    /\ py_decoding_iter r'
       = py_decoding_iter (base_request sr)
         + (if LlmRequestState_eqb (state r') GENERATION_COMPLETE
            then 0 else 1)
    /\ config_of r' = config_of (base_request sr).
Proof.
  intros Ht Hread Hs Hwf Hv Hidx. destruct sr as [r idx]. simpl in *.
  destruct (current_logits_row all_logits n v idx Hs Hwf Hidx)
    as (scores & Hrow & Hlen & Hcur).
  assert (Hwf1 : tensor_wf (Tensor [1%nat; v] scores)).
  { unfold tensor_wf. simpl. lia. }
  destruct (GreedyFacts.greedy_spec (Tensor [1%nat; v] scores) 1 v eq_refl
              Hwf1 Hv) as (idx1 & lps1 & Hgreedy & _ & Hl1 & Hr1).
  destruct (Hr1 0%nat scores) as (j & q & _ & Hfm & Hq & Hlq).
  { by rewrite (RowFacts.rows_of_one_row scores v Hlen). }
  assert (lps1 = [ln q]) as ->.
  { destruct lps1 as [|a [|? ?]]; simpl in Hl1; try lia.
    simpl in Hlq. by injection Hlq as ->. }
  unfold update_one_request. cbn [output_token_idx base_request].
  rewrite Hread. unfold Ok at 1. cbv beta iota.
  destruct (UpdateFacts.add_new_token_beam0 r tok toks Ht) as [Ht1 Hn1].
  pose proof (UpdateFacts.add_new_token_config r tok 0) as Hc1.
  destruct (add_new_token r tok 0) as [r1 n1] eqn:Hadd.
  simpl in Ht1, Hn1, Hc1. subst n1.
  assert (Hr1' : py_result r1 = py_result r
                 /\ py_decoding_iter r1 = py_decoding_iter r
                 /\ state r1 = state r).
  { apply (f_equal fst) in Hadd. simpl in Hadd. by subst r1. }
  destruct Hr1' as (Hres1 & Hit1 & Hst1).
  rewrite Hcur. unfold Ok at 1. cbv beta iota.
  set (r2 := append_generation_logits r1 (Tensor [1%nat; v] scores)).
  assert (Hflag2 : py_return_log_probs r2 = py_return_log_probs r).
  { unfold config_of in Hc1. injection Hc1 as _ _ _ _ _ _ _ _ Hl _ _.
    exact Hl. }
  set (r3 := if py_return_log_probs r
             then append_log_probs r2 [Tensor [1%nat] [ln q]] else r2).
  assert (Hlogged :
            (if py_return_log_probs r2 then
               match greedy_search_sampling_batch
                       (Tensor [1%nat; v] scores) with
               | inl e => (r2, Raise e)
               | inr tl => (append_log_probs r2 [snd tl], Ok tt)
               end
             else (r2, Ok tt))
            = (r3, Ok tt)).
  { rewrite Hflag2. unfold r3. destruct (py_return_log_probs r);
      [|reflexivity].
    rewrite Hgreedy. reflexivity. }
  rewrite Hlogged. cbv beta iota.
  assert (H3 : config_of r3 = config_of r /\ tokens r3 = tokens r1
               /\ state r3 = state r
               /\ py_decoding_iter r3 = py_decoding_iter r
               /\ generation_logits (py_result r3)
                  = generation_logits (py_result r)
                    ++ [Tensor [1%nat; v] scores]
               /\ log_probs (py_result r3)
                  = log_probs (py_result r)
                    ++ (if py_return_log_probs r
                        then [[Tensor [1%nat] [ln q]]] else [])).
  { unfold r3, r2. destruct (py_return_log_probs r); simpl;
      rewrite Hres1, ?app_nil_r; repeat split;
      first [exact Hc1 | congruence]. }
  destruct H3 as (Hc3 & Ht3 & Hst3 & Hit3 & Hg3 & Hl3).
  assert (Ht3' : tokens r3 !! 0%nat = Some (toks ++ [tok]))
    by (by rewrite Ht3).
  pose proof (UpdateFacts.handle_stop_criteria_fires max_seq_len r r3 tok
                (toks ++ [tok]) 0 Hc3 Ht3') as Hfires.
  pose proof (UpdateFacts.handle_stop_criteria_frame max_seq_len r3 tok
                (Z.of_nat (length (toks ++ [tok]))) 0) as Hfr.
  pose proof (UpdateFacts.handle_stop_criteria_state max_seq_len r3 tok
                (Z.of_nat (length (toks ++ [tok]))) 0) as Hstate.
  cbv zeta in Hfr, Hstate.
  destruct (TorchDecoder._handle_stop_criteria max_seq_len r3 tok
              (Z.of_nat (length (toks ++ [tok]))) 0) as [r4 stop] eqn:Hh.
  simpl in Hfires, Hfr, Hstate.
  destruct Hfr as (Hc4 & Ht4 & Hres4 & Hit4).
  assert (Hdone : state r4 = GENERATION_COMPLETE
                  <-> state r = GENERATION_COMPLETE
                      \/ stop_fires max_seq_len r (toks ++ [tok]) tok
                         = true).
  { rewrite <- Hfires. destruct stop.
    - destruct Hstate as [Hs' _]. rewrite (Hs' eq_refl). tauto.
    - destruct Hstate as [_ Hs']. rewrite (Hs' eq_refl), Hst3.
      split; [tauto|]. intros [?|?]; [done|discriminate]. }
  eexists _, scores, j, q. split; [reflexivity|].
  split; [exact Hrow|]. split; [exact Hfm|]. split; [exact Hq|].
  destruct (LlmRequestState_eqb (state r4) GENERATION_COMPLETE) eqn:Est;
    cbn [negb]; simpl.
  - rewrite Est. apply LlmRequestState_eqb_eq in Est.
    repeat split; try tauto; try congruence; try lia.
  - rewrite Est. apply LlmRequestState_eqb_neq in Est.
    repeat split; try tauto; try congruence; try lia.
    change (config_of r4 = config_of r). congruence.
Qed.

Lemma append_generation_logits_evolves r t :
  evolves r (append_generation_logits r t).
Proof. split; [by apply UpdateFacts.tokens_grow_eq|done]. Qed.

Lemma append_log_probs_evolves r l : evolves r (append_log_probs r l).
Proof. split; [by apply UpdateFacts.tokens_grow_eq|done]. Qed.

(** Whatever [update_one_request] does, also when it raises: the position
    of the request is kept, its tokens only grow and its configuration is
    not written. *)
Lemma update_one_request_frame (max_seq_len : Z) (sr : StarRequest)
  (new_tokens_list : list Z) (logits : option (tensor score)) :
  let out := update_one_request max_seq_len sr new_tokens_list logits in
  output_token_idx (fst out) = output_token_idx sr
  /\ evolves (base_request sr) (base_request (fst out)).
Proof.
  cbv zeta. destruct sr as [r idx]. unfold update_one_request.
  cbn [output_token_idx base_request].
  destruct (py_getitem new_tokens_list idx) as [e|tok];
    [split; [reflexivity|apply UpdateFacts.evolves_refl]|].
  pose proof (UpdateFacts.add_new_token_evolves r tok 0) as H1.
  destruct (add_new_token r tok 0) as [r1 n1]. simpl in H1.
  destruct (current_logits_of logits idx) as [e|cur];
    [split; [reflexivity|exact H1]|].
  pose proof (append_generation_logits_evolves r1 cur) as H2.
  set (r2 := append_generation_logits r1 cur) in *.
  assert (H3 : forall r3 res,
            (if py_return_log_probs r2 then
               match greedy_search_sampling_batch cur with
               | inl e => (r2, Raise e)
               | inr tl => (append_log_probs r2 [snd tl], Ok tt)
               end
             else (r2, Ok tt)) = (r3, res) -> evolves r2 r3).
  { intros r3 res. destruct (py_return_log_probs r2).
    - destruct (greedy_search_sampling_batch cur) as [e|tl];
        intros H; injection H as <- _;
        [apply UpdateFacts.evolves_refl|apply append_log_probs_evolves].
    - intros H; injection H as <- _. apply UpdateFacts.evolves_refl. }
  destruct (if py_return_log_probs r2 then _ else _) as [r3 [e|u]] eqn:E;
    specialize (H3 _ _ eq_refl).
  - split; [reflexivity|]. cbn [fst base_request].
    eapply UpdateFacts.evolves_trans; [exact H1|].
    eapply UpdateFacts.evolves_trans; [exact H2|exact H3].
  - pose proof (UpdateFacts.handle_stop_criteria_evolves max_seq_len r3 tok
                  n1 0) as H4.
    destruct (TorchDecoder._handle_stop_criteria max_seq_len r3 tok n1 0)
      as [r4 stop]. simpl in H4.
    assert (H14 : evolves r r4).
    { eapply UpdateFacts.evolves_trans; [exact H1|].
      eapply UpdateFacts.evolves_trans; [exact H2|].
      eapply UpdateFacts.evolves_trans; [exact H3|exact H4]. }
    split; [reflexivity|]. cbn [fst base_request].
    destruct (negb _); [|exact H14].
    eapply UpdateFacts.evolves_trans; [exact H14|].
    apply UpdateFacts.set_py_decoding_iter_evolves.
Qed.

(** A call that returns has appended the token of the request. *)
Lemma update_one_request_ok (max_seq_len : Z) (sr : StarRequest)
  (new_tokens_list : list Z) (logits : option (tensor score))
  (toks : list Z) :
  let out := update_one_request max_seq_len sr new_tokens_list logits in
  snd out = Ok tt ->
  tokens (base_request sr) !! 0%nat = Some toks ->
  exists tok,
    py_getitem new_tokens_list (output_token_idx sr) = Ok tok
    /\ tokens (base_request (fst out)) !! 0%nat = Some (toks ++ [tok]).
Proof.
  cbv zeta. destruct sr as [r idx]. unfold update_one_request.
  cbn [output_token_idx base_request].
  destruct (py_getitem new_tokens_list idx) as [e|tok];
    [discriminate|].
  intros Hok Ht. exists tok. split; [reflexivity|].
  destruct (UpdateFacts.add_new_token_beam0 r tok toks Ht) as [Ht1 _].
  destruct (add_new_token r tok 0) as [r1 n1]. simpl in Ht1.
  destruct (current_logits_of logits idx) as [e|cur]; [discriminate|].
  set (r2 := append_generation_logits r1 cur) in *.
  assert (H3 : forall r3 res,
            (if py_return_log_probs r2 then
               match greedy_search_sampling_batch cur with
               | inl e => (r2, Raise e)
               | inr tl => (append_log_probs r2 [snd tl], Ok tt)
               end
             else (r2, Ok tt)) = (r3, res) -> tokens r3 = tokens r1).
  { intros r3 res. destruct (py_return_log_probs r2).
    - destruct (greedy_search_sampling_batch cur) as [e|tl];
        intros H; injection H as <- _; reflexivity.
    - intros H; injection H as <- _. reflexivity. }
  destruct (if py_return_log_probs r2 then _ else _) as [r3 [e|u]] eqn:E;
    [discriminate|].
  specialize (H3 _ _ eq_refl).
  pose proof (UpdateFacts.handle_stop_criteria_frame max_seq_len r3 tok n1
                0) as Hfr.
  cbv zeta in Hfr.
  destruct (TorchDecoder._handle_stop_criteria max_seq_len r3 tok n1 0)
    as [r4 stop]. simpl in Hfr. destruct Hfr as (_ & Ht4 & _).
  destruct (negb _); cbn [base_request fst]; simpl; congruence.
Qed.

(** The loop over requests: every request is related to what the loop
    leaves of it, and a request that the guard rejects is left as it
    was. *)
Lemma update_each_rel (max_seq_len : Z) (guard : StarRequest -> bool)
  (new_tokens_list : list Z) (logits : option (tensor score))
  (rel : StarRequest -> StarRequest -> Prop) :
  (forall sr, rel sr sr) ->
  (forall sr, rel sr (fst (update_one_request max_seq_len sr
                             new_tokens_list logits))) ->
  forall requests,
    Forall2 (fun sr sr' => rel sr sr' /\ (guard sr = false -> sr' = sr))
      requests
      (fst (update_each max_seq_len guard new_tokens_list logits requests)).
Proof.
  intros Hrefl Hstep.
  assert (Hsame : forall l : list StarRequest,
            Forall2 (fun sr sr' => rel sr sr'
                                   /\ (guard sr = false -> sr' = sr)) l l).
  { induction l; constructor; auto. }
  induction requests as [|sr rest IH]; [constructor|].
  cbn [update_each]. destruct (guard sr) eqn:Eg.
  - pose proof (Hstep sr) as H1.
    destruct (update_one_request max_seq_len sr new_tokens_list logits)
      as [sr' [e|u]]; simpl in H1.
    + constructor; [split; [exact H1|congruence]|apply Hsame].
    + destruct (update_each max_seq_len guard new_tokens_list logits rest)
        as [rest' res]. simpl in IH.
      constructor; [split; [exact H1|congruence]|exact IH].
  - destruct (update_each max_seq_len guard new_tokens_list logits rest)
      as [rest' res]. simpl in IH.
    constructor; [split; [apply Hrefl|done]|exact IH].
Qed.

(** A loop that returns has returned from every call it made. *)
Lemma update_each_ok (max_seq_len : Z) (guard : StarRequest -> bool)
  (new_tokens_list : list Z) (logits : option (tensor score)) :
  forall requests,
    snd (update_each max_seq_len guard new_tokens_list logits requests)
    = Ok tt ->
    forall i sr, requests !! i = Some sr -> guard sr = true ->
      snd (update_one_request max_seq_len sr new_tokens_list logits) = Ok tt
      /\ fst (update_each max_seq_len guard new_tokens_list logits requests)
         !! i
         = Some (fst (update_one_request max_seq_len sr new_tokens_list
                        logits)).
Proof.
  induction requests as [|sr0 rest IH]; intros Hok i sr Hi Hg;
    [discriminate|].
  cbn [update_each] in Hok |- *.
  destruct (guard sr0) eqn:Eg.
  - destruct (update_one_request max_seq_len sr0 new_tokens_list logits)
      as [sr0' [e|[]]] eqn:E0; [discriminate|].
    destruct (update_each max_seq_len guard new_tokens_list logits rest)
      as [rest' res] eqn:Er. simpl in Hok, IH.
    destruct i as [|i]; simpl in Hi.
    + injection Hi as <-. rewrite E0. done.
    + by apply IH.
  - destruct (update_each max_seq_len guard new_tokens_list logits rest)
      as [rest' res] eqn:Er. simpl in Hok, IH.
    destruct i as [|i]; simpl in Hi.
    + injection Hi as <-. congruence.
    + by apply IH.
Qed.

End StarFacts.

(** X13. One commit of the star-attention decoder, for a request whose
    [output_token_idx] is inside the token buffer and inside a well-formed
    score matrix over a non-empty vocabulary (a negative position counts
    from the end).  The call returns; the buffer token at the position is
    appended to beam 0; the score row at the position is recorded as a
    1-by-vocabulary slice whether or not the request asks for generation
    logits; when the request asks for log-probabilities, the logarithm of
    the softmax probability of the row's first largest score is recorded;
    the request ends complete exactly when it was complete already or a
    stop criterion fires on the new token, and the iteration counter grows
    by one only if it does not end complete. *)
Theorem star_update_one_request_commit
  (max_seq_len : Z) (sr : StarRequest) (new_tokens_list : list Z)
  (all_logits : tensor score) (n v : nat) (toks : list Z) (tok : Z)
  (Hbeam : tokens (base_request sr) !! 0%nat = Some toks)
  (Hread : py_getitem new_tokens_list (output_token_idx sr) = Ok tok)
  (Hshape : shape all_logits = [n; v]) (Hwf : tensor_wf all_logits)
  (Hv : (0 < v)%nat)
  (Hidx : - Z.of_nat n <= output_token_idx sr < Z.of_nat n) :
  let idx := output_token_idx sr in
  let r := base_request sr in
  let out :=
    TorchStarAttentionDecoder.update_one_request max_seq_len sr
      new_tokens_list (Some all_logits) in
  let r' := base_request (fst out) in
  exists scores j q,
    rows_of all_logits
      !! Z.to_nat (if idx <? 0 then idx + Z.of_nat n else idx)
    = Some scores
    /\ first_max scores j /\ softmax_row scores !! j = Some q
    /\ snd out = Ok tt
    /\ output_token_idx (fst out) = idx
    /\ tokens r' !! 0%nat = Some (toks ++ [tok])
    /\ generation_logits (py_result r')
       = generation_logits (py_result r) ++ [Tensor [1%nat; v] scores]
    /\ log_probs (py_result r')
       = log_probs (py_result r)
         ++ (if py_return_log_probs r
             then [[Tensor [1%nat] [ln q]]] else [])
    /\ (state r' = GENERATION_COMPLETE
        <-> state r = GENERATION_COMPLETE
            \/ stop_fires max_seq_len r (toks ++ [tok]) tok = true)
    /\ py_decoding_iter r'
       = py_decoding_iter r
         + (if LlmRequestState_eqb (state r') GENERATION_COMPLETE
            then 0 else 1)
    /\ config_of r' = config_of r.
Proof.
  cbv zeta.
  destruct (StarFacts.update_one_request_spec max_seq_len sr new_tokens_list
              all_logits n v toks tok Hbeam Hread Hshape Hwf Hv Hidx)
    as (r' & scores & j & q & -> & Hrow & Hfm & Hq & Ht & Hg & Hl & Hst
        & Hit & Hc).
  exists scores, j, q. simpl. done.
Qed.

Lemma star_update_one_request_commit_witness :
  let sr :=
    mkStarRequest (sample_request GENERATION_COMPLETE [7] None false)
      (-1) in
  py_getitem [20; 21; 22] (output_token_idx sr) = Ok 22
  /\ tensor_wf sample_logits
  /\ tokens (base_request
               (fst (TorchStarAttentionDecoder.update_one_request 100 sr
                       [20; 21; 22] (Some sample_logits)))) !! 0%nat
     = Some ([7] ++ [22]).
Proof.
  cbv zeta. split; [reflexivity|]. split; [reflexivity|].
  destruct (star_update_one_request_commit 100
              (mkStarRequest
                 (sample_request GENERATION_COMPLETE [7] None false) (-1))
              [20; 21; 22] sample_logits 3 1 [7] 22
              eq_refl eq_refl eq_refl eq_refl)
    as (scores & j & q & _ & _ & _ & _ & _ & Ht & _).
  - lia.
  - simpl. lia.
  - exact Ht.
Defined.

(** X14. When the scores of a star-attention commit cannot be read, the
    token has been appended already: with the token of the request in the
    buffer and the scores missing or without a row at the position, the
    call raises what the read raises, and leaves the request with the
    token on beam 0 and nothing else changed. *)
Theorem star_update_one_request_partial
  (max_seq_len : Z) (sr : StarRequest) (new_tokens_list : list Z)
  (logits : option (tensor score)) (toks : list Z) (tok : Z) (e : exn)
  (Hbeam : tokens (base_request sr) !! 0%nat = Some toks)
  (Hread : py_getitem new_tokens_list (output_token_idx sr) = Ok tok)
  (Hrow : TorchStarAttentionDecoder.current_logits_of logits
            (output_token_idx sr) = Raise e) :
  let out :=
    TorchStarAttentionDecoder.update_one_request max_seq_len sr
      new_tokens_list logits in
  let r := base_request sr in
  let r' := base_request (fst out) in
  snd out = Raise e
  /\ tokens r' !! 0%nat = Some (toks ++ [tok])
  /\ state r' = state r /\ finished_reasons r' = finished_reasons r
  /\ py_result r' = py_result r
  /\ py_decoding_iter r' = py_decoding_iter r
  /\ (logits = None -> e = TypeError).
Proof.
  cbv zeta. destruct sr as [r idx].
  cbn [output_token_idx base_request] in *.
  assert (Hout : TorchStarAttentionDecoder.update_one_request max_seq_len
                   (mkStarRequest r idx) new_tokens_list logits
                 = (mkStarRequest (fst (add_new_token r tok 0)) idx,
                    Raise e)).
  { unfold TorchStarAttentionDecoder.update_one_request.
    cbn [output_token_idx base_request]. rewrite Hread.
    unfold Ok at 1. cbv beta iota.
    destruct (add_new_token r tok 0) as [r1 n1]. rewrite Hrow.
    reflexivity. }
  rewrite Hout. cbn [fst snd base_request].
  destruct (UpdateFacts.add_new_token_beam0 r tok toks Hbeam) as [Ht1 _].
  split; [reflexivity|]. split; [exact Ht1|].
  repeat split; try reflexivity.
  intros ->. simpl in Hrow. by injection Hrow as <-.
Qed.

Lemma star_update_one_request_partial_witness :
  let sr :=
    mkStarRequest (sample_request GENERATION_IN_PROGRESS [7] None false) 0
  in
  py_getitem [20] (output_token_idx sr) = Ok 20
  /\ snd (TorchStarAttentionDecoder.update_one_request 100 sr [20] None)
     = Raise TypeError
  /\ tokens (base_request
               (fst (TorchStarAttentionDecoder.update_one_request 100 sr
                       [20] None))) !! 0%nat
     = Some ([7] ++ [20]).
Proof.
  cbv zeta. split; [reflexivity|].
  destruct (star_update_one_request_partial 100
              (mkStarRequest
                 (sample_request GENERATION_IN_PROGRESS [7] None false) 0)
              [20] None [7] 20 TypeError eq_refl eq_refl eq_refl)
    as (Hres & Ht & _).
  split; [exact Hres|exact Ht].
Defined.

(** X15. What a commit of the star-attention decoder may do to the batch,
    whether it returns or raises: every request keeps its position and its
    configuration and its token sequences only grow, and a context request
    that is not in state [GENERATION_IN_PROGRESS] is left exactly as it
    was. *)
Theorem star_update_requests_frame
  (max_seq_len : Z) (decoder_state : StarDecoderState) :
  let out :=
    TorchStarAttentionDecoder.update_requests max_seq_len decoder_state in
  let kept (sr sr' : StarRequest) :=
    output_token_idx sr' = output_token_idx sr
    /\ evolves (base_request sr) (base_request sr') in
  Forall2 (fun sr sr' =>
             kept sr sr'
             /\ (state (base_request sr) <> GENERATION_IN_PROGRESS ->
                 sr' = sr))
    (star_context_requests decoder_state) (fst (fst out))
  /\ Forall2 kept (star_generation_requests decoder_state) (snd (fst out)).
Proof.
  cbv zeta.
  set (kept := fun sr sr' : StarRequest =>
                 output_token_idx sr' = output_token_idx sr
                 /\ evolves (base_request sr) (base_request sr')).
  assert (Hrefl : forall sr, kept sr sr).
  { intros sr. split; [reflexivity|apply UpdateFacts.evolves_refl]. }
  assert (Hstep : forall sr,
            kept sr (fst (TorchStarAttentionDecoder.update_one_request
                            max_seq_len sr
                            (star_new_tokens_host decoder_state)
                            (star_logits decoder_state)))).
  { intros sr. apply StarFacts.update_one_request_frame. }
  assert (Hsame : forall l : list StarRequest, Forall2 kept l l).
  { induction l; constructor; auto. }
  unfold TorchStarAttentionDecoder.update_requests.
  pose proof (StarFacts.update_each_rel max_seq_len
                (fun sr => LlmRequestState_eqb (state (base_request sr))
                             GENERATION_IN_PROGRESS)
                (star_new_tokens_host decoder_state)
                (star_logits decoder_state) kept Hrefl Hstep
                (star_context_requests decoder_state)) as Hctx.
  pose proof (StarFacts.update_each_rel max_seq_len (fun _ => true)
                (star_new_tokens_host decoder_state)
                (star_logits decoder_state) kept Hrefl Hstep
                (star_generation_requests decoder_state)) as Hgen.
  assert (Hctx' : forall ctx,
            Forall2 (fun sr sr' =>
                       kept sr sr'
                       /\ (LlmRequestState_eqb (state (base_request sr))
                             GENERATION_IN_PROGRESS = false -> sr' = sr))
              (star_context_requests decoder_state) ctx ->
            Forall2 (fun sr sr' =>
                       kept sr sr'
                       /\ (state (base_request sr)
                           <> GENERATION_IN_PROGRESS -> sr' = sr))
              (star_context_requests decoder_state) ctx).
  { intros ctx H. eapply Forall2_impl; [exact H|].
    intros sr sr' [Hk Hu]. split; [exact Hk|]. intros Hne. apply Hu.
    by apply LlmRequestState_eqb_neq. }
  destruct (TorchStarAttentionDecoder.update_each max_seq_len _ _ _
              (star_context_requests decoder_state)) as [ctx [e|u]].
  - simpl in *. split; [by apply Hctx'|apply Hsame].
  - destruct (TorchStarAttentionDecoder.update_each max_seq_len _ _ _
                (star_generation_requests decoder_state)) as [gen res].
    simpl in *. split; [by apply Hctx'|].
    eapply Forall2_impl; [exact Hgen|]. by intros sr sr' [Hk _].
Qed.

(** X16. When a commit of the star-attention decoder returns, every
    generation request, complete or not, and every context request in
    state [GENERATION_IN_PROGRESS] has had the buffer token at its
    [output_token_idx] appended to beam 0. *)
Theorem star_update_requests_commits
  (max_seq_len : Z) (decoder_state : StarDecoderState)
  (Hreturns : snd (TorchStarAttentionDecoder.update_requests max_seq_len
                     decoder_state) = Ok tt) :
  let out :=
    TorchStarAttentionDecoder.update_requests max_seq_len decoder_state in
  let committed (before after : list StarRequest) (i : nat)
        (sr : StarRequest) (toks : list Z) :=
    exists sr' tok,
      after !! i = Some sr'
      /\ py_getitem (star_new_tokens_host decoder_state)
           (output_token_idx sr) = Ok tok
      /\ tokens (base_request sr') !! 0%nat = Some (toks ++ [tok]) in
  (forall i sr toks,
     star_generation_requests decoder_state !! i = Some sr ->
     tokens (base_request sr) !! 0%nat = Some toks ->
     committed (star_generation_requests decoder_state) (snd (fst out)) i
       sr toks)
  /\ (forall i sr toks,
        star_context_requests decoder_state !! i = Some sr ->
        state (base_request sr) = GENERATION_IN_PROGRESS ->
        tokens (base_request sr) !! 0%nat = Some toks ->
        committed (star_context_requests decoder_state) (fst (fst out)) i
          sr toks).
Proof.
  cbv zeta. revert Hreturns.
  unfold TorchStarAttentionDecoder.update_requests.
  pose proof (StarFacts.update_each_ok max_seq_len
                (fun sr => LlmRequestState_eqb (state (base_request sr))
                             GENERATION_IN_PROGRESS)
                (star_new_tokens_host decoder_state)
                (star_logits decoder_state)
                (star_context_requests decoder_state)) as Hctx.
  pose proof (StarFacts.update_each_ok max_seq_len (fun _ => true)
                (star_new_tokens_host decoder_state)
                (star_logits decoder_state)
                (star_generation_requests decoder_state)) as Hgen.
  destruct (TorchStarAttentionDecoder.update_each max_seq_len _ _ _
              (star_context_requests decoder_state)) as [ctx [e|[]]];
    [discriminate|].
  destruct (TorchStarAttentionDecoder.update_each max_seq_len _ _ _
              (star_generation_requests decoder_state)) as [gen res].
  simpl in *. intros ->. split.
  - intros i sr toks Hi Ht.
    destruct (Hgen eq_refl i sr Hi eq_refl) as [Hok Hlook].
    destruct (StarFacts.update_one_request_ok max_seq_len sr _ _ toks Hok
                Ht) as (tok & Hread & Htok).
    eauto.
  - intros i sr toks Hi Hst Ht.
    destruct (Hctx eq_refl i sr Hi) as [Hok Hlook].
    { by rewrite Hst. }
    destruct (StarFacts.update_one_request_ok max_seq_len sr _ _ toks Hok
                Ht) as (tok & Hread & Htok).
    eauto.
Qed.

Lemma star_update_requests_commits_witness :
  let sr :=
    mkStarRequest (sample_request GENERATION_COMPLETE [7] None false) 0 in
  let decoder_state :=
    mkStarDecoderState [] [sr] (Some sample_logits) [20] in
  snd (TorchStarAttentionDecoder.update_requests 100 decoder_state) = Ok tt
  /\ exists sr' tok,
       snd (fst (TorchStarAttentionDecoder.update_requests 100
                   decoder_state)) !! 0%nat = Some sr'
       /\ py_getitem [20] 0 = Ok tok
       /\ tokens (base_request sr') !! 0%nat = Some ([7] ++ [tok]).
Proof.
  cbv zeta.
  assert (H : snd (TorchStarAttentionDecoder.update_requests 100
                     (mkStarDecoderState []
                        [mkStarRequest
                           (sample_request GENERATION_COMPLETE [7] None
                              false) 0]
                        (Some sample_logits) [20])) = Ok tt)
    by reflexivity.
  split; [exact H|].
  exact (proj1 (star_update_requests_commits 100 _ H) 0%nat
           (mkStarRequest
              (sample_request GENERATION_COMPLETE [7] None false) 0)
           [7] eq_refl eq_refl).
Defined.
